(** * Country Exchange API: the refresh pipeline and the HTTP handlers

    A shallow embedding of [index.js] (the Express server of the
    repository) and of its sibling server file, with the properties
    of the refresh pipeline stated over it.

    Conventions of the embedding:
    - a JavaScript number is an IEEE-754 binary64 value, in the
      Standard Library's specification of floating-point arithmetic
      ([SpecFloat], precision 53, [emax] 1024): every operation rounds
      to nearest, ties to even, and overflows to an infinity, and
      zero has a sign; [NaN] carries no payload;
    - a JSON document is a [value]; [VUndefined] stands for an absent
      member, and [VFun] for a function that a lookup finds on the
      prototype chain, which the runtime ([builtins]) supplies;
    - a request is served by the first route registered for it;
    - the handlers run in a small exception-and-state monad [M]: a
      thrown exception keeps the state reached so far, as in
      JavaScript;
    - table [countries] is the list of its rows in insertion order;
      SQL compares strings as they are (the definition of the table,
      with its collation and constraints, is not in the repository);
    - what the server cannot control (the two HTTP sources, the clock,
      [Math.random], failures of the database driver and of the file
      system) is read from an environment [env]: a statement that
      the database would reject is a call that the environment lets
      fail. *)

From Stdlib Require Import ZArith Floats.SpecFloat.
From Stdlib Require Import Bool List String Ascii DecimalString Lia.
From Stdlib Require Import Permutation Sorted.
Import ListNotations.

#[local] Open Scope string_scope.
#[local] Open Scope Z_scope.

(** ** JavaScript numbers *)

(** A Number is a double; [NaN] is the one of no value. *)
#[warnings="-notation-for-abbreviation"]
Notation number := spec_float.

#[warnings="-notation-for-abbreviation"]
Notation NaN := S754_nan.

Module Num.

Definition prec : Z := 53.
Definition emax : Z := 1024.

(** The double nearest to the integer [z]. *)
Definition ofZ (z : Z) : number := binary_normalize prec emax z 0 false.

(** [Number.isNaN] *)
Definition isNaN (n : number) : bool :=
  match n with S754_nan => true | _ => false end.

(** [+0] or [-0] *)
Definition is_zero (n : number) : bool :=
  match n with S754_zero _ => true | _ => false end.

(** [a + b], [a - b], [a * b], [a / b] *)
Definition add (a b : number) : number := SFadd prec emax a b.
Definition sub (a b : number) : number := SFsub prec emax a b.
Definition mul (a b : number) : number := SFmul prec emax a b.
Definition div (a b : number) : number := SFdiv prec emax a b.

(** [Math.floor]: a double of exponent 0 or more is an integer; the
    floor of a smaller one is below 2^53 in size and so a double. *)
Definition floor (a : number) : number :=
  match a with
  | S754_finite s m e =>
      if 0 <=? e then a
      else ofZ (cond_Zopp s (Zpos m) / 2 ^ (- e))
  | _ => a
  end.

(** [a <= b] on numbers, false when either side is [NaN] *)
Definition leb (a b : number) : bool := SFleb a b.

(** The same double. *)
Definition eqb (a b : number) : bool :=
  match a, b with
  | S754_nan, S754_nan => true
  | S754_zero s, S754_zero s' | S754_infinity s, S754_infinity s' =>
      Bool.eqb s s'
  | S754_finite s m e, S754_finite s' m' e' =>
      Bool.eqb s s' && Pos.eqb m m' && Z.eqb e e'
  | _, _ => false
  end.

End Num.

(** [Math.random()]: the engine hands out a multiple of 2^-53 in
    [0, 1); [raw] is the engine's raw output for this call. *)
Definition Math_random (raw : N) : number :=
  binary_normalize Num.prec Num.emax (Z.of_N raw mod 2 ^ 53) (-53) false.

(** [function randInt(min, max)]:
    [Math.floor(Math.random() * (max - min + 1)) + min], with the value
    of the [Math.random()] call passed in. *)
Definition randInt (min max : number) (random : number) : number :=
  Num.add
    (Num.floor (Num.mul random (Num.add (Num.sub max min) (Num.ofZ 1))))
    min.

#[global] Arguments Num.ofZ : simpl never.
#[global] Arguments Num.add : simpl never.
#[global] Arguments Num.sub : simpl never.
#[global] Arguments Num.mul : simpl never.
#[global] Arguments Num.div : simpl never.
#[global] Arguments Num.floor : simpl never.
#[global] Arguments Math_random : simpl never.
#[global] Arguments randInt : simpl never.

(** ** JSON values and the JavaScript operators the server applies to them *)

(** A JSON value, [undefined], or a function of the runtime (what
    [rateMap.constructor] or [rateMap.toString] is), known by its
    name. *)
#[warnings="-register-all"]
Inductive value : Type :=
| VUndefined
| VNull
| VBool (b : bool)
| VNum (n : number)
| VStr (s : string)
| VArr (elems : list value)
| VObj (members : list (string * value))
| VFun (name : string).

(** Truthiness, as tested by [!v], [v || w], [v && w] and [if (v)]. *)
Definition truthy (v : value) : bool :=
  match v with
  | VUndefined | VNull => false
  | VBool b => b
  | VNum n => negb (Num.isNaN n || Num.is_zero n)
  | VStr s => negb (s =? "")%string
  | VArr _ | VObj _ | VFun _ => true
  end.

(** [v == null]: true of [null] and [undefined] only. *)
Definition nullish (v : value) : bool :=
  match v with
  | VUndefined | VNull => true
  | _ => false
  end.

(** [a || b] *)
Definition or_else (a b : value) : value := if truthy a then a else b.

Infix "||'" := or_else (at level 50, left associativity).

Inductive exn : Type :=
| AxiosError (response_url : option string) (message : string)
| TypeError (message : string)
| DbError (message : string)
| FsError (message : string).

Inductive outcome (A : Type) : Type :=
| Ok (a : A)
| Throw (e : exn).
Arguments Ok {A} a.
Arguments Throw {A} e.

Fixpoint assoc (k : string) (ms : list (string * value)) : option value :=
  match ms with
  | [] => None
  | (k', v) :: rest => if (k' =? k)%string then Some v else assoc k rest
  end.

(** The decimal spelling of an array index, as a property key. *)
Definition index_key (i : nat) : string :=
  NilEmpty.string_of_uint (Nat.to_uint i).

(** The position [i < n] whose key is [k], if any. *)
Fixpoint key_index (k : string) (n : nat) : option nat :=
  match n with
  | O => None
  | S i =>
      match key_index k i with
      | Some j => Some j
      | None => if (index_key i =? k)%string then Some i else None
      end
  end.

Definition chars (s : string) : list value :=
  map (fun c => VStr (String c EmptyString)) (list_ascii_of_string s).

(** [for (const c of v)]: the elements of an array, the characters of
    a string; anything else is not iterable. *)
Definition iterate (v : value) : outcome (list value) :=
  match v with
  | VArr l => Ok l
  | VStr s => Ok (chars s)
  | _ => Throw (TypeError "countries is not iterable")
  end.

(** The library functions of the JavaScript runtime that the server
    calls and that are specified outside this repository. *)
Record builtins : Type := {
  (** [String.prototype.toLowerCase] *)
  toLowerCase : string -> string;
  (** [Number(s)] of a string [s] *)
  StringToNumber : string -> number;
  (** [String(v)] of a value that is not a string *)
  ToString : value -> string;
  (** [Date.prototype.toISOString], of a date given in epoch
      milliseconds *)
  toISOString : Z -> string;
  (** [inherited v k]: the member that [v] has under key [k] beyond
      its own JSON content, if there is one: what it inherits along
      its prototype chain ([Object.prototype] for an object;
      [Array.prototype], [String.prototype], [Number.prototype] or
      [Boolean.prototype], and then [Object.prototype], for the
      others), and the members of a function *)
  inherited : value -> string -> option value
}.

(** [v[k]] and [v.k]: an own member of the value ([length] and the
    elements of an array or string, the members of an object), else
    the member it inherits, else [undefined].  Reading a member of
    [null] or [undefined] throws. *)
Definition prop (B : builtins) (v : value) (k : string) : outcome value :=
  let beyond :=
    match inherited B v k with Some x => x | None => VUndefined end in
  match v with
  | VUndefined | VNull =>
      Throw (TypeError ("Cannot read properties of null or undefined, reading " ++ k))
  | VObj ms =>
      Ok (match assoc k ms with Some x => x | None => beyond end)
  | VArr l =>
      if (k =? "length")%string then Ok (VNum (Num.ofZ (Z.of_nat (List.length l))))
      else Ok (match key_index k (List.length l) with
               | Some i => nth i l VUndefined
               | None => beyond
               end)
  | VStr s =>
      if (k =? "length")%string then Ok (VNum (Num.ofZ (Z.of_nat (String.length s))))
      else Ok (match key_index k (String.length s) with
               | Some i => nth i (chars s) VUndefined
               | None => beyond
               end)
  | VBool _ | VNum _ | VFun _ => Ok beyond
  end.

(** ** The persisted data *)

(** The object [entry] that the refresh loop builds for a country;
    [None] is JavaScript's [null] in the three numeric columns. *)
Record entry : Type := {
  name : value;
  name_lower : string;
  capital : value;
  region : value;
  population : option number;
  currency_code : value;
  exchange_rate : option number;
  estimated_gdp : option number;
  flag_url : value;
  last_refreshed_at : Z
}.

(** A row of table [countries]: its [id] and the ten columns.  The
    table's definition is not in the repository; the [INSERT] passes
    no [id], so the table hands them out, here from the counter
    [next_id] of the store. *)
Record row : Type := {
  id : nat;
  cols : entry
}.

(** What [generateSummaryImage] draws into [cache/summary.png]. *)
Record summary_image : Type := {
  img_total : nat;
  img_top : list (value * option number);
  img_timestamp : Z
}.

(** Table [countries] and the image file: all that outlives a request. *)
Record store : Type := {
  table : list row;
  next_id : nat;
  image : option summary_image
}.

(** ** Requests, responses, environment *)

Inductive body : Type :=
| JsonError (error : string) (details : option string)
| JsonRefresh (message : string) (total_countries : nat) (refreshed_at : string)
| JsonRows (rows : list row)
| JsonRow (r : row)
| JsonStatus (total_countries : nat) (refreshed_at : option string)
| PngFile (img : summary_image)
| NoBody.

Record response : Type := {
  status : nat;
  payload : body
}.

(** What [axios.get] of the two sources comes to: both bodies, or the
    error of the failing call ([response_url] is
    [err.response.config.url], present when the source answered with an
    error status). *)
Inductive fetch_outcome : Type :=
| Fetched (countries : value) (rates : value)
| FetchFailed (response_url : option string) (message : string).

Record env : Type := {
  fetch : fetch_outcome;
  (** [new Date()], in epoch milliseconds *)
  clock : Z;
  (** the raw output of the n-th call of [Math.random] *)
  entropy : nat -> N;
  (** whether the n-th call of the database driver rejects, and with
      which message *)
  db_fault : nat -> option string;
  (** whether [fs.mkdirSync] throws in [ensureCacheDir] *)
  mkdir_fault : option string;
  (** whether Jimp throws while the image is built or written *)
  jimp_fault : option string;
  (** whether [res.setHeader] or [res.sendFile] throws *)
  sendfile_fault : option string
}.

(** ** The handler monad *)

(** The state of one request: the store, the handler's [conn]
    variable, the table as it was at [beginTransaction] while the
    transaction is open, and how many driver and [Math.random] calls
    were made. *)
Record machine : Type := {
  disk : store;
  conn : bool;
  txn : option (list row);
  db_calls : nat;
  random_calls : nat
}.

Definition M (A : Type) : Type := machine -> outcome A * machine.

Definition ret {A} (a : A) : M A := fun m => (Ok a, m).

Definition throw {A} (e : exn) : M A := fun m => (Throw e, m).

Definition bind {A B} (c : M A) (k : A -> M B) : M B :=
  fun m =>
    match c m with
    | (Ok a, m') => k a m'
    | (Throw e, m') => (Throw e, m')
    end.

(** [try { c } catch (err) { h err }] *)
Definition try_catch {A} (c : M A) (h : exn -> M A) : M A :=
  fun m =>
    match c m with
    | (Ok a, m') => (Ok a, m')
    | (Throw e, m') => h e m'
    end.

Definition lift {A} (o : outcome A) : M A :=
  match o with
  | Ok a => ret a
  | Throw e => throw e
  end.

Notation "x <- c ;; k" := (bind c (fun x => k))
  (at level 61, c at next level, right associativity).
Notation "c ;; k" := (bind c (fun _ => k))
  (at level 61, right associativity).

Fixpoint forEach {A} (f : A -> M unit) (l : list A) : M unit :=
  match l with
  | [] => ret tt
  | x :: rest => f x ;; forEach f rest
  end.

Definition start (s : store) : machine :=
  {| disk := s; conn := false; txn := None; db_calls := 0; random_calls := 0 |}.

Definition set_table (t : list row) (s : store) : store :=
  {| table := t; next_id := next_id s; image := image s |}.

Definition with_disk (f : store -> store) : M unit :=
  fun m =>
    (Ok tt, {| disk := f (disk m); conn := conn m; txn := txn m;
               db_calls := db_calls m; random_calls := random_calls m |}).

Definition read_table : M (list row) := fun m => (Ok (table (disk m)), m).

(** An Express handler [async (req, res) => { try { c } catch (err)
    { h err } }], run on the store [s]. *)
Definition handler (c : M response)
    (h : exn -> machine -> response * machine) (s : store)
  : response * store :=
  match c (start s) with
  | (Ok r, m) => (r, disk m)
  | (Throw err, m) => let (r, m') := h err m in (r, disk m')
  end.

(** ** The database driver and the file system *)

Section Driver.

Variable e : env.

(** One call of the driver ([pool.getConnection], [beginTransaction],
    [query], [commit]): it rejects when the environment says so. *)
Definition db_call : M unit :=
  fun m =>
    let m' := {| disk := disk m; conn := conn m; txn := txn m;
                 db_calls := S (db_calls m); random_calls := random_calls m |} in
    match db_fault e (db_calls m) with
    | Some msg => (Throw (DbError msg), m')
    | None => (Ok tt, m')
    end.

(** [conn = await pool.getConnection()] *)
Definition getConnection : M unit :=
  db_call ;;
  fun m => (Ok tt, {| disk := disk m; conn := true; txn := txn m;
                      db_calls := db_calls m; random_calls := random_calls m |}).

(** [await conn.beginTransaction()] *)
Definition beginTransaction : M unit :=
  db_call ;;
  fun m => (Ok tt, {| disk := disk m; conn := conn m;
                      txn := Some (table (disk m));
                      db_calls := db_calls m; random_calls := random_calls m |}).

(** [await conn.commit()] *)
Definition commit : M unit :=
  db_call ;;
  fun m => (Ok tt, {| disk := disk m; conn := conn m; txn := None;
                      db_calls := db_calls m; random_calls := random_calls m |}).

(** [Math.random()] *)
Definition random : M number :=
  fun m =>
    (Ok (Math_random (entropy e (random_calls m))),
     {| disk := disk m; conn := conn m; txn := txn m;
        db_calls := db_calls m; random_calls := S (random_calls m) |}).

(** [SELECT id FROM countries WHERE name_lower = ? LIMIT 1] *)
Definition select_id (key : string) : M (option nat) :=
  db_call ;;
  t <- read_table ;;
  ret (option_map id
         (find (fun r => (name_lower (cols r) =? key)%string) t)).

(** The columns that [UPDATE countries SET ...] assigns: all but
    [name] and [name_lower]. *)
Definition assign (new old : entry) : entry :=
  {| name := name old;
     name_lower := name_lower old;
     capital := capital new;
     region := region new;
     population := population new;
     currency_code := currency_code new;
     exchange_rate := exchange_rate new;
     estimated_gdp := estimated_gdp new;
     flag_url := flag_url new;
     last_refreshed_at := last_refreshed_at new |}.

(** [UPDATE countries SET ... WHERE id = ?] *)
Definition update_row (new : entry) (i : nat) : M unit :=
  db_call ;;
  with_disk (fun s =>
    set_table
      (map (fun r => if Nat.eqb (id r) i
                     then {| id := id r; cols := assign new (cols r) |}
                     else r)
           (table s))
      s).

(** [INSERT INTO countries (...) VALUES (...)] *)
Definition insert_row (new : entry) : M unit :=
  db_call ;;
  with_disk (fun s =>
    {| table := table s ++ [ {| id := next_id s; cols := new |} ];
       next_id := S (next_id s);
       image := image s |}).

(** [SELECT COUNT( * ) FROM countries] *)
Definition count_rows : M nat :=
  db_call ;;
  t <- read_table ;;
  ret (List.length t).

(** [function ensureCacheDir()] *)
Definition ensureCacheDir : M unit :=
  match mkdir_fault e with
  | Some msg => throw (FsError msg)
  | None => ret tt
  end.

(** Jimp's part of [generateSummaryImage]: creating the image,
    loading the fonts, printing, and whether [writeAsync] will go
    through.  It throws when the environment says so, and the file
    is then left as it was. *)
Definition jimp_draw : M unit :=
  match jimp_fault e with
  | Some msg => throw (FsError msg)
  | None => ret tt
  end.

(** [await image.writeAsync(IMAGE_PATH)], going through. *)
Definition write_image (img : summary_image) : M unit :=
  with_disk (fun s =>
    {| table := table s; next_id := next_id s; image := Some img |}).

End Driver.

(** ** Ordering rows by [estimated_gdp] *)

(** [a] goes before [b] under [ORDER BY estimated_gdp DESC]: NULL
    sorts last. *)
Definition gdp_before (a b : row) : bool :=
  match estimated_gdp (cols a), estimated_gdp (cols b) with
  | _, None => true
  | None, Some _ => false
  | Some x, Some y => Num.leb y x
  end.

Fixpoint insert_sorted (r : row) (l : list row) : list row :=
  match l with
  | [] => [r]
  | x :: rest =>
      if gdp_before x r then x :: insert_sorted r rest else r :: l
  end.

(** A stable sort, descending by [estimated_gdp]. *)
Definition order_by_gdp_desc (l : list row) : list row :=
  fold_right insert_sorted [] l.

Definition has_gdp (r : row) : bool :=
  match estimated_gdp (cols r) with Some _ => true | None => false end.

(** ** index.js *)

Section Index.

Variable B : builtins.
Variable e : env.

(** [Number(v)] *)
Definition ToNumber (v : value) : number :=
  match v with
  | VUndefined => NaN
  | VNull => Num.ofZ 0
  | VBool b => if b then Num.ofZ 1 else Num.ofZ 0
  | VNum n => n
  | VStr s => StringToNumber B s
  | VArr _ | VObj _ | VFun _ => StringToNumber B (ToString B v)
  end.

(** The key under which [o[v]] looks [v] up. *)
Definition property_key (v : value) : string :=
  match v with
  | VStr s => s
  | _ => ToString B v
  end.

(** [function validateCountryRecord(record)]: the three error
    fields, or [None] for [null]. *)
Definition validateCountryRecord (record : entry)
  : option (option string * option string * option string) :=
  let e_name :=
    if negb (truthy (name record)) then Some "is required" else None in
  let e_population :=
    match population record with
    | Some n => if Num.isNaN n
                then Some "is required and must be a number" else None
    | None => Some "is required and must be a number"
    end in
  let e_currency :=
    if negb (truthy (currency_code record)) then Some "is required" else None in
  match e_name, e_population, e_currency with
  | None, None, None => None
  | _, _, _ => Some (e_name, e_population, e_currency)
  end.

(** [async function fetchExternalData()] *)
Definition fetchExternalData : M (value * value) :=
  match fetch e with
  | Fetched countries rates => ret (countries, rates)
  | FetchFailed url msg => throw (AxiosError url msg)
  end.

(** [function computeEstimatedGdp(population, exchange_rate)] *)
Definition computeEstimatedGdp (population exchange_rate : option number)
  : M (option number) :=
  match population with
  | None => ret None
  | Some p =>
      if Num.isNaN p then ret None
      else
        match exchange_rate with
        | None => ret None
        | Some x =>
            r <- random e ;;
            let multiplier := randInt (Num.ofZ 1000) (Num.ofZ 2000) r in
            ret (Some (Num.div (Num.mul p multiplier) x))
        end
  end.

(** Lines 207-211 of the loop body: the currency code of a country. *)
Definition currency_code_of (c : value) : outcome value :=
  match prop B c "currencies" with
  | Throw x => Throw x
  | Ok (VArr (first :: _)) =>
      if truthy first then
        match prop B first "code", prop B first "currency", prop B first "name" with
        | Ok code, Ok currency, Ok nm => Ok ((code ||' currency ||' nm) ||' VNull)
        | Throw x, _, _ | _, Throw x, _ | _, _, Throw x => Throw x
        end
      else Ok VNull
  | Ok _ => Ok VNull
  end.

(** [c.population != null ? Number(c.population) : null] *)
Definition population_of (c : value) : outcome (option number) :=
  match prop B c "population" with
  | Throw x => Throw x
  | Ok p => Ok (if nullish p then None else Some (ToNumber p))
  end.

(** [(c.name || '').toLowerCase()]: only a string has the method. *)
Definition lower_name (nm : value) : outcome string :=
  match nm ||' VStr "" with
  | VStr s => Ok (toLowerCase B s)
  | _ => Throw (TypeError "toLowerCase is not a function")
  end.

(** Lines 214-227 of the loop body: [currency_code], [exchange_rate]
    and [estimated_gdp] of a country, from its currency code and
    population. *)
Definition derive (rateMap code : value) (population : option number)
  : M (value * option number * option number) :=
  rate <- (if truthy code then lift (prop B rateMap (property_key code))
           else ret VUndefined) ;;
  if truthy code && negb (nullish rate) then
    let exchange_rate := Some (ToNumber rate) in
    estimated_gdp <- computeEstimatedGdp population exchange_rate ;;
    ret (code, exchange_rate, estimated_gdp)
  else if truthy code then ret (code, None, None)
  else ret (VNull, None, Some (Num.ofZ 0)).

(** Lines 207-240 of the loop body: the [entry] of country [c]. *)
Definition entry_of (rateMap : value) (now : Z) (c : value) : M entry :=
  code <- lift (currency_code_of c) ;;
  population <- lift (population_of c) ;;
  derived <- derive rateMap code population ;;
  nm <- lift (prop B c "name") ;;
  lower <- lift (lower_name nm) ;;
  cap <- lift (prop B c "capital") ;;
  reg <- lift (prop B c "region") ;;
  flag <- lift (prop B c "flag") ;;
  ret {| name := nm ||' VNull;
         name_lower := lower;
         capital := cap ||' VNull;
         region := reg ||' VNull;
         population := population;
         currency_code := fst (fst derived);
         exchange_rate := snd (fst derived);
         estimated_gdp := snd derived;
         flag_url := flag ||' VNull;
         last_refreshed_at := now |}.

(** Lines 247-259: update the row of that [name_lower], or insert. *)
Definition upsert (en : entry) : M unit :=
  existing <- select_id e (name_lower en) ;;
  match existing with
  | Some i => update_row e en i
  | None => insert_row e en
  end.

(** The body of [for (const c of countries)]. *)
Definition refresh_country (rateMap : value) (now : Z) (c : value) : M unit :=
  en <- entry_of rateMap now c ;;
  let validation := validateCountryRecord en in
  upsert en.

(** The rows of
    [SELECT name, estimated_gdp FROM countries WHERE estimated_gdp
     IS NOT NULL ORDER BY estimated_gdp DESC LIMIT 5]. *)
Definition top_rows : M (list (value * option number)) :=
  db_call e ;;
  t <- read_table ;;
  ret (map (fun r => (name (cols r), estimated_gdp (cols r)))
         (firstn 5 (order_by_gdp_desc (filter has_gdp t)))).

(** [export async function generateSummaryImage(total, topRows,
    timestamp)] *)
Definition generateSummaryImage (total : nat)
    (topRows : list (value * option number)) (timestamp : Z) : M unit :=
  try_catch
    (jimp_draw e ;;
     ensureCacheDir e ;;
     write_image {| img_total := total; img_top := topRows;
                    img_timestamp := timestamp |})
    (fun _ => ret tt).

Definition unavailable (details : string) : response :=
  {| status := 503;
     payload := JsonError "External data source unavailable" (Some details) |}.

(** The [try] block of [app.post('/countries/refresh', ...)]. *)
Definition refresh_try : M response :=
  fetched <- fetchExternalData ;;
  let countries := fst fetched in
  let rates := snd fetched in
  if negb (truthy rates) then
    ret (unavailable "Could not fetch data from exchange rates API")
  else
    rateMap <- lift (prop B rates "rates") ;;
    if negb (truthy rateMap) then
      ret (unavailable "Could not fetch data from exchange rates API")
    else
      getConnection e ;;
      beginTransaction e ;;
      let now := clock e in
      cs <- lift (iterate countries) ;;
      forEach (refresh_country rateMap now) cs ;;
      commit e ;;
      ensureCacheDir e ;;
      total_countries <- count_rows e ;;
      topRows <- top_rows ;;
      generateSummaryImage total_countries topRows now ;;
      ret {| status := 200;
             payload := JsonRefresh "Refresh completed" total_countries
                          (toISOString B now) |}.

(** [try { if (conn) await conn.rollback(); } catch (e) {}]: the
    writes of the open transaction are undone. *)
Definition rollback (m : machine) : machine :=
  match conn m, txn m with
  | true, Some before =>
      {| disk := set_table before (disk m); conn := conn m;
         txn := None; db_calls := S (db_calls m);
         random_calls := random_calls m |}
  | _, _ => m
  end.

(** The [catch (err)] block of the refresh handler. *)
Definition refresh_catch (err : exn) (m : machine) : response * machine :=
  let m' := rollback m in
  let msg :=
    match err with
    | AxiosError (Some url) _ =>
        if negb (url =? "")%string
        then "Could not fetch data from " ++ url
        else "External data source unavailable"
    | _ => "External data source unavailable"
    end in
  (unavailable msg, m').

(** [app.post('/countries/refresh', ...)] *)
Definition post_countries_refresh : store -> response * store :=
  handler refresh_try refresh_catch.

(** [catch (err) { return res.status(500).json({ error: 'Internal
    server error' }) }] *)
Definition internal_error (err : exn) (m : machine) : response * machine :=
  ({| status := 500; payload := JsonError "Internal server error" None |}, m).

Definition not_found : response :=
  {| status := 404; payload := JsonError "Country not found" None |}.

(** A filter of [GET /countries]: absent or empty, it admits every
    row; else it admits the rows whose column is that string. *)
Definition matches (column : value) (wanted : option string) : bool :=
  match wanted with
  | Some w =>
      if (w =? "")%string then true
      else match column with
           | VStr s => (s =? w)%string
           | _ => false
           end
  | None => true
  end.

(** [app.get('/countries', ...)], with [req.query.region],
    [req.query.currency] and [req.query.sort]. *)
Definition get_countries (q_region q_currency q_sort : option string)
    (s : store) : response * store :=
  handler
    (db_call e ;;
     t <- read_table ;;
     let selected :=
       filter (fun r => matches (region (cols r)) q_region
                        && matches (currency_code (cols r)) q_currency) t in
     let rows :=
       match q_sort with
       | Some srt => if (srt =? "gdp_desc")%string
                     then order_by_gdp_desc selected else selected
       | None => selected
       end in
     ret {| status := 200; payload := JsonRows rows |})
    internal_error s.

(** [app.get('/countries/:name', ...)], with [req.params.name]. *)
Definition get_country (param : string) (s : store) : response * store :=
  handler
    (let key := toLowerCase B param in
     db_call e ;;
     t <- read_table ;;
     match find (fun r => (name_lower (cols r) =? key)%string) t with
     | None => ret not_found
     | Some r => ret {| status := 200; payload := JsonRow r |}
     end)
    internal_error s.

(** [app.delete('/countries/:name', ...)], with [req.params.name];
    the rows matched by [DELETE FROM countries WHERE name_lower = ?]
    are dropped, and [affectedRows] is their number. *)
Definition delete_country (param : string) (s : store) : response * store :=
  handler
    (let key := toLowerCase B param in
     db_call e ;;
     t <- read_table ;;
     let kept := filter (fun r => negb (name_lower (cols r) =? key)%string) t in
     with_disk (set_table kept) ;;
     if Nat.ltb 0 (List.length t - List.length kept)
     then ret {| status := 204; payload := NoBody |}
     else ret not_found)
    internal_error s.

(** [app.get('/status', ...)]: the count, and the latest
    [last_refreshed_at] if there is a row. *)
Definition get_status (s : store) : response * store :=
  handler
    (tot <- count_rows e ;;
     db_call e ;;
     t <- read_table ;;
     let last :=
       match map (fun r => last_refreshed_at (cols r)) t with
       | [] => None
       | x :: rest => Some (fold_left Z.max rest x)
       end in
     ret {| status := 200;
            payload := JsonStatus tot (option_map (toISOString B) last) |})
    internal_error s.

(** [app.get('/countries/image', ...)], the handler of lines 365-377.
    The router does not reach it: see [serve]. *)
Definition get_countries_image (s : store) : response * store :=
  handler
    (fun m =>
       match image (disk m) with
       | None =>
           ret {| status := 404;
                  payload := JsonError "Summary image not found" None |} m
       | Some img =>
           match sendfile_fault e with
           | Some msg => throw (FsError msg) m
           | None => ret {| status := 200; payload := PngFile img |} m
           end
       end)
    internal_error s.

End Index.

(** ** The sibling server file

    The repository holds a second copy of the server with the same
    routes.  Its refresh pipeline differs from the one of [index.js]:
    a failed fetch falls back to two built-in countries, missing
    inputs are tested by truthiness, the write is a single
    [INSERT ... ON DUPLICATE KEY UPDATE], and the [catch] block
    answers with [err.message]. *)

Module Sibling.
Section Server.

Variable B : builtins.
Variable e : env.

Definition fallback_countries : value :=
  VArr [ VObj [ ("name", VStr "Nigeria"); ("capital", VStr "Abuja");
                ("region", VStr "Africa");
                ("population", VNum (Num.ofZ 206139589));
                ("currencies", VArr [ VObj [ ("code", VStr "NGN") ] ]);
                ("flag", VStr "https://flagcdn.com/ng.svg") ];
         VObj [ ("name", VStr "United States");
                ("capital", VStr "Washington D.C.");
                ("region", VStr "Americas");
                ("population", VNum (Num.ofZ 331000000));
                ("currencies", VArr [ VObj [ ("code", VStr "USD") ] ]);
                ("flag", VStr "https://flagcdn.com/us.svg") ] ].

Definition fallback_rates : value :=
  VObj [ ("rates", VObj [ ("NGN", VNum (Num.ofZ 1500));
                          ("USD", VNum (Num.ofZ 1)) ]) ].

(** [async function fetchExternalData()], with its fallback. *)
Definition fetchExternalData : M (value * value) :=
  match fetch e with
  | Fetched countries rates => ret (countries, rates)
  | FetchFailed _ _ => ret (fallback_countries, fallback_rates)
  end.

(** [n || null] of a number *)
Definition or_null (n : number) : option number :=
  if truthy (VNum n) then Some n else None.

(** [function computeEstimatedGdp(population, exchange_rate)] *)
Definition computeEstimatedGdp (population exchange_rate : option number)
  : M (option number) :=
  match population, exchange_rate with
  | Some p, Some x =>
      if negb (truthy (VNum p)) || negb (truthy (VNum x)) then ret None
      else
        r <- random e ;;
        let multiplier := randInt (Num.ofZ 1000) (Num.ofZ 2000) r in
        ret (Some (Num.div (Num.mul p multiplier) x))
  | _, _ => ret None
  end.

(** The parameters of the [INSERT] for country [c]. *)
Definition entry_of (rateMap : value) (now : Z) (c : value) : M entry :=
  currencies <- lift (prop B c "currencies") ;;
  code <- match currencies with
          | VArr (first :: _) =>
              code <- lift (prop B first "code") ;; ret (code ||' VNull)
          | _ => ret VNull
          end ;;
  p <- lift (prop B c "population") ;;
  let population := or_null (ToNumber B p) in
  exchange_rate <-
    (if truthy code then
       rate <- lift (prop B rateMap (property_key B code)) ;;
       ret (or_null (ToNumber B rate))
     else ret None) ;;
  estimated_gdp <- computeEstimatedGdp population exchange_rate ;;
  nm <- lift (prop B c "name") ;;
  lower <- match nm with
           | VStr s => ret (toLowerCase B s)
           | _ => throw (TypeError "Cannot read properties of undefined, reading toLowerCase")
           end ;;
  cap <- lift (prop B c "capital") ;;
  reg <- lift (prop B c "region") ;;
  flag <- lift (prop B c "flag") ;;
  ret {| name := nm;
         name_lower := lower;
         capital := cap ||' VNull;
         region := reg ||' VNull;
         population := population;
         currency_code := code;
         exchange_rate := exchange_rate;
         estimated_gdp := estimated_gdp;
         flag_url := flag ||' VNull;
         last_refreshed_at := now |}.

(** Modelled from the spec: the definition of table [countries] is
    not in the repository; the spec makes [name_lower] its
    uniqueness key, so under
    [INSERT INTO countries ... ON DUPLICATE KEY UPDATE ...]
    a row of the same [name_lower] is the duplicate that gets
    updated. *)
Definition upsert (en : entry) : M unit :=
  db_call e ;;
  t <- read_table ;;
  if existsb (fun r => (name_lower (cols r) =? name_lower en)%string) t
  then
    with_disk (fun s =>
      set_table
        (map (fun r => if (name_lower (cols r) =? name_lower en)%string
                       then {| id := id r; cols := assign en (cols r) |}
                       else r)
             (table s))
        s)
  else
    with_disk (fun s =>
      {| table := table s ++ [ {| id := next_id s; cols := en |} ];
         next_id := S (next_id s);
         image := image s |}).

Definition unavailable (details : string) : response :=
  {| status := 503;
     payload := JsonError "External data source unavailable" (Some details) |}.

(** The [try] block of [app.post("/countries/refresh", ...)]. *)
Definition refresh_try : M response :=
  fetched <- fetchExternalData ;;
  let countries := fst fetched in
  let rates := snd fetched in
  if negb (truthy rates) then ret (unavailable "Exchange rate data missing")
  else
    rateMap <- lift (prop B rates "rates") ;;
    if negb (truthy rateMap) then ret (unavailable "Exchange rate data missing")
    else
      getConnection e ;;
      beginTransaction e ;;
      let now := clock e in
      cs <- lift (iterate countries) ;;
      forEach (fun c => en <- entry_of rateMap now c ;; upsert en) cs ;;
      commit e ;;
      total <- count_rows e ;;
      topRows <- top_rows e ;;
      generateSummaryImage e total topRows now ;;
      ret {| status := 200;
             payload := JsonRefresh "Refresh completed" total
                          (toISOString B now) |}.

Definition message_of (err : exn) : string :=
  match err with
  | AxiosError _ msg | TypeError msg | DbError msg | FsError msg => msg
  end.

(** The [catch (err)] block: roll back, answer 503 with
    [err.message]. *)
Definition refresh_catch (err : exn) (m : machine) : response * machine :=
  (unavailable (message_of err), rollback m).

(** [app.post("/countries/refresh", ...)] *)
Definition post_countries_refresh : store -> response * store :=
  handler refresh_try refresh_catch.

End Server.
End Sibling.

(** ** Requests as a transition system *)

Inductive request : Type :=
| PostRefresh
| GetCountries (q_region q_currency q_sort : option string)
| GetCountry (param : string)
| DeleteCountry (param : string)
| GetStatus
| GetImage (* GET /countries/image *).

(** The handler of [index.js] that serves a request.  Express tries
    the routes in the order in which they were registered, and
    [/countries/:name] (line 318) comes before [/countries/image]
    (line 365): it matches [GET /countries/image] with [image] for
    the name and answers without passing the request on, so the
    handler of lines 365-377 never runs. *)
Definition serve (B : builtins) (e : env) (rq : request) (s : store)
  : response * store :=
  match rq with
  | PostRefresh => post_countries_refresh B e s
  | GetCountries r c o => get_countries e r c o s
  | GetCountry p => get_country B e p s
  | DeleteCountry p => delete_country B e p s
  | GetStatus => get_status B e s
  | GetImage => get_country B e "image" s
  end.

(** The stores the server can be in: it starts on an empty table and
    serves requests, whatever the environment does. *)
Inductive reachable (B : builtins) : store -> Prop :=
| reach_empty (n : nat) :
    reachable B {| table := []; next_id := n; image := None |}
| reach_serve (e : env) (rq : request) (s : store) :
    reachable B s -> reachable B (snd (serve B e rq s)).

(** ** Predicates of the statements *)

(** [SELECT * FROM countries WHERE name_lower = ? LIMIT 1] *)
Definition lookup (key : string) (t : list row) : option row :=
  find (fun r => (name_lower (cols r) =? key)%string) t.

(** The key under which the refresh stores country [c]:
    [(c.name || '').toLowerCase()]. *)
Definition key_of (B : builtins) (c : value) : outcome string :=
  match prop B c "name" with
  | Ok nm => lower_name B nm
  | Throw x => Throw x
  end.

(** The row that the table holds for country [c]. *)
Definition stored_for (B : builtins) (c : value) (t : list row) : option row :=
  match key_of B c with
  | Ok key => lookup key t
  | Throw _ => None
  end.

(** No country of [later] is stored under the key of [c]. *)
Definition not_overwritten (B : builtins) (c : value) (later : list value) : Prop :=
  Forall (fun c' => key_of B c' <> key_of B c) later.

(** The country has no currency entry: [c.currencies] is absent, not
    an array, or an empty array. *)
Definition no_currency_entries (B : builtins) (c : value) : bool :=
  match prop B c "currencies" with
  | Ok (VArr (_ :: _)) => false
  | Ok _ => true
  | Throw _ => false
  end.


(** [name_lower] is the lowercase of [name]; a row without a name
    ([NULL]) carries the lowercase of the empty string. *)
Definition in_sync (B : builtins) (en : entry) : Prop :=
  match name en with
  | VStr n => name_lower en = toLowerCase B n
  | VNull => name_lower en = toLowerCase B ""
  | _ => False
  end.

(** [name_lower] is a key: no two rows share it. *)
Definition keys_ok (s : store) : Prop :=
  NoDup (map (fun r => name_lower (cols r)) (table s)).

(** Primary key: the ids of the table are distinct and below the
    auto-increment counter. *)
Definition ids_ok (s : store) : Prop :=
  NoDup (map id (table s)) /\
  Forall (fun r => (id r < next_id s)%nat) (table s).

(** [c] keeps [I] true of the request state, whether it returns or
    throws. *)
Definition preserves {A} (I : machine -> Prop) (c : M A) : Prop :=
  forall m r m', I m -> c m = (r, m') -> I m'.

(** [c] touches neither the store nor the open transaction. *)
Definition read_only {A} (c : M A) : Prop :=
  forall m r m', c m = (r, m') ->
    disk m' = disk m /\ txn m' = txn m /\ conn m' = conn m.

(** [I] holds of the store and of the store the open transaction
    rolls back to. *)
Definition guarded (I : store -> Prop) (m : machine) : Prop :=
  I (disk m) /\ forall t, txn m = Some t -> I (set_table t (disk m)).

(** The row that an upsert of [en] leaves behind: found under the key
    of [en], carrying the columns that the upsert assigns. *)
Definition written (en : entry) (t : list row) : Prop :=
  exists r, lookup (name_lower en) t = Some r /\ assign en (cols r) = cols r.

(** Whenever the loop body has run on country [c], the row that
    the table holds for [c] satisfies [Q]. *)
Definition body_stores (B : builtins) (e : env) (rateMap c : value)
    (Q : entry -> Prop) : Prop :=
  forall m m',
    refresh_country B e rateMap (clock e) c m = (Ok tt, m') ->
    exists r, stored_for B c (table (disk m')) = Some r /\ Q (cols r).

(** Whenever [POST /countries/refresh] has answered 200 on countries
    [pre ++ c :: suf] and rates [{rates: rateMap}], the row that the
    committed table holds for [c] satisfies [Q], provided no later
    country of the input is stored under the same key. *)
Definition refresh_stores (B : builtins) (e : env) (rateMap c : value)
    (Q : entry -> Prop) : Prop :=
  forall s resp s' countries rates pre suf,
    post_countries_refresh B e s = (resp, s') ->
    status resp = 200%nat ->
    fetch e = Fetched countries rates ->
    prop B rates "rates" = Ok rateMap ->
    iterate countries = Ok (pre ++ c :: suf)%list ->
    ids_ok s ->
    not_overwritten B c suf ->
    exists r, stored_for B c (table s') = Some r /\ Q (cols r).

(** What a refresh never changes of a row: its id, its name and its
    key. *)
Definition identity (r : row) : nat * value * string :=
  (id r, name (cols r), name_lower (cols r)).

(** The rows that the filters of [GET /countries] admit. *)
Definition selected (q_region q_currency : option string) (r : row) : bool :=
  matches (region (cols r)) q_region
  && matches (currency_code (cols r)) q_currency.

(** [a] may stand before [b] under [ORDER BY estimated_gdp DESC]. *)
Definition gdp_desc (a b : row) : Prop := gdp_before a b = true.

(** The status codes that the handler of a request sends. *)
Definition status_codes (rq : request) : list nat :=
  match rq with
  | PostRefresh => [200; 503]
  | GetCountries _ _ _ => [200; 500]
  | GetCountry _ => [200; 404; 500]
  | DeleteCountry _ => [204; 404; 500]
  | GetStatus => [200; 500]
  | GetImage => [200; 404; 500]
  end%nat.

(** The request state inside the transaction opened on table [t],
    with the image file still [i]. *)
Definition in_transaction (t : list row) (i : option summary_image)
    (m : machine) : Prop :=
  txn m = Some t /\ conn m = true /\ image (disk m) = i.

(** Two runs agree on all but the image file. *)
Definition agree {A} (x y : outcome A * machine) : Prop :=
  fst x = fst y /\
  table (disk (snd x)) = table (disk (snd y)) /\
  next_id (disk (snd x)) = next_id (disk (snd y)) /\
  txn (snd x) = txn (snd y) /\
  conn (snd x) = conn (snd y) /\
  db_calls (snd x) = db_calls (snd y) /\
  random_calls (snd x) = random_calls (snd y).

(** The environment [e], but with Jimp failing. *)
Definition failing_jimp (msg : string) (e : env) : env :=
  {| fetch := fetch e;
     clock := clock e;
     entropy := entropy e;
     db_fault := db_fault e;
     mkdir_fault := mkdir_fault e;
     jimp_fault := Some msg;
     sendfile_fault := sendfile_fault e |}.

(** The environment [e], but with the cache directory missing and
    [fs.mkdirSync] failing. *)
Definition failing_mkdir (msg : string) (e : env) : env :=
  {| fetch := fetch e;
     clock := clock e;
     entropy := entropy e;
     db_fault := db_fault e;
     mkdir_fault := Some msg;
     jimp_fault := jimp_fault e;
     sendfile_fault := sendfile_fault e |}.

(** ** Sample data *)

Module Sample.

Definition lower_ascii (c : ascii) : ascii :=
  let n := nat_of_ascii c in
  if ((65 <=? n) && (n <=? 90))%nat then ascii_of_nat (n + 32) else c.

Fixpoint lowercase (s : string) : string :=
  match s with
  | EmptyString => EmptyString
  | String c rest => String (lower_ascii c) (lowercase rest)
  end.

Definition digit (c : ascii) : option Z :=
  let n := nat_of_ascii c in
  if ((48 <=? n) && (n <=? 57))%nat then Some (Z.of_nat (n - 48)) else None.

Fixpoint digits (acc : Z) (s : string) : option Z :=
  match s with
  | EmptyString => Some acc
  | String c rest =>
      match digit c with
      | Some d => digits (10 * acc + d) rest
      | None => None
      end
  end.

(** The names of the members of [Object.prototype]. *)
Definition Object_prototype : list string :=
  [ "constructor"; "__defineGetter__"; "__defineSetter__"; "hasOwnProperty";
    "__lookupGetter__"; "__lookupSetter__"; "isPrototypeOf";
    "propertyIsEnumerable"; "toString"; "valueOf"; "__proto__";
    "toLocaleString" ].

(** What an object inherits from [Object.prototype]: its functions,
    and under [__proto__] the prototype itself. *)
Definition from_Object_prototype (k : string) : option value :=
  if existsb (String.eqb k) Object_prototype then
    Some (if (k =? "__proto__")%string then VObj []
          else if (k =? "constructor")%string then VFun "Object"
          else VFun k)
  else None.

(** The runtime's functions on the data of the examples: ASCII
    letters, words that are no numerals, decimal numerals, the two
    dates [now] and [later], and objects (of the other prototypes
    the examples need nothing). *)
Definition B : builtins :=
  {| toLowerCase := lowercase;
     StringToNumber := fun s =>
       match digits 0 s with Some z => Num.ofZ z | None => NaN end;
     ToString := fun _ => "[object Object]";
     toISOString := fun t =>
       if t =? 1700000000000 then "2023-11-14T22:13:20.000Z"
       else if t =? 1700003600000 then "2023-11-14T23:13:20.000Z"
       else "";
     inherited := fun v k =>
       match v with
       | VObj _ => from_Object_prototype k
       | _ => None
       end |}.

Definition nigeria : value :=
  VObj [ ("name", VStr "Nigeria"); ("capital", VStr "Abuja");
         ("region", VStr "Africa");
         ("population", VNum (Num.ofZ 206139589));
         ("currencies", VArr [ VObj [ ("code", VStr "NGN") ] ]);
         ("flag", VStr "https://flagcdn.com/ng.svg") ].

(** A territory with neither population nor currencies. *)
Definition bouvet : value :=
  VObj [ ("name", VStr "Bouvet Island"); ("region", VStr "Antarctic");
         ("currencies", VArr []) ].

(** A country whose currency the rate source does not list. *)
Definition cuba : value :=
  VObj [ ("name", VStr "Cuba"); ("population", VNum (Num.ofZ 11326616));
         ("currencies", VArr [ VObj [ ("code", VStr "CUC") ] ]) ].

(** A country whose population is not a number. *)
Definition atlantis : value :=
  VObj [ ("name", VStr "Atlantis"); ("population", VStr "unknown");
         ("currencies", VArr [ VObj [ ("code", VStr "NGN") ] ]) ].

Definition rateMap : value :=
  VObj [ ("NGN", VNum (Num.ofZ 1500)); ("USD", VNum (Num.ofZ 1)) ].

Definition rates : value := VObj [ ("rates", rateMap) ].


Definition now : Z := 1700000000000.

(** Both sources answer; database and file system work. *)
Definition quiet (countries rates : value) : env :=
  {| fetch := Fetched countries rates;
     clock := now;
     entropy := fun _ => 0%N;
     db_fault := fun _ => None;
     mkdir_fault := None;
     jimp_fault := None;
     sendfile_fault := None |}.

(** Both sources answer, the database is down. *)
Definition db_down (countries rates : value) : env :=
  {| fetch := Fetched countries rates;
     clock := now;
     entropy := fun _ => 0%N;
     db_fault := fun _ => Some "connect ECONNREFUSED 127.0.0.1:3306";
     mkdir_fault := None;
     jimp_fault := None;
     sendfile_fault := None |}.

(** Everything works but Jimp. *)
Definition no_jimp (countries rates : value) : env :=
  {| fetch := Fetched countries rates;
     clock := now;
     entropy := fun _ => 0%N;
     db_fault := fun _ => None;
     mkdir_fault := None;
     jimp_fault := Some "ENOSPC: no space left on device";
     sendfile_fault := None |}.

(** The rate source answers with an error status. *)
Definition rate_source_down : env :=
  {| fetch := FetchFailed (Some "https://open.er-api.com/v6/latest/USD")
                "Request failed with status code 500";
     clock := now;
     entropy := fun _ => 0%N;
     db_fault := fun _ => None;
     mkdir_fault := None;
     jimp_fault := None;
     sendfile_fault := None |}.

(** A record whose name is a number. *)
Definition numbered : value := VObj [ ("name", VNum (Num.ofZ 7)) ].

(** One name in two spellings: a refresh stores [ALAND] over what it
    has stored for any of the four records named [Aland]. *)
Definition aland : value :=
  VObj [ ("name", VStr "Aland"); ("population", VNum (Num.ofZ 30000));
         ("currencies", VArr [ VObj [ ("code", VStr "NGN") ] ]) ].

Definition aland_no_population : value :=
  VObj [ ("name", VStr "Aland");
         ("currencies", VArr [ VObj [ ("code", VStr "NGN") ] ]) ].

Definition aland_no_currency : value :=
  VObj [ ("name", VStr "Aland"); ("population", VNum (Num.ofZ 30000));
         ("currencies", VArr []) ].

Definition aland_unknown_currency : value :=
  VObj [ ("name", VStr "Aland"); ("population", VNum (Num.ofZ 30000));
         ("currencies", VArr [ VObj [ ("code", VStr "XYZ") ] ]) ].

Definition ALAND : value :=
  VObj [ ("name", VStr "ALAND"); ("population", VNum (Num.ofZ 3));
         ("currencies", VArr [ VObj [ ("code", VStr "USD") ] ]) ].

(** A country whose currency code is the name of a member of
    [Object.prototype]. *)
Definition utopia : value :=
  VObj [ ("name", VStr "Utopia"); ("population", VNum (Num.ofZ 5));
         ("currencies", VArr [ VObj [ ("code", VStr "constructor") ] ]) ].

Definition empty : store := {| table := []; next_id := 1; image := None |}.

Definition world : value := VArr [ nigeria; bouvet; cuba; atlantis ].

(** The store after one refresh of the empty store. *)
Definition refreshed : store :=
  snd (post_countries_refresh B (quiet world rates) empty).

(** An hour later the naira has fallen. *)
Definition later : Z := 1700003600000.

Definition rates_later : value :=
  VObj [ ("rates", VObj [ ("NGN", VNum (Num.ofZ 1600));
                          ("USD", VNum (Num.ofZ 1)) ]) ].

Definition quiet_later (countries rates : value) : env :=
  {| fetch := Fetched countries rates;
     clock := later;
     entropy := fun _ => 0%N;
     db_fault := fun _ => None;
     mkdir_fault := None;
     jimp_fault := None;
     sendfile_fault := None |}.

(** The store after a second refresh, of Nigeria alone. *)
Definition refreshed_twice : store :=
  snd (post_countries_refresh B (quiet_later (VArr [ nigeria ]) rates_later)
         refreshed).

(** Four countries in an order that is not the order of their
    estimates, and the store after their refresh. *)
Definition shuffled : value := VArr [ bouvet; cuba; nigeria; ALAND ].

Definition reshuffled : store :=
  snd (post_countries_refresh B (quiet shuffled rates) empty).

End Sample.

(** ** Facts on the number model *)

(** [Num.eqb] decides equality. *)
Lemma eqb_eq a b : Num.eqb a b = true -> a = b.
Proof.
  destruct a as [s|s| |s m e], b as [s'|s'| |s' m' e']; cbn; try discriminate;
    try reflexivity.
  - intros H. apply Bool.eqb_prop in H. congruence.
  - intros H. apply Bool.eqb_prop in H. congruence.
  - intros H. apply andb_prop in H. destruct H as [H He].
    apply andb_prop in H. destruct H as [Hs Hm].
    apply Bool.eqb_prop in Hs. apply Pos.eqb_eq in Hm. apply Z.eqb_eq in He.
    congruence.
Qed.

Lemma digits2_size p : digits2_pos p = Pos.size p.
Proof. induction p; cbn; congruence. Qed.

Lemma size_bounds p :
  2 ^ (Zpos (Pos.size p) - 1) <= Zpos p < 2 ^ Zpos (Pos.size p).
Proof.
  induction p as [p IH|p IH|]; cbn [Pos.size].
  - rewrite Pos2Z.inj_succ. change (Zpos p~1) with (2 * Zpos p + 1).
    replace (Z.succ (Zpos (Pos.size p)) - 1) with (Z.succ (Zpos (Pos.size p) - 1)) by lia.
    rewrite !Z.pow_succ_r by lia.
    revert IH. generalize (2 ^ (Zpos (Pos.size p) - 1)) (2 ^ Zpos (Pos.size p)).
    intros; lia.
  - rewrite Pos2Z.inj_succ. change (Zpos p~0) with (2 * Zpos p).
    replace (Z.succ (Zpos (Pos.size p)) - 1) with (Z.succ (Zpos (Pos.size p) - 1)) by lia.
    rewrite !Z.pow_succ_r by lia.
    revert IH. generalize (2 ^ (Zpos (Pos.size p) - 1)) (2 ^ Zpos (Pos.size p)).
    intros; lia.
  - cbn. lia.
Qed.

Lemma size_unique p s :
  2 ^ (s - 1) <= Zpos p < 2 ^ s -> Zpos (Pos.size p) = s.
Proof.
  intros [Hlo Hhi]. pose proof (size_bounds p) as [Blo Bhi].
  assert (0 < s).
  { destruct (Z.ltb_spec 0 s) as [|Hs]; [assumption|].
    exfalso. destruct (Z.eq_dec s 0) as [->|].
    - cbn in Hhi. lia.
    - rewrite (Z.pow_neg_r 2 s) in Hhi by lia. lia. }
  destruct (Z.lt_trichotomy (Zpos (Pos.size p)) s) as [Hlt | [Heq | Hgt]];
    [exfalso | exact Heq | exfalso].
  - assert (2 ^ Zpos (Pos.size p) <= 2 ^ (s - 1)) by (apply Z.pow_le_mono_r; lia).
    lia.
  - assert (2 ^ s <= 2 ^ (Zpos (Pos.size p) - 1)) by (apply Z.pow_le_mono_r; lia).
    lia.
Qed.

Lemma shr_1_spec mrs :
  0 <= shr_m mrs ->
  shr_m (shr_1 mrs) = shr_m mrs / 2 /\ shr_r (shr_1 mrs) = Z.odd (shr_m mrs).
Proof.
  destruct mrs as [m r s]. cbn [shr_m]. intros Hm.
  destruct m as [|[p|p|]|p]; cbn [shr_1 shr_m shr_r]; try lia.
  - split; reflexivity.
  - split; [| reflexivity].
    apply Z.div_unique with 1; lia.
  - split; [| reflexivity].
    apply Z.div_unique with 0; lia.
  - split; reflexivity.
Qed.

Lemma iter_shr_1_spec p : forall mrs,
  0 <= shr_m mrs ->
  shr_m (iter_pos shr_1 p mrs) = shr_m mrs / 2 ^ Zpos p /\
  shr_r (iter_pos shr_1 p mrs) = Z.testbit (shr_m mrs) (Zpos p - 1).
Proof.
  induction p as [p IH|p IH|]; intros mrs Hm; cbn [iter_pos].
  - destruct (shr_1_spec mrs Hm) as [H0 _].
    assert (Hm0 : 0 <= shr_m (shr_1 mrs)) by (rewrite H0; apply Z.div_pos; lia).
    destruct (IH _ Hm0) as [H1 _].
    assert (Hm1 : 0 <= shr_m (iter_pos shr_1 p (shr_1 mrs)))
      by (rewrite H1; apply Z.div_pos; lia).
    destruct (IH _ Hm1) as [H2 R2].
    rewrite H2, R2, H1, H0. split.
    + rewrite !Z.div_div by lia. f_equal.
      rewrite Pos2Z.inj_xI, Z.pow_add_r, Z.pow_mul_r by lia.
      replace (2 ^ 2) with 4 by reflexivity.
      change 4 with (2 * 2). rewrite Z.pow_mul_l.
      cbn [Z.pow Z.pow_pos Pos.iter]. lia.
    + rewrite Z.div_pow2_bits by lia.
      change 2 with (2 ^ 1) at 1. rewrite Z.div_pow2_bits by lia.
      f_equal. lia.
  - destruct (IH _ Hm) as [H1 _].
    assert (Hm1 : 0 <= shr_m (iter_pos shr_1 p mrs))
      by (rewrite H1; apply Z.div_pos; lia).
    destruct (IH _ Hm1) as [H2 R2].
    rewrite H2, R2, H1. split.
    + rewrite Z.div_div by lia. f_equal.
      rewrite <- Z.pow_add_r by lia. f_equal. lia.
    + rewrite Z.div_pow2_bits by lia. f_equal. lia.
  - destruct (shr_1_spec mrs Hm) as [H0 R0]. rewrite H0, R0. split.
    + reflexivity.
    + symmetry. apply Z.bit0_odd.
Qed.

(** Rounding to nearest after a shift by [p] bits goes up by half a
    unit of the last kept bit at most. *)
Lemma round_shift_upper M p :
  0 <= M ->
  let mrs := iter_pos shr_1 p (shr_record_of_loc M loc_Exact) in
  let r := round_nearest_even (shr_m mrs) (loc_of_shr_record mrs) in
  M / 2 ^ Zpos p <= r <= M / 2 ^ Zpos p + 1 /\
  r * 2 ^ Zpos p <= M + 2 ^ (Zpos p - 1).
Proof.
  intros HM mrs r.
  destruct (iter_shr_1_spec p (shr_record_of_loc M loc_Exact) HM) as [Hm Hr].
  fold mrs in Hm, Hr.
  change (shr_m (shr_record_of_loc M loc_Exact)) with M in Hm, Hr.
  assert (Hpow : 2 ^ Zpos p = 2 * 2 ^ (Zpos p - 1)).
  { rewrite <- Z.pow_succ_r by lia. f_equal. lia. }
  assert (Hpos : 0 < 2 ^ (Zpos p - 1)) by (apply Z.pow_pos_nonneg; lia).
  assert (Hdown : (M / 2 ^ Zpos p) * 2 ^ Zpos p <= M).
  { rewrite Z.mul_comm. apply Z.mul_div_le. lia. }
  assert (Hup : shr_r mrs = true ->
                (M / 2 ^ Zpos p + 1) * 2 ^ Zpos p <= M + 2 ^ (Zpos p - 1)).
  { intros Ht. rewrite Ht in Hr. symmetry in Hr.
    apply Z.testbit_true in Hr; [| lia].
    set (a := M / 2 ^ (Zpos p - 1)) in *.
    assert (Ha : a / 2 = M / 2 ^ Zpos p).
    { unfold a. rewrite Z.div_div by lia. rewrite (Z.mul_comm _ 2), <- Hpow.
      reflexivity. }
    assert (Ha2 : a = 2 * (a / 2) + 1).
    { pose proof (Z.div_mod a 2). lia. }
    assert (Hle : 2 ^ (Zpos p - 1) * a <= M) by (apply Z.mul_div_le; lia).
    rewrite <- Ha. rewrite Hpow. nia. }
  unfold r. destruct mrs as [m rr ss]. cbn [shr_m shr_r] in *. subst m.
  destruct rr, ss; cbn [loc_of_shr_record round_nearest_even].
  - split; [lia | apply Hup; reflexivity].
  - destruct (Z.even (M / 2 ^ Zpos p)).
    + split; [lia | lia].
    + split; [lia | apply Hup; reflexivity].
  - split; lia.
  - split; lia.
Qed.

Lemma fexp_normal x : -1074 <= x - 53 -> fexp Num.prec Num.emax x = x - 53.
Proof. unfold fexp, emin, Num.prec, Num.emax. lia. Qed.

(** A mantissa of 53 bits with an exponent in range is kept. *)
Lemma round_aux_canonical s m e :
  Zpos (Pos.size m) = 53 -> -1074 <= e <= 971 ->
  binary_round_aux Num.prec Num.emax s (Zpos m) e loc_Exact = S754_finite s m e.
Proof.
  intros Hs He. unfold binary_round_aux, shr_fexp.
  cbn [Zdigits2]. rewrite digits2_size, Hs, fexp_normal by (lia).
  replace (53 + e - 53 - e) with 0 by lia.
  cbn [shr shr_record_of_loc loc_of_shr_record round_nearest_even shr_m Zdigits2].
  rewrite digits2_size, Hs, fexp_normal by (lia).
  replace (53 + e - 53 - e) with 0 by lia.
  cbn [shr shr_record_of_loc shr_m].
  replace (e <=? Num.emax - Num.prec) with true; [reflexivity|].
  symmetry. apply Z.leb_le. unfold Num.emax, Num.prec. lia.
Qed.

(** Rounding a mantissa of more than 53 bits. *)
Lemma round_aux_upper s M E p :
  Zpos (Pos.size M) - 53 = Zpos p ->
  -1074 <= E + Zpos p -> E + Zpos p + 1 <= 971 ->
  exists m t,
    binary_round_aux Num.prec Num.emax s (Zpos M) E loc_Exact
      = S754_finite s m (E + t) /\
    Zpos p <= t <= Zpos p + 1 /\
    Zpos m * 2 ^ t <= Zpos M + 2 ^ (Zpos p - 1).
Proof.
  intros Hsize Hlo Hhi.
  pose proof (size_bounds M) as [Mlo Mhi].
  unfold binary_round_aux, shr_fexp at 1.
  cbn [Zdigits2]. rewrite digits2_size.
  rewrite fexp_normal by lia.
  replace (Zpos (Pos.size M) + E - 53 - E) with (Zpos p) by lia.
  cbn [shr].
  destruct (round_shift_upper (Zpos M) p ltac:(lia)) as [Hr Hub].
  cbv zeta in Hr, Hub.
  set (mrs := iter_pos shr_1 p (shr_record_of_loc (Zpos M) loc_Exact)) in *.
  set (r := round_nearest_even (shr_m mrs) (loc_of_shr_record mrs)) in *.
  assert (Hq : 2 ^ 52 <= Zpos M / 2 ^ Zpos p < 2 ^ 53).
  { replace (Zpos (Pos.size M)) with (53 + Zpos p) in Mlo, Mhi by lia.
    replace (53 + Zpos p - 1) with (52 + Zpos p) in Mlo by lia.
    rewrite Z.pow_add_r in Mlo, Mhi by lia.
    split.
    - apply Z.div_le_lower_bound; [apply Z.pow_pos_nonneg; lia | lia].
    - apply Z.div_lt_upper_bound; [apply Z.pow_pos_nonneg; lia | lia]. }
  assert (Hcase : r < 2 ^ 53 \/ r = 2 ^ 53) by lia.
  destruct Hcase as [Hr53 | Hr53].
  - destruct r as [|rp|rp] eqn:Er; try lia.
    assert (Hsz : Zpos (Pos.size rp) = 53) by (apply size_unique; lia).
    pose proof (round_aux_canonical s rp (E + Zpos p) Hsz ltac:(lia)) as Hc.
    unfold binary_round_aux, shr_fexp in Hc.
    cbn [shr_record_of_loc loc_of_shr_record round_nearest_even shr_m Zdigits2] in Hc.
    rewrite digits2_size, Hsz, fexp_normal in Hc by (lia).
    replace (53 + (E + Zpos p) - 53 - (E + Zpos p)) with 0 in Hc by lia.
    cbn [shr shr_m shr_record_of_loc loc_of_shr_record round_nearest_even Zdigits2] in Hc.
    unfold shr_fexp. exists rp, (Zpos p).
    split; [exact Hc|]. split; [lia | exact Hub].
  - rewrite Hr53. unfold shr_fexp.
    change (Zdigits2 (2 ^ 53)) with 54.
    rewrite fexp_normal by (lia).
    replace (54 + (E + Zpos p) - 53 - (E + Zpos p)) with 1 by lia.
    cbn [shr iter_pos shr_record_of_loc].
    change (shr_m (shr_1 {| shr_m := 2 ^ 53; shr_r := false; shr_s := false |}))
      with (2 ^ 52).
    change (2 ^ 52) with (Zpos (2 ^ 52)%positive).
    cbv iota beta.
    replace (E + Zpos p + 1 <=? Num.emax - Num.prec) with true
      by (symmetry; apply Z.leb_le; unfold Num.emax, Num.prec; lia).
    exists (2 ^ 52)%positive, (Zpos p + 1).
    split; [f_equal; lia|]. split; [lia|].
    rewrite Hr53 in Hub. rewrite Z.pow_add_r by lia.
    change (Zpos (2 ^ 52)%positive) with (2 ^ 52).
    change (2 ^ 53) with (2 ^ 52 * 2) in Hub. change (2 ^ 1) with 2. lia.
Qed.

Lemma size_iter_xO m q : Pos.size (Pos.iter xO m q) = (Pos.size m + q)%positive.
Proof.
  induction q as [|q IH] using Pos.peano_ind.
  - cbn. rewrite Pos.add_1_r. reflexivity.
  - rewrite Pos.iter_succ. cbn [Pos.size]. rewrite IH.
    rewrite Pos.add_succ_r. reflexivity.
Qed.

(** [Math.random()] is [+0] or a normal double below 1. *)
Lemma Math_random_shape raw :
  Math_random raw = S754_zero false \/
  exists m e,
    Math_random raw = S754_finite false m e /\
    Zpos (Pos.size m) = 53 /\ -105 <= e <= -53.
Proof.
  unfold Math_random.
  assert (Hk : 0 <= Z.of_N raw mod 2 ^ 53 < 2 ^ 53) by (apply Z.mod_pos_bound; lia).
  destruct (Z.of_N raw mod 2 ^ 53) as [|k|k]; [left; reflexivity | right | lia].
  pose proof (size_bounds k) as [Klo Khi].
  assert (Hd : 1 <= Zpos (Pos.size k) <= 53).
  { split; [lia|].
    destruct (Z.leb_spec (Zpos (Pos.size k)) 53) as [|Hgt]; [assumption|].
    exfalso.
    assert (2 ^ 53 <= 2 ^ (Zpos (Pos.size k) - 1)) by (apply Z.pow_le_mono_r; lia).
    lia. }
  cbn [binary_normalize]. unfold binary_round, shl_align.
  rewrite digits2_size, fexp_normal by (lia).
  replace (Zpos (Pos.size k) + -53 - 53 - -53) with (Zpos (Pos.size k) - 53) by lia.
  destruct (Zpos (Pos.size k) - 53) as [|q|q] eqn:Eq; [| lia |].
  - exists k, (-53). split; [| lia].
    apply round_aux_canonical; [lia | lia].
  - exists (Pos.iter xO k q), (Zpos (Pos.size k) + -53 - 53).
    assert (Hs : Zpos (Pos.size (Pos.iter xO k q)) = 53).
    { rewrite size_iter_xO, Pos2Z.inj_add. lia. }
    split; [| split; [exact Hs | lia]].
    apply round_aux_canonical; [exact Hs | lia].
Qed.

Lemma add_1000 z :
  0 <= z <= 1000 -> Num.add (Num.ofZ z) (Num.ofZ 1000) = Num.ofZ (z + 1000).
Proof.
  intros Hz.
  assert (H : forallb (fun n => Num.eqb (Num.add (Num.ofZ (Z.of_nat n)) (Num.ofZ 1000))
                                  (Num.ofZ (Z.of_nat n + 1000)))
                (seq 0 1001) = true) by (vm_compute; reflexivity).
  rewrite forallb_forall in H.
  specialize (H (Z.to_nat z)). rewrite Z2Nat.id in H by lia.
  apply eqb_eq, H, in_seq. lia.
Qed.

(** The multiplier drawn by [randInt(1000, 2000)] is an integer of
    that range, whatever [Math.random] returns. *)
Lemma randInt_1000_2000 (raw : N) :
  exists k : Z,
    1000 <= k <= 2000 /\
    randInt (Num.ofZ 1000) (Num.ofZ 2000) (Math_random raw) = Num.ofZ k.
Proof.
  unfold randInt.
  replace (Num.add (Num.sub (Num.ofZ 2000) (Num.ofZ 1000)) (Num.ofZ 1))
    with (S754_finite false 8804889115230208 (-43)) by (vm_compute; reflexivity).
  destruct (Math_random_shape raw) as [-> | (m & e & -> & Hs & He)].
  - exists 1000. split; [lia | vm_compute; reflexivity].
  - unfold Num.mul. cbn [SFmul xorb].
    set (M := (m * 8804889115230208)%positive).
    pose proof (size_bounds m) as [mlo mhi]. rewrite Hs in mlo, mhi.
    assert (HM : 2 ^ 104 <= Zpos M <= (2 ^ 53 - 1) * (1001 * 2 ^ 43)).
    { unfold M. rewrite Pos2Z.inj_mul.
      change (Zpos 8804889115230208) with (1001 * 2 ^ 43).
      change (53 - 1) with 52 in mlo. split; [| nia].
      transitivity (2 ^ 52 * (1001 * 2 ^ 43)); [vm_compute; discriminate | nia]. }
    pose proof (size_bounds M) as [Mlo Mhi].
    assert (Hsz : Zpos (Pos.size M) = 105 \/ Zpos (Pos.size M) = 106).
    { destruct (Z.leb_spec (Zpos (Pos.size M)) 104) as [Hle|Hgt].
      - exfalso.
        assert (2 ^ Zpos (Pos.size M) <= 2 ^ 104) by (apply Z.pow_le_mono_r; lia).
        lia.
      - destruct (Z.leb_spec 107 (Zpos (Pos.size M))) as [Hge|Hlt]; [exfalso | lia].
        assert (2 ^ 106 <= 2 ^ (Zpos (Pos.size M) - 1)) by (apply Z.pow_le_mono_r; lia).
        assert ((2 ^ 53 - 1) * (1001 * 2 ^ 43) < 2 ^ 106) by (vm_compute; reflexivity).
        lia. }
    assert (Hround : exists mm t,
               binary_round_aux Num.prec Num.emax false (Zpos M) (e + -43) loc_Exact
                 = S754_finite false mm (e + -43 + t) /\
               52 <= t <= 54 /\ Zpos mm * 2 ^ t < 1001 * 2 ^ 96).
    { destruct Hsz as [Hsz | Hsz].
      - destruct (round_aux_upper false M (e + -43) 52) as (mm & t & Hr & Ht & Hb);
          [lia | lia | lia |].
        exists mm, t. split; [exact Hr|]. split; [lia|].
        assert ((2 ^ 53 - 1) * (1001 * 2 ^ 43) + 2 ^ (52 - 1) < 1001 * 2 ^ 96)
          by (vm_compute; reflexivity).
        change (Zpos 52 - 1) with (52 - 1) in Hb. lia.
      - destruct (round_aux_upper false M (e + -43) 53) as (mm & t & Hr & Ht & Hb);
          [lia | lia | lia |].
        exists mm, t. split; [exact Hr|]. split; [lia|].
        assert ((2 ^ 53 - 1) * (1001 * 2 ^ 43) + 2 ^ (53 - 1) < 1001 * 2 ^ 96)
          by (vm_compute; reflexivity).
        change (Zpos 53 - 1) with (53 - 1) in Hb. lia. }
    destruct Hround as (mm & t & -> & Ht & Hb).
    unfold Num.floor.
    replace (0 <=? e + -43 + t) with false by (symmetry; apply Z.leb_gt; lia).
    cbn [cond_Zopp].
    set (a := - (e + -43 + t)).
    assert (Hpow : 2 ^ 96 <= 2 ^ a * 2 ^ t).
    { rewrite <- Z.pow_add_r by (unfold a; lia). apply Z.pow_le_mono_r; unfold a; lia. }
    assert (Ha : 0 < 2 ^ a) by (apply Z.pow_pos_nonneg; unfold a; lia).
    assert (Htp : 0 < 2 ^ t) by (apply Z.pow_pos_nonneg; lia).
    assert (Hz : 0 <= Zpos mm / 2 ^ a <= 1000).
    { split; [apply Z.div_pos; lia|].
      assert (Zpos mm / 2 ^ a < 1001); [| lia].
      apply Z.div_lt_upper_bound; [exact Ha|].
      apply (Z.mul_lt_mono_pos_r (2 ^ t)); [exact Htp|]. nia. }
    exists (Zpos mm / 2 ^ a + 1000). split; [lia|].
    apply add_1000. exact Hz.
Qed.

(** ** The handler monad: inversion and invariants *)

Lemma bind_ok {A C} (c : M A) (k : A -> M C) m b m' :
  bind c k m = (Ok b, m') ->
  exists a m1, c m = (Ok a, m1) /\ k a m1 = (Ok b, m').
Proof.
  unfold bind. destruct (c m) as [[a|x] m1]; intros H.
  - exists a, m1. split; [reflexivity | exact H].
  - discriminate H.
Qed.

Lemma bind_run {A C} (c : M A) (k : A -> M C) m a m1 :
  c m = (Ok a, m1) -> bind c k m = k a m1.
Proof. unfold bind. intros ->. reflexivity. Qed.

Lemma lift_ok {A} (o : outcome A) m a m' :
  lift o m = (Ok a, m') -> o = Ok a /\ m' = m.
Proof.
  destruct o; cbn; intros H; inversion H; subst; auto.
Qed.

Lemma ret_ok {A} (x a : A) m m' :
  ret x m = (Ok a, m') -> a = x /\ m' = m.
Proof. cbn. intros H; inversion H; auto. Qed.

Lemma forEach_app {A} (f : A -> M unit) (l1 l2 : list A) m m' :
  forEach f (l1 ++ l2) m = (Ok tt, m') ->
  exists m1, forEach f l1 m = (Ok tt, m1) /\ forEach f l2 m1 = (Ok tt, m').
Proof.
  revert m. induction l1 as [|x l1 IH]; intros m H.
  - exists m. split; [reflexivity | exact H].
  - cbn [app forEach] in H. apply bind_ok in H.
    destruct H as (u & m0 & Hx & H). destruct u.
    destruct (IH _ H) as (m1 & H1 & H2).
    exists m1. split; [| exact H2].
    cbn [forEach]. unfold bind at 1. rewrite Hx. exact H1.
Qed.

Section Preservation.

Context {I : machine -> Prop}.

Lemma preserves_ret {A} (a : A) : preserves I (ret a).
Proof. intros m r m' Hm H. inversion H; subst; exact Hm. Qed.

Lemma preserves_throw {A} (x : exn) : preserves I (@throw A x).
Proof. intros m r m' Hm H. inversion H; subst; exact Hm. Qed.

Lemma preserves_lift {A} (o : outcome A) : preserves I (lift o).
Proof. destruct o; [apply preserves_ret | apply preserves_throw]. Qed.

Lemma preserves_bind {A C} (c : M A) (k : A -> M C) :
  preserves I c -> (forall a, preserves I (k a)) -> preserves I (bind c k).
Proof.
  intros Hc Hk m r m' Hm H. unfold bind in H.
  destruct (c m) as [[a|x] m1] eqn:E.
  - eapply Hk; [eapply Hc; eassumption | exact H].
  - inversion H; subst. eapply Hc; eassumption.
Qed.

Lemma preserves_try_catch {A} (c : M A) (h : exn -> M A) :
  preserves I c -> (forall x, preserves I (h x)) ->
  preserves I (try_catch c h).
Proof.
  intros Hc Hh m r m' Hm H. unfold try_catch in H.
  destruct (c m) as [[a|x] m1] eqn:E.
  - inversion H; subst. eapply Hc; eassumption.
  - eapply Hh; [eapply Hc; eassumption | exact H].
Qed.

Lemma preserves_forEach {A} (f : A -> M unit) (l : list A) :
  (forall a, preserves I (f a)) -> preserves I (forEach f l).
Proof.
  intros Hf. induction l as [|x l IH]; cbn [forEach].
  - apply preserves_ret.
  - apply preserves_bind; [apply Hf | intros _; exact IH].
Qed.

Lemma preserves_read_only {A} (c : M A) :
  (forall m m', I m -> disk m' = disk m -> txn m' = txn m ->
                conn m' = conn m -> I m') ->
  read_only c -> preserves I c.
Proof.
  intros HI Hc m r m' Hm H.
  destruct (Hc _ _ _ H) as (Hd & Ht & Hn). eauto.
Qed.

End Preservation.

Lemma read_only_ret {A} (a : A) : read_only (ret a).
Proof. intros m r m' H. inversion H; subst; auto. Qed.

Lemma read_only_throw {A} (x : exn) : read_only (@throw A x).
Proof. intros m r m' H. inversion H; subst; auto. Qed.

Lemma read_only_lift {A} (o : outcome A) : read_only (lift o).
Proof. destruct o; [apply read_only_ret | apply read_only_throw]. Qed.

Lemma read_only_bind {A C} (c : M A) (k : A -> M C) :
  read_only c -> (forall a, read_only (k a)) -> read_only (bind c k).
Proof.
  intros Hc Hk m r m' H. unfold bind in H.
  destruct (c m) as [[a|x] m1] eqn:E.
  - destruct (Hc _ _ _ E) as (H1 & H2 & H3).
    destruct (Hk _ _ _ _ H) as (H4 & H5 & H6).
    repeat split; congruence.
  - inversion H; subst. eapply Hc; eassumption.
Qed.

Lemma read_only_db_call e : read_only (db_call e).
Proof.
  intros m r m' H. unfold db_call in H.
  destruct (db_fault e (db_calls m)); inversion H; subst; cbn; auto.
Qed.

Lemma read_only_random e : read_only (random e).
Proof. intros m r m' H. inversion H; subst; cbn; auto. Qed.

Lemma read_only_read_table : read_only read_table.
Proof. intros m r m' H. inversion H; subst; auto. Qed.

Create HintDb ro.
#[local] Hint Resolve read_only_ret read_only_throw read_only_lift
  read_only_db_call read_only_random read_only_read_table : ro.

Ltac ro :=
  repeat first
    [ solve [ auto with ro ]
    | apply read_only_bind; [| intros ? ]
    | match goal with
      | |- read_only (if ?b then _ else _) => destruct b
      | |- read_only (match ?x with _ => _ end) => destruct x
      end ].

Lemma read_only_computeEstimatedGdp e p x : read_only (computeEstimatedGdp e p x).
Proof. unfold computeEstimatedGdp. ro. Qed.
#[local] Hint Resolve read_only_computeEstimatedGdp : ro.

Lemma read_only_derive B e rateMap code p : read_only (derive B e rateMap code p).
Proof. unfold derive. ro. Qed.
#[local] Hint Resolve read_only_derive : ro.

Lemma read_only_entry_of B e rateMap now c : read_only (entry_of B e rateMap now c).
Proof. unfold entry_of. ro. Qed.

Lemma read_only_select_id e key : read_only (select_id e key).
Proof. unfold select_id. ro. Qed.

Lemma read_only_count_rows e : read_only (count_rows e).
Proof. unfold count_rows. ro. Qed.

Lemma read_only_top_rows e : read_only (top_rows e).
Proof. unfold top_rows. ro. Qed.

Lemma read_only_ensureCacheDir e : read_only (ensureCacheDir e).
Proof. unfold ensureCacheDir. ro. Qed.

Lemma read_only_fetchExternalData e : read_only (fetchExternalData e).
Proof. unfold fetchExternalData. ro. Qed.

#[local] Hint Resolve read_only_entry_of read_only_select_id
  read_only_count_rows read_only_top_rows read_only_ensureCacheDir
  read_only_fetchExternalData : ro.

(** ** Store invariants across a refresh

    A property [P] of the store that survives an update of a row, the
    insertion of a row under a key the table does not hold, and the
    growth of the id counter, survives the whole handler: on the
    success path and on every path through [catch]. *)

Section StoreInvariant.

Variable B : builtins.
Variable e : env.
Variable P : store -> Prop.
Variable E : entry -> Prop.

Hypothesis E_entry_of : forall rateMap c m en m',
  entry_of B e rateMap (clock e) c m = (Ok en, m') -> E en.

Hypothesis P_next : forall t n n' i,
  (n <= n')%nat ->
  P {| table := t; next_id := n; image := i |} ->
  P {| table := t; next_id := n'; image := i |}.

Hypothesis P_image : forall t n i img,
  jimp_fault e = None ->
  P {| table := t; next_id := n; image := i |} ->
  P {| table := t; next_id := n; image := Some img |}.

Hypothesis P_update : forall s en i,
  E en -> P s ->
  P (set_table
       (map (fun r => if Nat.eqb (id r) i
                      then {| id := id r; cols := assign en (cols r) |}
                      else r) (table s)) s).

Hypothesis P_insert : forall s en,
  E en -> lookup (name_lower en) (table s) = None -> P s ->
  P {| table := table s ++ [ {| id := next_id s; cols := en |} ];
       next_id := S (next_id s); image := image s |}.

Lemma guarded_read_only {A} (c : M A) :
  read_only c -> preserves (guarded P) c.
Proof.
  apply preserves_read_only.
  intros m m' [H1 H2] Hd Ht _. split.
  - rewrite Hd. exact H1.
  - intros t Hs. rewrite Hd. apply H2. congruence.
Qed.

Lemma guarded_getConnection : preserves (guarded P) (getConnection e).
Proof.
  intros m r m' Hm H. unfold getConnection, bind, db_call in H.
  destruct (db_fault e (db_calls m)); inversion H; subst; exact Hm.
Qed.

Lemma guarded_beginTransaction : preserves (guarded P) (beginTransaction e).
Proof.
  intros m r m' [H1 H2] H. unfold beginTransaction, bind, db_call in H.
  destruct (db_fault e (db_calls m)); inversion H; subst;
    (split; [exact H1 | cbn; intros t Ht]); auto.
  inversion Ht; subst. destruct (disk m); exact H1.
Qed.

Lemma guarded_commit : preserves (guarded P) (commit e).
Proof.
  intros m r m' [H1 H2] H. unfold commit, bind, db_call in H.
  destruct (db_fault e (db_calls m)); inversion H; subst;
    (split; [exact H1 | cbn; intros t Ht]); auto.
  discriminate Ht.
Qed.

Lemma guarded_update_row en i :
  E en -> preserves (guarded P) (update_row e en i).
Proof.
  intros He m r m' [H1 H2] H.
  unfold update_row, bind, db_call, with_disk in H.
  destruct (db_fault e (db_calls m)); inversion H; subst;
    (split; [| cbn; intros t Ht]); auto.
  - cbn. apply P_update; assumption.
  - apply (H2 _ Ht).
Qed.

Lemma guarded_insert_row en m r m' :
  E en -> lookup (name_lower en) (table (disk m)) = None ->
  guarded P m -> insert_row e en m = (r, m') -> guarded P m'.
Proof.
  intros He Hnone [H1 H2] H.
  unfold insert_row, bind, db_call, with_disk in H.
  destruct (db_fault e (db_calls m)); inversion H; subst;
    (split; [| cbn; intros t Ht]); auto.
  - cbn. apply P_insert; assumption.
  - specialize (H2 _ Ht). unfold set_table in *; cbn in *.
    eapply P_next; [| exact H2]. lia.
Qed.

Lemma guarded_write_image img :
  jimp_fault e = None -> preserves (guarded P) (write_image img).
Proof.
  intros Hj m r m' [H1 H2] H. unfold write_image, with_disk in H.
  inversion H; subst. split; cbn.
  - destruct (disk m) as [t n i]; cbn in *.
    eapply P_image; [exact Hj | exact H1].
  - intros t Ht. specialize (H2 _ Ht).
    unfold set_table in *; cbn in *.
    eapply P_image; [exact Hj | exact H2].
Qed.

Lemma guarded_upsert en : E en -> preserves (guarded P) (upsert e en).
Proof.
  intros He m r m' Hm H. unfold upsert, bind in H.
  destruct (select_id e (name_lower en) m) as [[found|x] m1] eqn:Hs.
  - assert (Hg : guarded P m1).
    { eapply guarded_read_only; [apply read_only_select_id | exact Hm | exact Hs]. }
    destruct found as [i|].
    + eapply guarded_update_row; eassumption.
    + eapply guarded_insert_row; try eassumption.
      unfold select_id, bind, db_call, read_table in Hs.
      destruct (db_fault e (db_calls m)); [discriminate Hs|].
      cbn in Hs. inversion Hs as [[Hf Hm1]]. subst m1. cbn.
      unfold lookup.
      destruct (find _ (table (disk m))); [discriminate Hf | reflexivity].
  - inversion H; subst.
    eapply guarded_read_only; [apply read_only_select_id | exact Hm | exact Hs].
Qed.

Lemma guarded_refresh_country rateMap c :
  preserves (guarded P) (refresh_country B e rateMap (clock e) c).
Proof.
  intros m r m' Hm H. unfold refresh_country, bind in H.
  destruct (entry_of B e rateMap (clock e) c m) as [[en|x] m1] eqn:He.
  - eapply guarded_upsert; [eapply E_entry_of; exact He | | exact H].
    eapply guarded_read_only; [apply read_only_entry_of | exact Hm | exact He].
  - inversion H; subst.
    eapply guarded_read_only; [apply read_only_entry_of | exact Hm | exact He].
Qed.

Lemma guarded_generateSummaryImage total top ts :
  preserves (guarded P) (generateSummaryImage e total top ts).
Proof.
  unfold generateSummaryImage, jimp_draw.
  assert (Hcase : (exists msg, jimp_fault e = Some msg) \/ jimp_fault e = None).
  { clear. destruct (jimp_fault e); eauto. }
  destruct Hcase as [[msg Hj] | Hj]; rewrite Hj.
  { intros m r m' Hm H. unfold try_catch, bind, throw, ret in H.
    inversion H; subst. exact Hm. }
  apply preserves_try_catch; [| intros; apply preserves_ret].
  apply preserves_bind; [apply preserves_ret | intros _].
  apply preserves_bind.
  { apply guarded_read_only. apply read_only_ensureCacheDir. }
  intros _. apply guarded_write_image. exact Hj.
Qed.

Lemma guarded_refresh_try : preserves (guarded P) (refresh_try B e).
Proof.
  unfold refresh_try.
  apply preserves_bind;
    [apply guarded_read_only, read_only_fetchExternalData | intros [countries rates]].
  cbn [fst snd].
  destruct (negb (truthy rates)); [apply preserves_ret|].
  apply preserves_bind; [apply preserves_lift | intros rateMap].
  destruct (negb (truthy rateMap)); [apply preserves_ret|].
  apply preserves_bind; [apply guarded_getConnection | intros _].
  apply preserves_bind; [apply guarded_beginTransaction | intros _].
  apply preserves_bind; [apply preserves_lift | intros cs].
  apply preserves_bind;
    [apply preserves_forEach; intros c; apply guarded_refresh_country | intros _].
  apply preserves_bind; [apply guarded_commit | intros _].
  apply preserves_bind;
    [apply guarded_read_only, read_only_ensureCacheDir | intros _].
  apply preserves_bind;
    [apply guarded_read_only, read_only_count_rows | intros total].
  apply preserves_bind;
    [apply guarded_read_only, read_only_top_rows | intros top].
  apply preserves_bind; [apply guarded_generateSummaryImage | intros _].
  apply preserves_ret.
Qed.

Lemma guarded_start s : P s -> guarded P (start s).
Proof. intros H. split; [exact H | cbn; discriminate]. Qed.

Lemma guarded_rollback m : guarded P m -> P (disk (rollback m)).
Proof.
  intros [H1 H2]. unfold rollback.
  destruct (conn m); [| exact H1].
  destruct (txn m) as [t|] eqn:Ht; [| exact H1].
  cbn. apply H2. reflexivity.
Qed.

(** The store after [POST /countries/refresh] satisfies what the
    store before it did. *)
Lemma refresh_keeps s : P s -> P (snd (post_countries_refresh B e s)).
Proof.
  intros Hs. unfold post_countries_refresh, handler.
  destruct (refresh_try B e (start s)) as [[r|x] m] eqn:Hr.
  - cbn. eapply guarded_refresh_try; [apply guarded_start; exact Hs | exact Hr].
  - cbn. apply guarded_rollback.
    eapply guarded_refresh_try; [apply guarded_start; exact Hs | exact Hr].
Qed.

End StoreInvariant.

(** ** What the loop body computes *)

Lemma entry_of_ok B e rateMap now c m en m' :
  entry_of B e rateMap now c m = (Ok en, m') ->
  exists code nm,
    currency_code_of B c = Ok code /\
    population_of B c = Ok (population en) /\
    derive B e rateMap code (population en) m
      = (Ok (currency_code en, exchange_rate en, estimated_gdp en), m') /\
    prop B c "name" = Ok nm /\
    lower_name B nm = Ok (name_lower en) /\
    name en = nm ||' VNull /\
    last_refreshed_at en = now.
Proof.
  unfold entry_of. intros H.
  apply bind_ok in H. destruct H as (code & m1 & Hcode & H).
  apply lift_ok in Hcode. destruct Hcode as [Hcode ->].
  apply bind_ok in H. destruct H as (pop & m1 & Hpop & H).
  apply lift_ok in Hpop. destruct Hpop as [Hpop ->].
  apply bind_ok in H. destruct H as (d & m1 & Hd & H).
  apply bind_ok in H. destruct H as (nm & m2 & Hnm & H).
  apply lift_ok in Hnm. destruct Hnm as [Hnm ->].
  apply bind_ok in H. destruct H as (lower & m2 & Hlow & H).
  apply lift_ok in Hlow. destruct Hlow as [Hlow ->].
  apply bind_ok in H. destruct H as (cap & m2 & Hcap & H).
  apply lift_ok in Hcap. destruct Hcap as [Hcap ->].
  apply bind_ok in H. destruct H as (reg & m2 & Hreg & H).
  apply lift_ok in Hreg. destruct Hreg as [Hreg ->].
  apply bind_ok in H. destruct H as (flag & m2 & Hflag & H).
  apply lift_ok in Hflag. destruct Hflag as [Hflag ->].
  apply ret_ok in H. destruct H as [-> ->].
  exists code, nm. cbn. destruct d as [[d1 d2] d3]. cbn. auto 10.
Qed.

Lemma lower_name_in_sync B nm key :
  lower_name B nm = Ok key ->
  match nm ||' VNull with
  | VStr n => key = toLowerCase B n
  | VNull => key = toLowerCase B ""
  | _ => False
  end.
Proof.
  unfold lower_name, or_else.
  destruct (truthy nm) eqn:Ht.
  - destruct nm; try discriminate; intros H; inversion H; reflexivity.
  - intros H; inversion H; reflexivity.
Qed.

Lemma entry_of_in_sync B e rateMap now c m en m' :
  entry_of B e rateMap now c m = (Ok en, m') -> in_sync B en.
Proof.
  intros H. apply entry_of_ok in H.
  destruct H as (code & nm & _ & _ & _ & _ & Hlow & Hname & _).
  unfold in_sync. rewrite Hname. apply lower_name_in_sync. exact Hlow.
Qed.

Lemma entry_of_key B e rateMap now c m en m' :
  entry_of B e rateMap now c m = (Ok en, m') ->
  key_of B c = Ok (name_lower en).
Proof.
  intros H. apply entry_of_ok in H.
  destruct H as (code & nm & _ & _ & _ & Hnm & Hlow & _).
  unfold key_of. rewrite Hnm. exact Hlow.
Qed.

Lemma no_currency_code B c :
  no_currency_entries B c = true -> currency_code_of B c = Ok VNull.
Proof.
  unfold no_currency_entries, currency_code_of.
  destruct (prop B c "currencies") as [[| | | | |[|first rest]| |]|x];
    intros H; try reflexivity; discriminate H.
Qed.

(** Lines 223-227: without a currency code the rate is [null] and
    the estimate is 0, whatever the population. *)
Lemma derive_no_code B e rateMap code p m :
  truthy code = false ->
  derive B e rateMap code p m = (Ok (VNull, None, Some (Num.ofZ 0)), m).
Proof. intros Hc. unfold derive. rewrite Hc. reflexivity. Qed.

(** Lines 220-222: a currency code without a rate leaves both
    [null]. *)
Lemma derive_no_rate B e rateMap code p rate m :
  truthy code = true ->
  prop B rateMap (property_key B code) = Ok rate ->
  nullish rate = true ->
  derive B e rateMap code p m = (Ok (code, None, None), m).
Proof.
  intros Hc Hr Hn. unfold derive. rewrite Hc, Hr. cbn.
  rewrite Hn. reflexivity.
Qed.

(** Lines 217-219 with [computeEstimatedGdp]: a currency code with a
    rate and a population that is a number. *)
Lemma derive_rate B e rateMap code p rate m r m' :
  truthy code = true ->
  prop B rateMap (property_key B code) = Ok rate ->
  nullish rate = false ->
  Num.isNaN p = false ->
  derive B e rateMap code (Some p) m = (Ok r, m') ->
  exists multiplier : Z,
    1000 <= multiplier <= 2000 /\
    r = (code, Some (ToNumber B rate),
         Some (Num.div (Num.mul p (Num.ofZ multiplier)) (ToNumber B rate))).
Proof.
  intros Hc Hr Hn Hp. unfold derive. rewrite Hc, Hr. cbn.
  rewrite Hn. cbn. unfold computeEstimatedGdp. rewrite Hp.
  unfold bind, random, ret.
  destruct (randInt_1000_2000 (entropy e (random_calls m))) as (k & Hk & ->).
  intros H. inversion H; subst. exists k. split; [exact Hk | reflexivity].
Qed.

(** Lines 217-219 with the first test of [computeEstimatedGdp]: a
    currency code, and a population that is [null] or [NaN]. *)
Lemma derive_no_population B e rateMap code p m r m' :
  truthy code = true ->
  p = None \/ p = Some NaN ->
  derive B e rateMap code p m = (Ok r, m') ->
  snd r = None.
Proof.
  intros Hc Hp. unfold derive. rewrite Hc.
  destruct (prop B rateMap (property_key B code)) as [rate|x]; cbn;
    [| discriminate].
  destruct (nullish rate); cbn.
  - intros H; inversion H; reflexivity.
  - destruct Hp as [-> | ->]; cbn; intros H; inversion H; reflexivity.
Qed.

(** ** The upsert *)

Lemma find_map_same {A} (p : A -> bool) (f : A -> A) (l : list A) :
  (forall x, p (f x) = p x) ->
  find p (map f l) = option_map f (find p l).
Proof.
  intros Hf. induction l as [|x l IH]; cbn; [reflexivity|].
  rewrite Hf. destruct (p x); [reflexivity | exact IH].
Qed.

Lemma find_app {A} (p : A -> bool) (l1 l2 : list A) :
  find p (l1 ++ l2) =
  match find p l1 with Some x => Some x | None => find p l2 end.
Proof.
  induction l1 as [|x l1 IH]; cbn; [reflexivity|].
  destruct (p x); [reflexivity | exact IH].
Qed.

Lemma lookup_some key t r :
  lookup key t = Some r -> In r t /\ name_lower (cols r) = key.
Proof.
  unfold lookup. intros H. apply find_some in H. destruct H as [Hin Hk].
  apply String.eqb_eq in Hk. auto.
Qed.

Lemma lookup_none key t r :
  lookup key t = None -> In r t -> name_lower (cols r) <> key.
Proof.
  unfold lookup. intros H Hin Hk.
  apply (find_none _ _ H) in Hin. apply String.eqb_neq in Hin. auto.
Qed.

Lemma NoDup_map_eq {A C} (f : A -> C) (l : list A) x y :
  NoDup (map f l) -> In x l -> In y l -> f x = f y -> x = y.
Proof.
  induction l as [|a l IH]; cbn; [contradiction|].
  intros Hnd Hx Hy Hf. inversion Hnd as [|? ? Hnotin Hnd']; subst.
  destruct Hx as [->|Hx], Hy as [->|Hy]; auto.
  - exfalso. apply Hnotin. rewrite Hf. apply in_map, Hy.
  - exfalso. apply Hnotin. rewrite <- Hf. apply in_map, Hx.
Qed.

Lemma assign_assign new old : assign new (assign new old) = assign new old.
Proof. reflexivity. Qed.

Lemma assign_self en : assign en en = en.
Proof. destruct en; reflexivity. Qed.

Lemma select_id_ok e key m found m' :
  select_id e key m = (Ok found, m') ->
  found = option_map id (lookup key (table (disk m))) /\
  disk m' = disk m /\ txn m' = txn m.
Proof.
  unfold select_id, bind, db_call, read_table, ret.
  destruct (db_fault e (db_calls m)); [discriminate|].
  cbn. intros H; inversion H; subst. cbn. auto.
Qed.

Lemma update_row_ok e en i m m' :
  update_row e en i m = (Ok tt, m') ->
  table (disk m') =
    map (fun r => if Nat.eqb (id r) i
                  then {| id := id r; cols := assign en (cols r) |} else r)
        (table (disk m)) /\
  next_id (disk m') = next_id (disk m) /\ txn m' = txn m.
Proof.
  unfold update_row, bind, db_call, with_disk.
  destruct (db_fault e (db_calls m)); [discriminate|].
  intros H; inversion H; subst. cbn. auto.
Qed.

Lemma insert_row_ok e en m m' :
  insert_row e en m = (Ok tt, m') ->
  table (disk m') =
    (table (disk m) ++ [ {| id := next_id (disk m); cols := en |} ])%list /\
  txn m' = txn m.
Proof.
  unfold insert_row, bind, db_call, with_disk.
  destruct (db_fault e (db_calls m)); [discriminate|].
  intros H; inversion H; subst. cbn. auto.
Qed.

(** After its upsert an entry is found in the table under its key,
    with the columns the upsert assigns. *)
Lemma upsert_written e en m m' :
  upsert e en m = (Ok tt, m') -> written en (table (disk m')).
Proof.
  unfold upsert. intros H.
  apply bind_ok in H. destruct H as (found & m1 & Hsel & H).
  apply select_id_ok in Hsel. destruct Hsel as (-> & Hd & _).
  unfold written.
  destruct (lookup (name_lower en) (table (disk m))) as [r0|] eqn:Hl; cbn in H.
  - apply update_row_ok in H. destruct H as (Ht & _). rewrite Ht, Hd.
    unfold lookup. rewrite find_map_same.
    + fold (lookup (name_lower en) (table (disk m))). rewrite Hl. cbn.
      rewrite Nat.eqb_refl. eexists. split; reflexivity.
    + intros x. destruct (Nat.eqb (id x) (id r0)); reflexivity.
  - apply insert_row_ok in H. destruct H as (Ht & _). rewrite Ht, Hd.
    unfold lookup. rewrite find_app.
    fold (lookup (name_lower en) (table (disk m))). rewrite Hl. cbn.
    rewrite String.eqb_refl. eexists. split; [reflexivity|].
    cbn. apply assign_self.
Qed.

(** An upsert under another key leaves the row of [key] as it is. *)
Lemma upsert_other e en m m' key r :
  ids_ok (disk m) ->
  lookup key (table (disk m)) = Some r ->
  name_lower en <> key ->
  upsert e en m = (Ok tt, m') ->
  lookup key (table (disk m')) = Some r.
Proof.
  intros [Hnd _] Hr Hne H. unfold upsert in H.
  apply bind_ok in H. destruct H as (found & m1 & Hsel & H).
  apply select_id_ok in Hsel. destruct Hsel as (-> & Hd & _).
  destruct (lookup (name_lower en) (table (disk m))) as [r0|] eqn:Hl; cbn in H.
  - apply update_row_ok in H. destruct H as (Ht & _). rewrite Ht, Hd.
    unfold lookup. rewrite find_map_same.
    + fold (lookup key (table (disk m))). rewrite Hr. cbn.
      destruct (Nat.eqb (id r) (id r0)) eqn:Hid; [| reflexivity].
      exfalso. apply Nat.eqb_eq in Hid.
      apply lookup_some in Hr, Hl. destruct Hr as [Hin Hk], Hl as [Hin0 Hk0].
      assert (r = r0) by (eapply NoDup_map_eq; eassumption).
      subst r0. congruence.
    + intros x. destruct (Nat.eqb (id x) (id r0)); reflexivity.
  - apply insert_row_ok in H. destruct H as (Ht & _). rewrite Ht, Hd.
    unfold lookup. rewrite find_app.
    fold (lookup key (table (disk m))). rewrite Hr. reflexivity.
Qed.

(** ** Three invariants of the store *)

Lemma ids_ok_next t n n' i i' :
  (n <= n')%nat ->
  ids_ok {| table := t; next_id := n; image := i |} ->
  ids_ok {| table := t; next_id := n'; image := i' |}.
Proof.
  unfold ids_ok; cbn. intros Hn [H1 H2]. split; [exact H1|].
  eapply Forall_impl; [| exact H2]. cbn. intros; lia.
Qed.

Lemma map_id_update en i t :
  map id (map (fun r => if Nat.eqb (id r) i
                        then {| id := id r; cols := assign en (cols r) |}
                        else r) t) = map id t.
Proof.
  rewrite map_map. apply map_ext. intros r.
  destruct (Nat.eqb (id r) i); reflexivity.
Qed.

Lemma ids_ok_update s en i :
  ids_ok s ->
  ids_ok (set_table
            (map (fun r => if Nat.eqb (id r) i
                           then {| id := id r; cols := assign en (cols r) |}
                           else r) (table s)) s).
Proof.
  unfold ids_ok; cbn. intros [H1 H2]. split.
  - rewrite map_id_update. exact H1.
  - rewrite Forall_map. eapply Forall_impl; [| exact H2].
    intros r Hr. destruct (Nat.eqb (id r) i); exact Hr.
Qed.

Lemma ids_ok_insert s en :
  ids_ok s ->
  ids_ok {| table := table s ++ [ {| id := next_id s; cols := en |} ];
            next_id := S (next_id s); image := image s |}.
Proof.
  unfold ids_ok; cbn. intros [H1 H2]. split.
  - rewrite map_app. cbn.
    apply NoDup_app; [exact H1 | repeat constructor; intros [] |].
    intros x Hx [<-|[]]. apply in_map_iff in Hx.
    destruct Hx as (r & Hid & Hin).
    rewrite Forall_forall in H2. specialize (H2 _ Hin). lia.
  - apply Forall_app. split.
    + eapply Forall_impl; [| exact H2]. cbn. intros; lia.
    + repeat constructor.
Qed.

Lemma keys_ok_update s en i :
  keys_ok s ->
  keys_ok (set_table
             (map (fun r => if Nat.eqb (id r) i
                            then {| id := id r; cols := assign en (cols r) |}
                            else r) (table s)) s).
Proof.
  unfold keys_ok; cbn. intros H. rewrite map_map.
  erewrite map_ext; [exact H|].
  intros r. destruct (Nat.eqb (id r) i); reflexivity.
Qed.

Lemma keys_ok_insert s en :
  lookup (name_lower en) (table s) = None ->
  keys_ok s ->
  keys_ok {| table := table s ++ [ {| id := next_id s; cols := en |} ];
             next_id := S (next_id s); image := image s |}.
Proof.
  unfold keys_ok; cbn. intros Hnone H. rewrite map_app. cbn.
  apply NoDup_app; [exact H | repeat constructor; intros [] |].
  intros x Hx [<-|[]]. apply in_map_iff in Hx.
  destruct Hx as (r & Hk & Hin).
  exact (lookup_none _ _ _ Hnone Hin Hk).
Qed.

Lemma in_sync_update B s en i :
  Forall (fun r => in_sync B (cols r)) (table s) ->
  Forall (fun r => in_sync B (cols r))
    (map (fun r => if Nat.eqb (id r) i
                   then {| id := id r; cols := assign en (cols r) |}
                   else r) (table s)).
Proof.
  intros H. rewrite Forall_map. eapply Forall_impl; [| exact H].
  intros r Hr. destruct (Nat.eqb (id r) i); exact Hr.
Qed.

Section RefreshInvariants.

Variable B : builtins.
Variable e : env.

Lemma ids_ok_refresh_country rateMap c :
  preserves (guarded ids_ok) (refresh_country B e rateMap (clock e) c).
Proof.
  apply guarded_refresh_country with (E := fun _ => True); auto.
  - intros t n n' i Hn H. exact (ids_ok_next t n n' i i Hn H).
  - intros; apply ids_ok_update; assumption.
  - intros; apply ids_ok_insert; assumption.
Qed.

Lemma ids_ok_refresh s : ids_ok s -> ids_ok (snd (post_countries_refresh B e s)).
Proof.
  apply refresh_keeps with (E := fun _ => True); auto.
  - intros t n n' i Hn H. exact (ids_ok_next t n n' i i Hn H).
  - intros; apply ids_ok_update; assumption.
  - intros; apply ids_ok_insert; assumption.
Qed.

Lemma keys_ok_refresh s : keys_ok s -> keys_ok (snd (post_countries_refresh B e s)).
Proof.
  apply refresh_keeps with (E := fun _ => True); auto.
  - intros; apply keys_ok_update; assumption.
  - intros; apply keys_ok_insert; assumption.
Qed.

Lemma in_sync_refresh s :
  Forall (fun r => in_sync B (cols r)) (table s) ->
  Forall (fun r => in_sync B (cols r))
    (table (snd (post_countries_refresh B e s))).
Proof.
  apply (refresh_keeps B e
           (fun s => Forall (fun r => in_sync B (cols r)) (table s))
           (in_sync B)).
  - intros rateMap c m en m'. apply entry_of_in_sync.
  - auto.
  - auto.
  - intros s0 en i _. apply in_sync_update.
  - intros s0 en Hen _ H. cbn. apply Forall_app. split; [exact H|].
    repeat constructor. exact Hen.
Qed.

End RefreshInvariants.

(** ** The success path of the refresh handler *)

Lemma commit_ok e m m' :
  commit e m = (Ok tt, m') -> disk m' = disk m.
Proof.
  unfold commit, bind, db_call.
  destruct (db_fault e (db_calls m)); [discriminate|].
  intros H; inversion H; reflexivity.
Qed.

Lemma begin_ok e m m' :
  beginTransaction e (snd (getConnection e m)) = (Ok tt, m') ->
  fst (getConnection e m) = Ok tt ->
  disk m' = disk m /\ txn m' = Some (table (disk m)).
Proof.
  unfold beginTransaction, getConnection, bind, db_call. cbn.
  destruct (db_fault e (db_calls m)); cbn; [discriminate 2|].
  destruct (db_fault e (S (db_calls m))); cbn; [discriminate|].
  intros H _; inversion H; auto.
Qed.

Lemma count_rows_ok e m n m' :
  count_rows e m = (Ok n, m') ->
  n = List.length (table (disk m)) /\ disk m' = disk m.
Proof.
  unfold count_rows, bind, db_call, read_table, ret.
  destruct (db_fault e (db_calls m)); [discriminate|].
  cbn. intros H; inversion H; auto.
Qed.

(** The renderer returns normally, whatever fails inside it, and
    leaves the table alone. *)
Lemma generateSummaryImage_returns e total top ts m :
  exists m', generateSummaryImage e total top ts m = (Ok tt, m') /\
             table (disk m') = table (disk m) /\
             (jimp_fault e <> None -> disk m' = disk m) /\
             agree (Ok tt, m') (Ok tt, m).
Proof.
  unfold generateSummaryImage, try_catch, bind, jimp_draw, ensureCacheDir, agree.
  destruct (jimp_fault e) as [msg|]; cbn.
  - eexists. split; [reflexivity | auto 10].
  - destruct (mkdir_fault e) as [msg|]; cbn.
    + eexists. split; [reflexivity | split; [reflexivity | split; [congruence|]]].
      cbn. auto 10.
    + eexists. split; [reflexivity | split; [reflexivity | split; [congruence|]]].
      cbn. auto 10.
Qed.

Lemma refresh_try_ok B e s r m :
  refresh_try B e (start s) = (Ok r, m) ->
  r = unavailable "Could not fetch data from exchange rates API" \/
  exists countries rates rateMap cs m1 m2,
    fetch e = Fetched countries rates /\
    prop B rates "rates" = Ok rateMap /\
    truthy rateMap = true /\
    iterate countries = Ok cs /\
    disk m1 = s /\
    txn m1 = Some (table s) /\
    forEach (refresh_country B e rateMap (clock e)) cs m1 = (Ok tt, m2) /\
    table (disk m) = table (disk m2) /\
    r = {| status := 200;
           payload := JsonRefresh "Refresh completed"
                        (List.length (table (disk m)))
                        (toISOString B (clock e)) |}.
Proof.
  intros Hr. unfold refresh_try in Hr.
  apply bind_ok in Hr. destruct Hr as (fetched & m0 & Hf & Hr).
  unfold fetchExternalData in Hf.
  destruct (fetch e) as [countries rates|] eqn:Hfetch; [| discriminate Hf].
  apply ret_ok in Hf. destruct Hf as [-> ->].
  cbn [fst snd] in Hr.
  destruct (truthy rates) eqn:Hrates; cbn [negb] in Hr;
    [| apply ret_ok in Hr; destruct Hr as [-> _]; left; reflexivity].
  apply bind_ok in Hr. destruct Hr as (rateMap & m0 & Hp & Hr).
  apply lift_ok in Hp. destruct Hp as [Hp ->].
  destruct (truthy rateMap) eqn:Hmap; cbn [negb] in Hr;
    [| apply ret_ok in Hr; destruct Hr as [-> _]; left; reflexivity].
  right.
  apply bind_ok in Hr. destruct Hr as ([] & m0 & Hconn & Hr).
  apply bind_ok in Hr. destruct Hr as ([] & m1 & Hbegin & Hr).
  apply bind_ok in Hr. destruct Hr as (cs & m1' & Hit & Hr).
  apply lift_ok in Hit. destruct Hit as [Hit ->].
  apply bind_ok in Hr. destruct Hr as ([] & m2 & Hloop & Hr).
  apply bind_ok in Hr. destruct Hr as ([] & m3 & Hcommit & Hr).
  apply bind_ok in Hr. destruct Hr as ([] & m4 & Hdir & Hr).
  apply bind_ok in Hr. destruct Hr as (total & m5 & Hcount & Hr).
  apply bind_ok in Hr. destruct Hr as (top & m6 & Htop & Hr).
  apply bind_ok in Hr. destruct Hr as ([] & m7 & Himg & Hr).
  apply ret_ok in Hr. destruct Hr as [-> ->].
  apply commit_ok in Hcommit.
  apply read_only_ensureCacheDir in Hdir. destruct Hdir as (Hdir & _).
  apply count_rows_ok in Hcount. destruct Hcount as (-> & Hcount).
  apply read_only_top_rows in Htop. destruct Htop as (Htop & _).
  destruct (generateSummaryImage_returns e (List.length (table (disk m4))) top
              (clock e) m6) as (m7' & Hg & Htab & _ & _).
  rewrite Himg in Hg. inversion Hg; subst m7'; clear Hg.
  assert (Hfinal : table (disk m7) = table (disk m2)) by congruence.
  replace m0 with (snd (getConnection e (start s))) in Hbegin
    by (rewrite Hconn; reflexivity).
  apply begin_ok in Hbegin; [| rewrite Hconn; reflexivity].
  destruct Hbegin as [Hd1 Ht1]. cbn in Hd1, Ht1.
  exists countries, rates, rateMap, cs, m1, m2.
  repeat split; auto.
  f_equal. f_equal. congruence.
Qed.

Lemma refresh_200 B e s resp s' :
  post_countries_refresh B e s = (resp, s') ->
  status resp = 200%nat ->
  exists countries rates rateMap cs m1 m2,
    fetch e = Fetched countries rates /\
    prop B rates "rates" = Ok rateMap /\
    truthy rateMap = true /\
    iterate countries = Ok cs /\
    disk m1 = s /\
    txn m1 = Some (table s) /\
    forEach (refresh_country B e rateMap (clock e)) cs m1 = (Ok tt, m2) /\
    table s' = table (disk m2) /\
    resp = {| status := 200;
              payload := JsonRefresh "Refresh completed"
                           (List.length (table s')) (toISOString B (clock e)) |}.
Proof.
  unfold post_countries_refresh, handler.
  destruct (refresh_try B e (start s)) as [[r|x] m] eqn:Hr; cbn;
    intros H Hst; inversion H; subst; clear H; [| discriminate Hst].
  apply refresh_try_ok in Hr. destruct Hr as [-> | Hr]; [discriminate Hst|].
  exact Hr.
Qed.

(** The refresh handler answers 200 or 503, never 500. *)
Lemma refresh_status B e s :
  status (fst (post_countries_refresh B e s)) = 200%nat \/
  status (fst (post_countries_refresh B e s)) = 503%nat.
Proof.
  unfold post_countries_refresh, handler.
  destruct (refresh_try B e (start s)) as [[r|x] m] eqn:Hr; cbn.
  - apply refresh_try_ok in Hr. destruct Hr as [-> | Hr]; [right; reflexivity|].
    destruct Hr as (? & ? & ? & ? & ? & ? & Hr).
    decompose [and] Hr. subst r. left; reflexivity.
  - right; reflexivity.
Qed.

(** ** From the loop body to the committed table *)

Lemma refresh_country_ok B e rateMap now c m m' :
  refresh_country B e rateMap now c m = (Ok tt, m') ->
  exists en m1,
    entry_of B e rateMap now c m = (Ok en, m1) /\
    disk m1 = disk m /\
    upsert e en m1 = (Ok tt, m').
Proof.
  unfold refresh_country. intros H.
  apply bind_ok in H. destruct H as (en & m1 & Hen & H).
  exists en, m1. split; [exact Hen|]. split; [| exact H].
  apply read_only_entry_of in Hen. apply Hen.
Qed.

Lemma refresh_country_other B e rateMap now c m m' key r :
  ids_ok (disk m) ->
  lookup key (table (disk m)) = Some r ->
  key_of B c <> Ok key ->
  refresh_country B e rateMap now c m = (Ok tt, m') ->
  lookup key (table (disk m')) = Some r.
Proof.
  intros Hids Hr Hne H. apply refresh_country_ok in H.
  destruct H as (en & m1 & Hen & Hd & Hup).
  apply entry_of_key in Hen.
  eapply upsert_other; [rewrite Hd; exact Hids | rewrite Hd; exact Hr | | exact Hup].
  intros Hk. apply Hne. rewrite Hen, Hk. reflexivity.
Qed.

Lemma forEach_other B e rateMap suf m m' key r :
  guarded ids_ok m ->
  Forall (fun c => key_of B c <> Ok key) suf ->
  lookup key (table (disk m)) = Some r ->
  forEach (refresh_country B e rateMap (clock e)) suf m = (Ok tt, m') ->
  lookup key (table (disk m')) = Some r.
Proof.
  revert m. induction suf as [|c suf IH]; intros m Hg Hsuf Hr H.
  - inversion H; subst. exact Hr.
  - cbn [forEach] in H. apply bind_ok in H.
    destruct H as ([] & m1 & Hc & H).
    inversion Hsuf as [|? ? Hne Hsuf']; subst.
    apply (IH m1); [| exact Hsuf' | | exact H].
    + eapply ids_ok_refresh_country; eassumption.
    + eapply refresh_country_other; [apply (proj1 Hg) | exact Hr | exact Hne | exact Hc].
Qed.

(** What holds of every entry built for [c], and is a matter of the
    assigned columns only, holds of the row stored for [c]: right
    after the loop body, and in the committed table. *)
Lemma stores_intro B e rateMap c (Q : entry -> Prop) :
  (forall en m m', entry_of B e rateMap (clock e) c m = (Ok en, m') -> Q en) ->
  (forall en old, Q en -> Q (assign en old)) ->
  body_stores B e rateMap c Q /\ refresh_stores B e rateMap c Q.
Proof.
  intros Hentry Hassign.
  assert (Hbody : forall m m',
    refresh_country B e rateMap (clock e) c m = (Ok tt, m') ->
    exists key r, key_of B c = Ok key /\
                  lookup key (table (disk m')) = Some r /\ Q (cols r)).
  { intros m m' H. apply refresh_country_ok in H.
    destruct H as (en & m1 & Hen & _ & Hup).
    apply upsert_written in Hup. destruct Hup as (r & Hr & Hcols).
    exists (name_lower en), r. split; [eapply entry_of_key; exact Hen|].
    split; [exact Hr|]. rewrite <- Hcols. eapply Hassign, Hentry, Hen. }
  split.
  - intros m m' H. destruct (Hbody _ _ H) as (key & r & Hk & Hr & HQ).
    exists r. unfold stored_for. rewrite Hk. auto.
  - intros s resp s' countries rates pre suf Hpost Hst Hfetch Hmap Hit Hids Hlater.
    destruct (refresh_200 _ _ _ _ _ Hpost Hst)
      as (countries0 & rates0 & rateMap0 & cs & m1 & m2 &
          Hfetch0 & Hmap0 & _ & Hit0 & Hd & Ht & Hloop & Htab & _).
    rewrite Hfetch in Hfetch0. inversion Hfetch0; subst countries0 rates0.
    rewrite Hmap in Hmap0. inversion Hmap0; subst rateMap0.
    rewrite Hit in Hit0. inversion Hit0; subst cs.
    apply forEach_app in Hloop. destruct Hloop as (ma & Hpre & Hloop).
    cbn [forEach] in Hloop. apply bind_ok in Hloop.
    destruct Hloop as ([] & mb & Hc & Hsuf).
    assert (Hg1 : guarded ids_ok m1).
    { split; [rewrite Hd; exact Hids|]. intros t Ht'.
      rewrite Ht in Ht'. inversion Ht'; subst t. rewrite Hd.
      destruct s; exact Hids. }
    assert (Hga : guarded ids_ok ma).
    { eapply (preserves_forEach (I := guarded ids_ok)); [| exact Hg1 | exact Hpre].
      intros a. apply ids_ok_refresh_country. }
    assert (Hgb : guarded ids_ok mb).
    { eapply ids_ok_refresh_country; eassumption. }
    destruct (Hbody _ _ Hc) as (key & r & Hk & Hr & HQ).
    exists r. unfold stored_for. rewrite Hk, Htab. split; [| exact HQ].
    eapply forEach_other; [exact Hgb | | exact Hr | exact Hsuf].
    unfold not_overwritten in Hlater. rewrite Hk in Hlater. exact Hlater.
Qed.

(** ** The derivation rule of [estimated_gdp] *)

(** C1, as amended. A country whose currency code finds a member
    other than [null] in the rate mapping and whose population is a
    number (neither [null] nor [NaN]) is stored with the number of
    that member as [exchange_rate] and with
    [estimated_gdp = population * multiplier / exchange_rate], the
    product and the quotient of doubles, for some integer
    [multiplier] between 1000 and 2000: in the row that the loop
    body leaves for it, and in the committed table after a refresh
    that answered 200, provided that the ids of the table were
    distinct and that no later country of the input has the same
    lowercased name. *)
Theorem estimated_gdp_formula B e rateMap c code rate p :
  currency_code_of B c = Ok code ->
  truthy code = true ->
  prop B rateMap (property_key B code) = Ok rate ->
  nullish rate = false ->
  population_of B c = Ok (Some p) ->
  Num.isNaN p = false ->
  let Q := fun en =>
    population en = Some p /\
    exchange_rate en = Some (ToNumber B rate) /\
    exists multiplier : Z,
      1000 <= multiplier <= 2000 /\
      estimated_gdp en =
        Some (Num.div (Num.mul p (Num.ofZ multiplier)) (ToNumber B rate)) in
  body_stores B e rateMap c Q /\ refresh_stores B e rateMap c Q.
Proof.
  intros Hcode Htruthy Hrate Hnn Hpop Hnan Q.
  apply stores_intro; [| intros en old H; exact H].
  intros en m m' Hen. apply entry_of_ok in Hen.
  destruct Hen as (code0 & nm & Hcode0 & Hpop0 & Hd & _).
  rewrite Hcode in Hcode0. inversion Hcode0; subst code0.
  rewrite Hpop in Hpop0. inversion Hpop0 as [Hp]. rewrite <- Hp in Hd.
  destruct (derive_rate _ _ _ _ _ _ _ _ _ Htruthy Hrate Hnn Hnan Hd)
    as (k & Hk & Heq).
  inversion Heq as [[H1 H2 H3]].
  unfold Q. split; [symmetry; exact Hp|]. split; [exact H2|].
  exists k. split; [exact Hk | exact H3].
Qed.

(** C2, as amended. A country that has a currency code and whose
    population is missing or not a number is stored with
    [estimated_gdp] null, whether or not the rate mapping knows the
    code: in the row that the loop body leaves for it, and in the
    committed table after a refresh that answered 200, provided that
    the ids of the table were distinct and that no later country of
    the input has the same lowercased name. *)
Theorem no_population_gdp_null B e rateMap c code p :
  currency_code_of B c = Ok code ->
  truthy code = true ->
  population_of B c = Ok p ->
  p = None \/ p = Some NaN ->
  let Q := fun en => estimated_gdp en = None in
  body_stores B e rateMap c Q /\ refresh_stores B e rateMap c Q.
Proof.
  intros Hcode Htruthy Hpop Hp Q.
  apply stores_intro; [| intros en old H; exact H].
  intros en m m' Hen. apply entry_of_ok in Hen.
  destruct Hen as (code0 & nm & Hcode0 & Hpop0 & Hd & _).
  rewrite Hcode in Hcode0. inversion Hcode0; subst code0.
  rewrite Hpop in Hpop0. inversion Hpop0 as [Hp0]. rewrite <- Hp0 in Hd.
  apply (derive_no_population _ _ _ _ _ _ _ _ Htruthy Hp Hd).
Qed.

(** C3, as amended. A country with no currency entry at all is
    stored with [exchange_rate] null and [estimated_gdp] exactly 0:
    in the row that the loop body leaves for it, and in the
    committed table after a refresh that answered 200, provided that
    the ids of the table were distinct and that no later country of
    the input has the same lowercased name. *)
Theorem no_currency_gdp_zero B e rateMap c :
  no_currency_entries B c = true ->
  let Q := fun en =>
    exchange_rate en = None /\ estimated_gdp en = Some (Num.ofZ 0) in
  body_stores B e rateMap c Q /\ refresh_stores B e rateMap c Q.
Proof.
  intros Hc Q.
  apply stores_intro; [| intros en old H; exact H].
  intros en m m' Hen. apply entry_of_ok in Hen.
  destruct Hen as (code0 & nm & Hcode0 & _ & Hd & _).
  rewrite (no_currency_code _ _ Hc) in Hcode0. inversion Hcode0; subst code0.
  rewrite derive_no_code in Hd by reflexivity.
  inversion Hd as [[H1 H2 H3]]. split; [symmetry; exact H2 | symmetry; exact H3].
Qed.

(** C4, as amended. A country whose currency code finds no member
    in the rate mapping, neither one of its own nor an inherited one
    ([rateMap[code]] is [undefined] or [null]), is stored with
    [exchange_rate] and [estimated_gdp] both null: in the row that
    the loop body leaves for it, and in the committed table after a
    refresh that answered 200, provided that the ids of the table
    were distinct and that no later country of the input has the
    same lowercased name. *)
Theorem unknown_currency_both_null B e rateMap c code rate :
  currency_code_of B c = Ok code ->
  truthy code = true ->
  prop B rateMap (property_key B code) = Ok rate ->
  nullish rate = true ->
  let Q := fun en => exchange_rate en = None /\ estimated_gdp en = None in
  body_stores B e rateMap c Q /\ refresh_stores B e rateMap c Q.
Proof.
  intros Hcode Htruthy Hrate Hn Q.
  apply stores_intro; [| intros en old H; exact H].
  intros en m m' Hen. apply entry_of_ok in Hen.
  destruct Hen as (code0 & nm & Hcode0 & _ & Hd & _).
  rewrite Hcode in Hcode0. inversion Hcode0; subst code0.
  rewrite (derive_no_rate _ _ _ _ _ _ _ Htruthy Hrate Hn) in Hd.
  inversion Hd as [[H1 H2 H3]]. split; [symmetry; exact H2 | symmetry; exact H3].
Qed.

(** ** The other handlers and the reachable stores *)

Lemma handler_read_only (c : M response) s :
  read_only c -> snd (handler c internal_error s) = s.
Proof.
  intros Hc. unfold handler.
  destruct (c (start s)) as [[r|x] m] eqn:E; cbn;
    apply Hc in E; destruct E as [E _]; exact E.
Qed.

Lemma get_countries_store e q_region q_currency q_sort s :
  snd (get_countries e q_region q_currency q_sort s) = s.
Proof.
  unfold get_countries. apply handler_read_only.
  cbv zeta. ro.
Qed.

Lemma get_country_store B e param s : snd (get_country B e param s) = s.
Proof.
  unfold get_country. apply handler_read_only.
  cbv zeta. ro.
Qed.

Lemma get_status_store B e s : snd (get_status B e s) = s.
Proof.
  unfold get_status. apply handler_read_only.
  cbv zeta. ro.
Qed.

(** [DELETE /countries/:name] leaves the store as it is (the driver
    failed) or removes the rows of that key. *)
Lemma delete_country_store B e param s :
  snd (delete_country B e param s) = s \/
  snd (delete_country B e param s) =
    set_table
      (filter (fun r => negb (name_lower (cols r) =? toLowerCase B param)%string)
              (table s)) s.
Proof.
  unfold delete_country, handler, bind, db_call, read_table, with_disk, start.
  cbn -[Nat.ltb]. destruct (db_fault e 0); cbn -[Nat.ltb]; [left; reflexivity|].
  right.
  match goal with
  | |- context [Nat.ltb ?a ?b] => destruct (Nat.ltb a b)
  end; reflexivity.
Qed.

(** A property of the store that refreshes and deletions keep holds
    in every store the server reaches. *)
Lemma reachable_ind_store B (P : store -> Prop) :
  (forall n, P {| table := []; next_id := n; image := None |}) ->
  (forall e s, P s -> P (snd (post_countries_refresh B e s))) ->
  (forall f s, P s -> P (set_table (filter f (table s)) s)) ->
  forall s, reachable B s -> P s.
Proof.
  intros Hempty Hrefresh Hfilter s Hs.
  induction Hs as [n | e rq s Hs IH]; [apply Hempty|].
  destruct rq; cbn [serve].
  - apply Hrefresh, IH.
  - rewrite get_countries_store. exact IH.
  - rewrite get_country_store. exact IH.
  - destruct (delete_country_store B e param s) as [-> | ->];
      [exact IH | apply Hfilter, IH].
  - rewrite get_status_store. exact IH.
  - rewrite get_country_store. exact IH.
Qed.

Lemma reachable_keys_ok B s : reachable B s -> keys_ok s.
Proof.
  apply reachable_ind_store.
  - intros n. constructor.
  - intros e s0. apply keys_ok_refresh.
  - intros f s0. unfold keys_ok. cbn. generalize (table s0).
    induction l as [|r l IH]; cbn; intros Hnd; [constructor|].
    inversion Hnd as [|? ? Hnotin Hnd']; subst.
    destruct (f r); cbn; [| apply IH, Hnd'].
    constructor; [| apply IH, Hnd'].
    intros Hin. apply Hnotin. apply in_map_iff in Hin.
    destruct Hin as (x & Hx & Hin). apply filter_In in Hin.
    apply in_map_iff. exists x. tauto.
Qed.

Lemma reachable_ids_ok B s : reachable B s -> ids_ok s.
Proof.
  apply reachable_ind_store.
  - intros n. split; constructor.
  - intros e s0. apply ids_ok_refresh.
  - intros f s0 [H1 H2]. split; cbn.
    + clear H2. revert H1. generalize (table s0).
      induction l as [|r l IH]; cbn; intros Hnd; [constructor|].
      inversion Hnd as [|? ? Hnotin Hnd']; subst.
      destruct (f r); cbn; [| apply IH, Hnd'].
      constructor; [| apply IH, Hnd'].
      intros Hin. apply Hnotin. apply in_map_iff in Hin.
      destruct Hin as (x & Hx & Hin). apply filter_In in Hin.
      apply in_map_iff. exists x. tauto.
    + rewrite Forall_forall in *. intros r Hr. apply filter_In in Hr.
      apply H2. tauto.
Qed.

(** ** The normalized name *)

Lemma reachable_in_sync B s :
  reachable B s -> Forall (fun r => in_sync B (cols r)) (table s).
Proof.
  revert s. apply reachable_ind_store.
  - intros n. constructor.
  - intros e s0. apply in_sync_refresh.
  - intros f s0 H. cbn. rewrite Forall_forall in *.
    intros r Hr. apply filter_In in Hr. apply H. tauto.
Qed.

(** C5. In every store the server reaches (an empty table, then any
    requests, under any behaviour of the sources, the database and
    the file system), each row has [name_lower] equal to the
    lowercase of [name]; a row stored without a name has [name]
    NULL and [name_lower] the lowercase of the empty string. *)
Theorem name_lower_in_sync B s r :
  reachable B s -> In r (table s) -> in_sync B (cols r).
Proof.
  intros Hs. pose proof (reachable_in_sync B s Hs) as H.
  rewrite Forall_forall in H. apply H.
Qed.

(** ** Lookup and deletion by name *)

Lemma lookup_unique s r :
  keys_ok s -> In r (table s) ->
  lookup (name_lower (cols r)) (table s) = Some r.
Proof.
  intros Hk Hin.
  destruct (lookup (name_lower (cols r)) (table s)) as [r'|] eqn:Hl.
  - apply lookup_some in Hl. destruct Hl as [Hin' Hkey].
    f_equal. eapply (NoDup_map_eq (fun x => name_lower (cols x)));
      [exact Hk | exact Hin' | exact Hin | exact Hkey].
  - exfalso. exact (lookup_none _ _ _ Hl Hin eq_refl).
Qed.

Lemma filter_shorter {A} (f : A -> bool) (l : list A) x :
  In x l -> f x = false ->
  (List.length (filter f l) < List.length l)%nat.
Proof.
  induction l as [|a l IH]; cbn; [contradiction|].
  intros [->|Hin] Hx.
  - rewrite Hx. pose proof (filter_length_le f l). lia.
  - specialize (IH Hin Hx). destruct (f a); cbn; lia.
Qed.

(** C9. For a row of a reachable store with name [n], and a path
    parameter that is [n] in any casing, [GET /countries/:name]
    answers 200 with that row and [DELETE /countries/:name] answers
    204 and removes it (and nothing else), as long as the database
    call succeeds. *)
Theorem lookup_any_casing B e s r n param :
  reachable B s ->
  In r (table s) ->
  name (cols r) = VStr n ->
  toLowerCase B param = toLowerCase B n ->
  db_fault e 0 = None ->
  get_country B e param s = ({| status := 200; payload := JsonRow r |}, s) /\
  exists s',
    delete_country B e param s = ({| status := 204; payload := NoBody |}, s') /\
    ~ In r (table s') /\
    (forall x, In x (table s) -> x <> r -> In x (table s')).
Proof.
  intros Hs Hin Hname Hcase Hdb.
  pose proof (reachable_in_sync B s Hs) as Hsync.
  rewrite Forall_forall in Hsync. specialize (Hsync r Hin).
  unfold in_sync in Hsync. rewrite Hname in Hsync.
  pose proof (lookup_unique s r (reachable_keys_ok B s Hs) Hin) as Hl.
  rewrite Hsync, <- Hcase in Hl.
  split.
  - unfold get_country, handler, bind, db_call, read_table, start. cbn.
    rewrite Hdb. cbn. fold (lookup (toLowerCase B param) (table s)).
    rewrite Hl. cbn. destruct s; reflexivity.
  - eexists. split; [| split].
    + unfold delete_country, handler, bind, db_call, read_table, with_disk, start.
      cbn -[Nat.ltb]. rewrite Hdb. cbn -[Nat.ltb].
      assert (Hlt : Nat.ltb 0
                (List.length (table s) -
                 List.length (filter (fun r0 => negb
                   (name_lower (cols r0) =? toLowerCase B param)%string)
                   (table s))) = true).
      { apply Nat.ltb_lt.
        pose proof (filter_shorter
          (fun r0 => negb (name_lower (cols r0) =? toLowerCase B param)%string)
          (table s) r Hin) as Hlen.
        cbv beta in Hlen. rewrite Hsync, <- Hcase, String.eqb_refl in Hlen.
        specialize (Hlen eq_refl). lia. }
      rewrite Hlt. reflexivity.
    + cbn. intros Hr. apply filter_In in Hr. destruct Hr as [_ Hr].
      rewrite Hsync, <- Hcase, String.eqb_refl in Hr. discriminate Hr.
    + cbn. intros x Hx Hne. apply filter_In. split; [exact Hx|].
      apply negb_true_iff, String.eqb_neq. intros Hk.
      apply Hne.
      eapply (NoDup_map_eq (fun y => name_lower (cols y)));
        [exact (reachable_keys_ok B s Hs) | exact Hx | exact Hin |].
      cbn. rewrite Hk, Hsync, Hcase. reflexivity.
Qed.

(** ** Failures *)



(** C7, on the code. When both sources answer well and the database
    does not, the refresh handler answers 503 "External data source
    unavailable": a database failure is not surfaced as 500 there. *)
Theorem database_failure_answers_503 B e s countries rates rateMap msg :
  fetch e = Fetched countries rates ->
  truthy rates = true ->
  prop B rates "rates" = Ok rateMap ->
  truthy rateMap = true ->
  db_fault e 0 = Some msg ->
  post_countries_refresh B e s =
    ({| status := 503;
        payload := JsonError "External data source unavailable"
                     (Some "External data source unavailable") |},
     s).
Proof.
  intros Hfetch Ht Hp Hm Hdb.
  unfold post_countries_refresh, handler, refresh_try, bind, fetchExternalData.
  rewrite Hfetch. cbn. rewrite Ht. cbn. rewrite Hp. cbn. rewrite Hm. cbn.
  unfold getConnection, bind, db_call. cbn. rewrite Hdb. reflexivity.
Qed.

(** The read and delete handlers do answer 500 "Internal server
    error" when the database fails, with nothing of the exception in
    the body. *)
Lemma database_failure_elsewhere_500 B e s msg :
  db_fault e 0 = Some msg ->
  let failed := ({| status := 500;
                    payload := JsonError "Internal server error" None |}, s) in
  (forall r c o, get_countries e r c o s = failed) /\
  (forall param, get_country B e param s = failed) /\
  (forall param, delete_country B e param s = failed) /\
  get_status B e s = failed.
Proof.
  intros Hdb failed. unfold failed.
  repeat split; intros;
    unfold get_countries, get_country, delete_country, get_status, count_rows,
      handler, bind, db_call; cbn; rewrite Hdb; reflexivity.
Qed.

(** ** One timestamp per refresh *)

Lemma entry_of_stamp B e rateMap now c m en m' :
  entry_of B e rateMap now c m = (Ok en, m') -> last_refreshed_at en = now.
Proof.
  intros H. apply entry_of_ok in H.
  destruct H as (code & nm & _ & _ & _ & _ & _ & _ & H). exact H.
Qed.

Lemma upsert_stamp e en m m' key now :
  last_refreshed_at en = now ->
  (exists r, lookup key (table (disk m)) = Some r /\
             last_refreshed_at (cols r) = now) ->
  upsert e en m = (Ok tt, m') ->
  exists r, lookup key (table (disk m')) = Some r /\
            last_refreshed_at (cols r) = now.
Proof.
  intros Hen (r & Hr & Hts) H. unfold upsert in H.
  apply bind_ok in H. destruct H as (found & m1 & Hsel & H).
  apply select_id_ok in Hsel. destruct Hsel as (-> & Hd & _).
  destruct (lookup (name_lower en) (table (disk m))) as [r0|] eqn:Hl; cbn in H.
  - apply update_row_ok in H. destruct H as (Ht & _). rewrite Ht, Hd.
    unfold lookup. rewrite find_map_same.
    + fold (lookup key (table (disk m))). rewrite Hr. cbn.
      eexists. split; [reflexivity|].
      destruct (Nat.eqb (id r) (id r0)); [exact Hen | exact Hts].
    + intros x. destruct (Nat.eqb (id x) (id r0)); reflexivity.
  - apply insert_row_ok in H. destruct H as (Ht & _). rewrite Ht, Hd.
    unfold lookup. rewrite find_app.
    fold (lookup key (table (disk m))). rewrite Hr. eauto.
Qed.

Lemma forEach_stamp B e rateMap now cs m m' key :
  (exists r, lookup key (table (disk m)) = Some r /\
             last_refreshed_at (cols r) = now) ->
  forEach (refresh_country B e rateMap now) cs m = (Ok tt, m') ->
  exists r, lookup key (table (disk m')) = Some r /\
            last_refreshed_at (cols r) = now.
Proof.
  revert m. induction cs as [|c cs IH]; intros m Hr H.
  - inversion H; subst. exact Hr.
  - cbn [forEach] in H. apply bind_ok in H.
    destruct H as ([] & m1 & Hc & H).
    apply (IH m1); [| exact H].
    apply refresh_country_ok in Hc. destruct Hc as (en & m0 & Hen & Hd & Hup).
    eapply upsert_stamp; [eapply entry_of_stamp; exact Hen | | exact Hup].
    rewrite Hd. exact Hr.
Qed.

(** C8. After a refresh that answered 200, the response carries the
    timestamp [now] of the run (in ISO form); every row of the table
    is either a row the table already had, or carries
    [last_refreshed_at = now]; and every country of the input has its
    row, stamped [now]. *)
Theorem one_timestamp_per_refresh B e s resp s' :
  post_countries_refresh B e s = (resp, s') ->
  status resp = 200%nat ->
  payload resp =
    JsonRefresh "Refresh completed" (List.length (table s'))
      (toISOString B (clock e)) /\
  (forall r, In r (table s') ->
     In r (table s) \/ last_refreshed_at (cols r) = clock e) /\
  (forall countries rates cs c,
     fetch e = Fetched countries rates ->
     iterate countries = Ok cs ->
     In c cs ->
     exists r, stored_for B c (table s') = Some r /\
               last_refreshed_at (cols r) = clock e).
Proof.
  intros Hpost Hst.
  destruct (refresh_200 _ _ _ _ _ Hpost Hst)
    as (countries0 & rates0 & rateMap & cs0 & m1 & m2 &
        Hfetch0 & _ & _ & Hit0 & _ & _ & Hloop & Htab & Hresp).
  split; [rewrite Hresp; reflexivity|]. split.
  - replace s' with (snd (post_countries_refresh B e s))
      by (rewrite Hpost; reflexivity).
    apply (refresh_keeps B e
             (fun s0 => forall r, In r (table s0) ->
                In r (table s) \/ last_refreshed_at (cols r) = clock e)
             (fun en => last_refreshed_at en = clock e)).
    + intros rm c m en m'. apply entry_of_stamp.
    + auto.
    + auto.
    + intros s0 en i Hen H r Hr. cbn in Hr. apply in_map_iff in Hr.
      destruct Hr as (r0 & <- & Hr0).
      destruct (Nat.eqb (id r0) i); [right; exact Hen | apply H, Hr0].
    + intros s0 en Hen _ H r Hr. cbn in Hr. apply in_app_iff in Hr.
      destruct Hr as [Hr | [<- | []]]; [apply H, Hr | right; exact Hen].
    + auto.
  - intros countries rates cs c Hfetch Hit Hin.
    rewrite Hfetch in Hfetch0. inversion Hfetch0; subst countries0 rates0.
    rewrite Hit in Hit0. inversion Hit0; subst cs0.
    apply in_split in Hin. destruct Hin as (pre & suf & ->).
    apply forEach_app in Hloop. destruct Hloop as (ma & _ & Hloop).
    cbn [forEach] in Hloop. apply bind_ok in Hloop.
    destruct Hloop as ([] & mb & Hc & Hsuf).
    apply refresh_country_ok in Hc. destruct Hc as (en & m0 & Hen & _ & Hup).
    pose proof (entry_of_key _ _ _ _ _ _ _ _ Hen) as Hkey.
    pose proof (entry_of_stamp _ _ _ _ _ _ _ _ Hen) as Hstamp.
    apply upsert_written in Hup. destruct Hup as (r & Hr & Hcols).
    unfold stored_for. rewrite Hkey, Htab.
    eapply forEach_stamp; [| exact Hsuf].
    exists r. split; [exact Hr|]. rewrite <- Hcols. exact Hstamp.
Qed.

(** ** A failing renderer *)

Lemma agree_refl {A} (x : outcome A * machine) : agree x x.
Proof. unfold agree. auto 10. Qed.

Lemma bind_agree {A C} (c : M A) (k1 k2 : A -> M C) m :
  (forall a m1, agree (k1 a m1) (k2 a m1)) ->
  agree (bind c k1 m) (bind c k2 m).
Proof.
  intros Hk. unfold bind. destruct (c m) as [[a|x] m1].
  - apply Hk.
  - apply agree_refl.
Qed.

Ltac same_step :=
  match goal with
  | |- agree (bind ?c1 _ _) (bind ?c2 _ _) =>
      change c1 with c2; apply bind_agree; intros
  end.

(** With Jimp failing, the [try] block of the refresh handler runs
    as it does otherwise, up to the image file. *)
Lemma refresh_try_agree B e msg m :
  agree (refresh_try B (failing_jimp msg e) m) (refresh_try B e m).
Proof.
  unfold refresh_try. same_step. cbn [fst snd].
  destruct (negb (truthy (snd a))); [apply agree_refl|].
  same_step.
  destruct (negb (truthy a0)); [apply agree_refl|].
  do 8 same_step.
  unfold bind.
  match goal with
  | |- agree (match generateSummaryImage ?e1 ?total ?top ?ts ?m0 with _ => _ end)
             (match generateSummaryImage ?e2 _ _ ?ts2 _ with _ => _ end) =>
      destruct (generateSummaryImage_returns e1 total top ts m0)
        as (x1 & Hx1 & _ & _ & H1);
      destruct (generateSummaryImage_returns e2 total top ts2 m0)
        as (x2 & Hx2 & _ & _ & H2);
      rewrite Hx1, Hx2
  end.
  unfold agree in *. cbn in *.
  decompose [and] H1. decompose [and] H2.
  repeat split; congruence.
Qed.

(** A failure of Jimp inside [generateSummaryImage] is caught
    there: the renderer returns normally and changes nothing.  It
    does not show in the answer of [POST /countries/refresh]: with
    Jimp failing, the handler gives the very response it gives
    otherwise and writes the same table; the image file stays as it
    was. *)
Lemma jimp_failure_is_swallowed B e s msg :
  let broken := post_countries_refresh B (failing_jimp msg e) s in
  let working := post_countries_refresh B e s in
  (forall total top timestamp m,
     generateSummaryImage (failing_jimp msg e) total top timestamp m
       = (Ok tt, m)) /\
  fst broken = fst working /\
  table (snd broken) = table (snd working) /\
  image (snd broken) = image s.
Proof.
  cbv zeta. split; [| split; [| split]].
  - intros total top timestamp m. reflexivity.
  - unfold post_countries_refresh, handler.
    pose proof (refresh_try_agree B e msg (start s)) as H.
    destruct (refresh_try B (failing_jimp msg e) (start s)) as [[r1|x1] m1],
             (refresh_try B e (start s)) as [[r2|x2] m2];
      unfold agree in H; cbn in H; destruct H as (H & _);
      inversion H; subst; reflexivity.
  - unfold post_countries_refresh, handler.
    pose proof (refresh_try_agree B e msg (start s)) as H.
    destruct (refresh_try B (failing_jimp msg e) (start s)) as [[r1|x1] m1],
             (refresh_try B e (start s)) as [[r2|x2] m2];
      unfold agree in H; cbn in H;
      destruct H as (H & Ht & _ & Htxn & Hconn & _);
      inversion H; subst; cbn; [exact Ht|].
    unfold rollback. rewrite Hconn, Htxn.
    destruct (conn m2); [| exact Ht].
    destruct (txn m2); [reflexivity | exact Ht].
  - apply (refresh_keeps B (failing_jimp msg e)
             (fun s0 => image s0 = image s) (fun _ => True)); auto.
    cbn. discriminate.
Qed.

(** ** The sibling server file on the same inputs *)

(** There a country without currency entries gets [estimated_gdp]
    null, not 0. *)
Example sibling_no_currency_gdp_null :
  option_map (fun r => estimated_gdp (cols r))
    (stored_for Sample.B Sample.bouvet
       (table (snd (Sibling.post_countries_refresh Sample.B
                      (Sample.quiet Sample.world Sample.rates) Sample.empty))))
  = Some None.
Proof. vm_compute. reflexivity. Qed.

(** There the message of the exception is sent to the client. *)
Example sibling_sends_exception_message :
  fst (Sibling.post_countries_refresh Sample.B
         (Sample.db_down Sample.world Sample.rates) Sample.empty)
  = {| status := 503;
       payload := JsonError "External data source unavailable"
                    (Some "connect ECONNREFUSED 127.0.0.1:3306") |}.
Proof. vm_compute. reflexivity. Qed.

(** ** The statements at the sample data *)

Lemma sample_ids_ok : ids_ok Sample.empty.
Proof. split; constructor. Defined.

Lemma estimated_gdp_formula_witness :
  exists r,
    stored_for Sample.B Sample.nigeria (table Sample.refreshed) = Some r /\
    population (cols r) = Some (Num.ofZ 206139589) /\
    exchange_rate (cols r) = Some (Num.ofZ 1500) /\
    exists multiplier : Z,
      1000 <= multiplier <= 2000 /\
      estimated_gdp (cols r) =
        Some (Num.div (Num.mul (Num.ofZ 206139589) (Num.ofZ multiplier))
                (Num.ofZ 1500)).
Proof.
  refine (proj2 (estimated_gdp_formula Sample.B
                   (Sample.quiet Sample.world Sample.rates)
                   Sample.rateMap Sample.nigeria (VStr "NGN")
                   (VNum (Num.ofZ 1500)) (Num.ofZ 206139589)
                   eq_refl eq_refl eq_refl eq_refl eq_refl eq_refl)
            Sample.empty _ _ Sample.world Sample.rates
            [] [Sample.bouvet; Sample.cuba; Sample.atlantis]
            (surjective_pairing _) _ eq_refl eq_refl eq_refl
            sample_ids_ok _).
  - vm_compute. reflexivity.
  - repeat constructor; intros H; vm_compute in H; discriminate H.
Defined.

Lemma no_population_gdp_null_witness :
  let e := Sample.quiet (VArr [Sample.atlantis; Sample.nigeria]) Sample.rates in
  exists r,
    stored_for Sample.B Sample.atlantis
      (table (snd (post_countries_refresh Sample.B e Sample.empty))) = Some r /\
    estimated_gdp (cols r) = None.
Proof.
  cbv zeta.
  refine (proj2 (no_population_gdp_null Sample.B
                   (Sample.quiet (VArr [Sample.atlantis; Sample.nigeria])
                      Sample.rates)
                   Sample.rateMap Sample.atlantis (VStr "NGN") (Some NaN)
                   eq_refl eq_refl eq_refl (or_intror eq_refl))
            Sample.empty _ _ (VArr [Sample.atlantis; Sample.nigeria])
            Sample.rates [] [Sample.nigeria]
            (surjective_pairing _) _ eq_refl eq_refl eq_refl
            sample_ids_ok _).
  - vm_compute. reflexivity.
  - repeat constructor; intros H; vm_compute in H; discriminate H.
Defined.

(** C1, as stated, fails on a country whose lowercased name a later
    country of the input shares: [Aland] has currency NGN, rate 1500
    and population 30000, and the row stored under its key carries
    what the refresh has computed for [ALAND], rate 1 and estimate
    3000. *)
Lemma valid_rate_overwritten :
  let e := Sample.quiet (VArr [Sample.aland; Sample.ALAND]) Sample.rates in
  let out := post_countries_refresh Sample.B e Sample.empty in
  currency_code_of Sample.B Sample.aland = Ok (VStr "NGN") /\
  prop Sample.B Sample.rateMap "NGN" = Ok (VNum (Num.ofZ 1500)) /\
  population_of Sample.B Sample.aland = Ok (Some (Num.ofZ 30000)) /\
  status (fst out) = 200%nat /\
  exists r,
    stored_for Sample.B Sample.aland (table (snd out)) = Some r /\
    exchange_rate (cols r) = Some (Num.ofZ 1) /\
    estimated_gdp (cols r) = Some (Num.ofZ 3000) /\
    exchange_rate (cols r) <> Some (Num.ofZ 1500).
Proof.
  cbv zeta.
  split; [reflexivity|]. split; [reflexivity|]. split; [reflexivity|].
  split; [vm_compute; reflexivity|].
  vm_compute. eexists. split; [reflexivity|]. split; [reflexivity|].
  split; [reflexivity | discriminate].
Qed.

(** C2, as stated, fails on a country with neither population nor
    currency entries: its population is missing, and it is stored
    with [estimated_gdp] 0, not null.  It also fails on a country
    whose lowercased name a later country of the input shares:
    [Aland] has no population, and the row stored under its key
    carries the estimate 3000 of [ALAND]. *)
Lemma missing_population_gdp_zero :
  (population_of Sample.B Sample.bouvet = Ok None /\
   status (fst (post_countries_refresh Sample.B
                  (Sample.quiet Sample.world Sample.rates) Sample.empty))
     = 200%nat /\
   exists r,
     stored_for Sample.B Sample.bouvet (table Sample.refreshed) = Some r /\
     estimated_gdp (cols r) = Some (Num.ofZ 0) /\
     estimated_gdp (cols r) <> None) /\
  (let e := Sample.quiet (VArr [Sample.aland_no_population; Sample.ALAND])
              Sample.rates in
   let out := post_countries_refresh Sample.B e Sample.empty in
   currency_code_of Sample.B Sample.aland_no_population = Ok (VStr "NGN") /\
   population_of Sample.B Sample.aland_no_population = Ok None /\
   status (fst out) = 200%nat /\
   exists r,
     stored_for Sample.B Sample.aland_no_population (table (snd out)) = Some r /\
     estimated_gdp (cols r) = Some (Num.ofZ 3000) /\
     estimated_gdp (cols r) <> None).
Proof.
  split.
  - split; [reflexivity|]. split; [vm_compute; reflexivity|].
    vm_compute. eexists. split; [reflexivity|].
    split; [reflexivity | discriminate].
  - cbv zeta. split; [reflexivity|]. split; [reflexivity|].
    split; [vm_compute; reflexivity|].
    vm_compute. eexists. split; [reflexivity|].
    split; [reflexivity | discriminate].
Qed.

(** C3, as stated, fails on a country whose lowercased name a later
    country of the input shares: [Aland] has no currency entry, and
    the row stored under its key carries the rate 1 and the estimate
    3000 of [ALAND]. *)
Lemma no_currency_overwritten :
  let e := Sample.quiet (VArr [Sample.aland_no_currency; Sample.ALAND])
             Sample.rates in
  let out := post_countries_refresh Sample.B e Sample.empty in
  no_currency_entries Sample.B Sample.aland_no_currency = true /\
  status (fst out) = 200%nat /\
  exists r,
    stored_for Sample.B Sample.aland_no_currency (table (snd out)) = Some r /\
    exchange_rate (cols r) = Some (Num.ofZ 1) /\
    estimated_gdp (cols r) = Some (Num.ofZ 3000) /\
    exchange_rate (cols r) <> None /\
    estimated_gdp (cols r) <> Some (Num.ofZ 0).
Proof.
  cbv zeta. split; [reflexivity|]. split; [vm_compute; reflexivity|].
  vm_compute. eexists. split; [reflexivity|]. split; [reflexivity|].
  split; [reflexivity|]. split; discriminate.
Qed.

(** C4, as stated, fails on a country whose currency code names a
    member that the rate mapping inherits: [constructor] is no rate
    of the mapping, line 217 finds [Object] under it, and the loop
    builds [exchange_rate] and [estimated_gdp] [NaN].  It also fails
    on a country whose lowercased name a later country of the input
    shares: the currency XYZ of [Aland] has no rate, and the row
    stored under its key carries the rate 1 and the estimate 3000 of
    [ALAND]. *)
Lemma unknown_currency_not_null :
  (currency_code_of Sample.B Sample.utopia = Ok (VStr "constructor") /\
   assoc "constructor"
     [ ("NGN", VNum (Num.ofZ 1500)); ("USD", VNum (Num.ofZ 1)) ] = None /\
   exists en,
     fst (entry_of Sample.B (Sample.quiet (VArr [Sample.utopia]) Sample.rates)
            Sample.rateMap Sample.now Sample.utopia (start Sample.empty))
       = Ok en /\
     exchange_rate en = Some NaN /\ estimated_gdp en = Some NaN) /\
  (let e := Sample.quiet (VArr [Sample.aland_unknown_currency; Sample.ALAND])
              Sample.rates in
   let out := post_countries_refresh Sample.B e Sample.empty in
   currency_code_of Sample.B Sample.aland_unknown_currency = Ok (VStr "XYZ") /\
   prop Sample.B Sample.rateMap "XYZ" = Ok VUndefined /\
   status (fst out) = 200%nat /\
   exists r,
     stored_for Sample.B Sample.aland_unknown_currency (table (snd out))
       = Some r /\
     exchange_rate (cols r) = Some (Num.ofZ 1) /\
     estimated_gdp (cols r) = Some (Num.ofZ 3000) /\
     exchange_rate (cols r) <> None /\
     estimated_gdp (cols r) <> None).
Proof.
  split.
  - split; [reflexivity|]. split; [reflexivity|].
    vm_compute. eexists. split; [reflexivity|]. split; reflexivity.
  - cbv zeta. split; [reflexivity|]. split; [reflexivity|].
    split; [vm_compute; reflexivity|].
    vm_compute. eexists. split; [reflexivity|]. split; [reflexivity|].
    split; [reflexivity|]. split; discriminate.
Qed.

Lemma no_currency_gdp_zero_witness :
  exists r,
    stored_for Sample.B Sample.bouvet (table Sample.refreshed) = Some r /\
    exchange_rate (cols r) = None /\
    estimated_gdp (cols r) = Some (Num.ofZ 0).
Proof.
  refine (proj2 (no_currency_gdp_zero Sample.B
                   (Sample.quiet Sample.world Sample.rates)
                   Sample.rateMap Sample.bouvet eq_refl)
            Sample.empty _ _ Sample.world Sample.rates
            [Sample.nigeria] [Sample.cuba; Sample.atlantis]
            (surjective_pairing _) _ eq_refl eq_refl eq_refl
            sample_ids_ok _).
  - vm_compute. reflexivity.
  - repeat constructor; intros H; vm_compute in H; discriminate H.
Defined.

Lemma unknown_currency_both_null_witness :
  exists r,
    stored_for Sample.B Sample.cuba (table Sample.refreshed) = Some r /\
    exchange_rate (cols r) = None /\
    estimated_gdp (cols r) = None.
Proof.
  refine (proj2 (unknown_currency_both_null Sample.B
                   (Sample.quiet Sample.world Sample.rates)
                   Sample.rateMap Sample.cuba (VStr "CUC") VUndefined
                   eq_refl eq_refl eq_refl eq_refl)
            Sample.empty _ _ Sample.world Sample.rates
            [Sample.nigeria; Sample.bouvet] [Sample.atlantis]
            (surjective_pairing _) _ eq_refl eq_refl eq_refl
            sample_ids_ok _).
  - vm_compute. reflexivity.
  - repeat constructor; intros H; vm_compute in H; discriminate H.
Defined.

Lemma serve_refresh B e s :
  serve B e PostRefresh s = post_countries_refresh B e s.
Proof. reflexivity. Defined.

Lemma sample_reachable : reachable Sample.B Sample.refreshed.
Proof.
  unfold Sample.refreshed. rewrite <- serve_refresh.
  apply reach_serve. apply (reach_empty Sample.B 1).
Defined.

Lemma name_lower_in_sync_witness :
  exists r,
    hd_error (table Sample.refreshed) = Some r /\
    name (cols r) = VStr "Nigeria" /\
    name_lower (cols r) = "nigeria" /\
    in_sync Sample.B (cols r).
Proof.
  eexists. split; [vm_compute; reflexivity|].
  split; [reflexivity|]. split; [reflexivity|].
  apply (name_lower_in_sync Sample.B Sample.refreshed).
  - exact sample_reachable.
  - vm_compute. left. reflexivity.
Defined.


Lemma database_failure_answers_503_witness :
  post_countries_refresh Sample.B
    (Sample.db_down Sample.world Sample.rates) Sample.empty =
    ({| status := 503;
        payload := JsonError "External data source unavailable"
                     (Some "External data source unavailable") |},
     Sample.empty).
Proof.
  exact (database_failure_answers_503 Sample.B
           (Sample.db_down Sample.world Sample.rates) Sample.empty
           Sample.world Sample.rates Sample.rateMap
           "connect ECONNREFUSED 127.0.0.1:3306"
           eq_refl eq_refl eq_refl eq_refl eq_refl).
Defined.

Lemma one_timestamp_per_refresh_witness :
  payload (fst (post_countries_refresh Sample.B
                  (Sample.quiet Sample.world Sample.rates) Sample.empty))
    = JsonRefresh "Refresh completed" 4 "2023-11-14T22:13:20.000Z" /\
  Forall (fun r => last_refreshed_at (cols r) = Sample.now)
    (table Sample.refreshed).
Proof.
  unfold Sample.refreshed.
  destruct (one_timestamp_per_refresh Sample.B
              (Sample.quiet Sample.world Sample.rates) Sample.empty _ _
              (surjective_pairing _))
    as (Hpayload & Hrows & _).
  - vm_compute. reflexivity.
  - split.
    + rewrite Hpayload. vm_compute. reflexivity.
    + apply Forall_forall. intros r Hr.
      destruct (Hrows r Hr) as [[] | Hnow]. exact Hnow.
Defined.

Lemma lookup_any_casing_witness :
  exists r,
    hd_error (table Sample.refreshed) = Some r /\
    get_country Sample.B (Sample.quiet Sample.world Sample.rates)
      "NIGERIA" Sample.refreshed
      = ({| status := 200; payload := JsonRow r |}, Sample.refreshed) /\
    exists s',
      delete_country Sample.B (Sample.quiet Sample.world Sample.rates)
        "NIGERIA" Sample.refreshed
        = ({| status := 204; payload := NoBody |}, s') /\
      ~ In r (table s') /\
      (forall x, In x (table Sample.refreshed) -> x <> r -> In x (table s')).
Proof.
  eexists. split; [vm_compute; reflexivity|].
  apply (lookup_any_casing Sample.B (Sample.quiet Sample.world Sample.rates)
           Sample.refreshed _ "Nigeria" "NIGERIA").
  - exact sample_reachable.
  - vm_compute. left. reflexivity.
  - reflexivity.
  - reflexivity.
  - reflexivity.
Defined.

(** With Jimp out of order the sample refresh still answers 200, and
    no image is written. *)
Example refresh_without_jimp :
  let run := post_countries_refresh Sample.B
               (Sample.no_jimp Sample.world Sample.rates) Sample.empty in
  fst run = {| status := 200;
               payload := JsonRefresh "Refresh completed" 4
                            "2023-11-14T22:13:20.000Z" |} /\
  List.length (table (snd run)) = 4%nat /\
  image (snd run) = None.
Proof. vm_compute. auto. Qed.

(** * Further properties of the code *)

(** ** [randInt] *)

(** X1. [randInt(1000, 2000)], the one call of [randInt] that the
    server files make, returns in double arithmetic an integer
    between 1000 and 2000, whatever multiple of 2^-53 in [0, 1)
    [Math.random] hands out; both ends are reached. *)
Theorem randInt_in_range :
  (forall raw : N,
     exists n : Z,
       1000 <= n <= 2000 /\
       randInt (Num.ofZ 1000) (Num.ofZ 2000) (Math_random raw) = Num.ofZ n) /\
  randInt (Num.ofZ 1000) (Num.ofZ 2000) (Math_random 0) = Num.ofZ 1000 /\
  randInt (Num.ofZ 1000) (Num.ofZ 2000) (Math_random 9007199254740991)
    = Num.ofZ 2000.
Proof.
  split; [exact randInt_1000_2000|].
  split; vm_compute; reflexivity.
Qed.

(** A draw whose product, 22.99999999999999997, lies closer to 23
    than to the double below it: the multiplication rounds it up,
    and the multiplier is 1023, not 1022. *)
Example randInt_rounds_up :
  randInt (Num.ofZ 1000) (Num.ofZ 2000) (Math_random 206958624234808)
  = Num.ofZ 1023.
Proof. vm_compute. reflexivity. Qed.

(** ** All or nothing *)

Lemma bind_inv {A C} (c : M A) (k : A -> M C) m o m' :
  bind c k m = (o, m') ->
  (exists a m1, c m = (Ok a, m1) /\ k a m1 = (o, m')) \/
  (exists x, c m = (Throw x, m') /\ o = Throw x).
Proof.
  unfold bind. destruct (c m) as [[a|x] m1]; intros H.
  - left. eauto.
  - right. inversion H; subst. eauto.
Qed.

Lemma lift_inv {A} (o0 : outcome A) m o m' :
  lift o0 m = (o, m') -> o = o0 /\ m' = m.
Proof. destruct o0; cbn; intros H; inversion H; auto. Qed.

Lemma getConnection_inv e m o m' :
  getConnection e m = (o, m') ->
  disk m' = disk m /\ txn m' = txn m /\
  (o = Ok tt /\ conn m' = true \/ (exists x, o = Throw x)).
Proof.
  unfold getConnection, bind, db_call.
  destruct (db_fault e (db_calls m)); intros H; inversion H; subst; cbn; eauto 6.
Qed.

Lemma beginTransaction_inv e m o m' :
  beginTransaction e m = (o, m') ->
  disk m' = disk m /\ conn m' = conn m /\
  (o = Ok tt /\ txn m' = Some (table (disk m)) \/
   (exists x, o = Throw x) /\ txn m' = txn m).
Proof.
  unfold beginTransaction, bind, db_call.
  destruct (db_fault e (db_calls m)); intros H; inversion H; subst; cbn; eauto 7.
Qed.

Lemma commit_inv e m o m' :
  commit e m = (o, m') ->
  disk m' = disk m /\ conn m' = conn m /\
  (o = Ok tt /\ txn m' = None \/
   (exists x, o = Throw x) /\ txn m' = txn m).
Proof.
  unfold commit, bind, db_call.
  destruct (db_fault e (db_calls m)); intros H; inversion H; subst; cbn; eauto 7.
Qed.

Lemma in_transaction_read_only {A} t i (c : M A) :
  read_only c -> preserves (in_transaction t i) c.
Proof.
  apply preserves_read_only.
  unfold in_transaction. intros m m' (H1 & H2 & H3) Hd Ht Hc.
  rewrite Hd, Ht, Hc. auto.
Qed.

Lemma in_transaction_update_row e t i en j :
  preserves (in_transaction t i) (update_row e en j).
Proof.
  intros m r m' (H1 & H2 & H3) H.
  unfold update_row, bind, db_call, with_disk in H.
  destruct (db_fault e (db_calls m)); inversion H; subst;
    unfold in_transaction; cbn; auto.
Qed.

Lemma in_transaction_insert_row e t i en :
  preserves (in_transaction t i) (insert_row e en).
Proof.
  intros m r m' (H1 & H2 & H3) H.
  unfold insert_row, bind, db_call, with_disk in H.
  destruct (db_fault e (db_calls m)); inversion H; subst;
    unfold in_transaction; cbn; auto.
Qed.

(** The loop body stays inside the transaction and off the image
    file, whether it returns or throws. *)
Lemma in_transaction_refresh_country B e t i rateMap now c :
  preserves (in_transaction t i) (refresh_country B e rateMap now c).
Proof.
  unfold refresh_country.
  apply preserves_bind;
    [apply in_transaction_read_only, read_only_entry_of | intros en].
  unfold upsert.
  apply preserves_bind;
    [apply in_transaction_read_only, read_only_select_id | intros [j|]].
  - apply in_transaction_update_row.
  - apply in_transaction_insert_row.
Qed.

(** Where a run of the [try] block of the refresh handler can end:
    before the transaction, with the store untouched; inside it, by
    an exception; or after the commit of the whole loop. *)
Lemma refresh_try_phases B e s o m :
  refresh_try B e (start s) = (o, m) ->
  (disk m = s /\ txn m = None /\ (forall r, o = Ok r -> status r = 503%nat)) \/
  (in_transaction (table s) (image s) m /\ exists x, o = Throw x) \/
  (txn m = None /\
   exists countries rates rateMap cs m1 m2,
     fetch e = Fetched countries rates /\
     prop B rates "rates" = Ok rateMap /\
     iterate countries = Ok cs /\
     disk m1 = s /\
     forEach (refresh_country B e rateMap (clock e)) cs m1 = (Ok tt, m2) /\
     table (disk m) = table (disk m2)).
Proof.
  intros H. unfold refresh_try in H.
  apply bind_inv in H. destruct H as [(fetched & m0 & Hf & H) | (x & Hf & ->)].
  2:{ left. apply read_only_fetchExternalData in Hf.
      destruct Hf as (Hd & Ht & _). cbn in Hd, Ht.
      repeat split; auto. discriminate. }
  unfold fetchExternalData in Hf.
  destruct (fetch e) as [countries rates|] eqn:Hfetch; [| discriminate Hf].
  apply ret_ok in Hf. destruct Hf as [-> ->]. cbn [fst snd] in H.
  destruct (truthy rates) eqn:Hrates; cbn [negb] in H.
  2:{ left. inversion H; subst. cbn. repeat split; auto.
      intros r Hr; inversion Hr; reflexivity. }
  apply bind_inv in H. destruct H as [(rateMap & m0 & Hp & H) | (x & Hp & ->)].
  2:{ left. apply lift_inv in Hp. destruct Hp as [_ ->].
      repeat split; auto. discriminate. }
  apply lift_inv in Hp. destruct Hp as [Hp ->]. symmetry in Hp.
  destruct (truthy rateMap) eqn:Hmap; cbn [negb] in H.
  2:{ left. inversion H; subst. cbn. repeat split; auto.
      intros r Hr; inversion Hr; reflexivity. }
  apply bind_inv in H. destruct H as [([] & m0 & Hconn & H) | (x & Hconn & ->)];
    apply getConnection_inv in Hconn; destruct Hconn as (Hd0 & Ht0 & Hc0);
    cbn in Hd0, Ht0.
  2:{ left. repeat split; auto. discriminate. }
  destruct Hc0 as [[_ Hc0] | [x Hx]]; [| discriminate Hx].
  apply bind_inv in H. destruct H as [([] & m1 & Hbegin & H) | (x & Hbegin & ->)];
    apply beginTransaction_inv in Hbegin;
    destruct Hbegin as (Hd1 & Hc1 & Hbegin).
  2:{ left. destruct Hbegin as [[Hx _] | [_ Ht1]]; [discriminate Hx|].
      repeat split; first [congruence | discriminate]. }
  destruct Hbegin as [[_ Ht1] | [[x Hx] _]]; [| discriminate Hx].
  assert (Hin1 : in_transaction (table s) (image s) m1).
  { unfold in_transaction. rewrite Ht1, Hc1, Hd1, Hd0. auto. }
  assert (Hdisk1 : disk m1 = s) by congruence.
  apply bind_inv in H. destruct H as [(cs & m1' & Hit & H) | (x & Hit & ->)];
    apply lift_inv in Hit; destruct Hit as [Hit ->]; symmetry in Hit.
  2:{ right; left. eauto. }
  apply bind_inv in H. destruct H as [([] & m2 & Hloop & H) | (x & Hloop & ->)].
  2:{ right; left. split; [| eauto].
      eapply (preserves_forEach (I := in_transaction (table s) (image s)));
        [| exact Hin1 | exact Hloop].
      intros c. apply in_transaction_refresh_country. }
  assert (Hin2 : in_transaction (table s) (image s) m2).
  { eapply (preserves_forEach (I := in_transaction (table s) (image s)));
      [| exact Hin1 | exact Hloop].
    intros c. apply in_transaction_refresh_country. }
  apply bind_inv in H. destruct H as [([] & m3 & Hcommit & H) | (x & Hcommit & ->)];
    apply commit_inv in Hcommit; destruct Hcommit as (Hd3 & Hc3 & Hcommit).
  2:{ right; left. destruct Hcommit as [[Hx _] | [_ Ht3]]; [discriminate Hx|].
      split; [| eauto]. destruct Hin2 as (H1 & H2 & H3).
      unfold in_transaction. rewrite Ht3, Hc3, Hd3. auto. }
  destruct Hcommit as [[_ Ht3] | [[x Hx] _]]; [| discriminate Hx].
  assert (Hdone : forall m', disk m' = disk m3 -> txn m' = txn m3 ->
    txn m' = None /\
    exists countries rates rateMap cs m1 m2,
      fetch e = Fetched countries rates /\
      prop B rates "rates" = Ok rateMap /\
      iterate countries = Ok cs /\
      disk m1 = s /\
      forEach (refresh_country B e rateMap (clock e)) cs m1 = (Ok tt, m2) /\
      table (disk m') = table (disk m2)).
  { intros m' Hd' Ht'. split; [congruence|].
    exists countries, rates, rateMap, cs, m1, m2.
    repeat split; auto. congruence. }
  right; right. rewrite <- Hfetch.
  apply bind_inv in H. destruct H as [([] & m4 & Hdir & H) | (x & Hdir & ->)];
    apply read_only_ensureCacheDir in Hdir; destruct Hdir as (Hd4 & Ht4 & _).
  2:{ apply Hdone; assumption. }
  apply bind_inv in H. destruct H as [(total & m5 & Hcount & H) | (x & Hcount & ->)];
    apply read_only_count_rows in Hcount; destruct Hcount as (Hd5 & Ht5 & _).
  2:{ apply Hdone; congruence. }
  apply bind_inv in H. destruct H as [(top & m6 & Htop & H) | (x & Htop & ->)];
    apply read_only_top_rows in Htop; destruct Htop as (Hd6 & Ht6 & _).
  2:{ apply Hdone; congruence. }
  destruct (generateSummaryImage_returns e total top (clock e) m6)
    as (m7 & Hg & Htab & _ & Hag).
  apply bind_inv in H. destruct H as [([] & m7' & Himg & H) | (x & Himg & ->)];
    rewrite Hg in Himg; [| discriminate Himg].
  inversion Himg; subst m7'. inversion H; subst.
  unfold agree in Hag. cbn in Hag. destruct Hag as (_ & _ & _ & Htxn & _).
  split; [congruence|].
  exists countries, rates, rateMap, cs, m1, m2.
  repeat split; auto. congruence.
Qed.

Lemma refresh_outcomes B e s :
  (table (snd (post_countries_refresh B e s)) = table s /\
   image (snd (post_countries_refresh B e s)) = image s /\
   status (fst (post_countries_refresh B e s)) = 503%nat) \/
  (exists countries rates rateMap cs m1 m2,
     fetch e = Fetched countries rates /\
     prop B rates "rates" = Ok rateMap /\
     iterate countries = Ok cs /\
     disk m1 = s /\
     forEach (refresh_country B e rateMap (clock e)) cs m1 = (Ok tt, m2) /\
     table (snd (post_countries_refresh B e s)) = table (disk m2)).
Proof.
  unfold post_countries_refresh, handler.
  destruct (refresh_try B e (start s)) as [[r|x] m] eqn:Hr;
    apply refresh_try_phases in Hr;
    destruct Hr as [(Hd & Ht & Hst) | [(Hin & y & Hy) | (Ht & Hfull)]]; cbn.
  - left. rewrite Hd. auto.
  - discriminate Hy.
  - right. exact Hfull.
  - left. unfold rollback. rewrite Ht.
    destruct (conn m); rewrite Hd; auto.
  - left. destruct Hin as (Ht & Hc & Hi). unfold rollback.
    rewrite Hc, Ht. cbn. auto.
  - right. unfold rollback. rewrite Ht.
    destruct (conn m); exact Hfull.
Qed.

(** ** The cache directory *)

Lemma refresh_200_steps B e s r m :
  refresh_try B e (start s) = (Ok r, m) ->
  status r = 200%nat ->
  exists countries rates rateMap cs ma m1 m2 m3,
    fetch e = Fetched countries rates /\
    truthy rates = true /\
    prop B rates "rates" = Ok rateMap /\
    truthy rateMap = true /\
    getConnection e (start s) = (Ok tt, ma) /\
    beginTransaction e ma = (Ok tt, m1) /\
    iterate countries = Ok cs /\
    forEach (refresh_country B e rateMap (clock e)) cs m1 = (Ok tt, m2) /\
    commit e m2 = (Ok tt, m3) /\
    table (disk m) = table (disk m3) /\
    next_id (disk m) = next_id (disk m3).
Proof.
  intros Hr Hst. unfold refresh_try in Hr.
  apply bind_ok in Hr. destruct Hr as (fetched & m0 & Hf & Hr).
  unfold fetchExternalData in Hf.
  destruct (fetch e) as [countries rates|] eqn:Hfetch; [| discriminate Hf].
  apply ret_ok in Hf. destruct Hf as [-> ->]. cbn [fst snd] in Hr.
  destruct (truthy rates) eqn:Hrates; cbn [negb] in Hr;
    [| apply ret_ok in Hr; destruct Hr as [-> _]; discriminate Hst].
  apply bind_ok in Hr. destruct Hr as (rateMap & m0 & Hp & Hr).
  apply lift_ok in Hp. destruct Hp as [Hp ->].
  destruct (truthy rateMap) eqn:Hmap; cbn [negb] in Hr;
    [| apply ret_ok in Hr; destruct Hr as [-> _]; discriminate Hst].
  apply bind_ok in Hr. destruct Hr as ([] & ma & Hconn & Hr).
  apply bind_ok in Hr. destruct Hr as ([] & m1 & Hbegin & Hr).
  apply bind_ok in Hr. destruct Hr as (cs & m1' & Hit & Hr).
  apply lift_ok in Hit. destruct Hit as [Hit ->].
  apply bind_ok in Hr. destruct Hr as ([] & m2 & Hloop & Hr).
  apply bind_ok in Hr. destruct Hr as ([] & m3 & Hcommit & Hr).
  apply bind_ok in Hr. destruct Hr as ([] & m4 & Hdir & Hr).
  apply bind_ok in Hr. destruct Hr as (total & m5 & Hcount & Hr).
  apply bind_ok in Hr. destruct Hr as (top & m6 & Htop & Hr).
  apply bind_ok in Hr. destruct Hr as ([] & m7 & Himg & Hr).
  apply ret_ok in Hr. destruct Hr as [_ ->].
  apply read_only_ensureCacheDir in Hdir. destruct Hdir as (Hd4 & _).
  apply count_rows_ok in Hcount. destruct Hcount as (_ & Hd5).
  apply read_only_top_rows in Htop. destruct Htop as (Hd6 & _).
  assert (Hd7 : table (disk m7) = table (disk m6) /\
                next_id (disk m7) = next_id (disk m6)).
  { unfold generateSummaryImage, try_catch, bind, jimp_draw, ensureCacheDir,
      write_image, with_disk in Himg.
    destruct (jimp_fault e); cbn in Himg;
      [inversion Himg; auto|].
    destruct (mkdir_fault e); cbn in Himg; inversion Himg; auto. }
  destruct Hd7 as [Ht7 Hn7].
  exists countries, rates, rateMap, cs, ma, m1, m2, m3.
  repeat split; try assumption; congruence.
Qed.

(** C10, on the code. Where the refresh would answer 200, a cache
    directory that is missing and cannot be made turns the answer
    into 503 "External data source unavailable" after the commit:
    the call [ensureCacheDir()] of line 264 stands outside the
    renderer and its [try], so the table is the committed one, no
    image is written, and the handler's [catch] answers. *)
Theorem cache_dir_failure_answers_503 B e s msg resp s1 :
  post_countries_refresh B e s = (resp, s1) ->
  status resp = 200%nat ->
  post_countries_refresh B (failing_mkdir msg e) s =
    ({| status := 503;
        payload := JsonError "External data source unavailable"
                     (Some "External data source unavailable") |},
     {| table := table s1; next_id := next_id s1; image := image s |}).
Proof.
  intros Hpost Hst. unfold post_countries_refresh, handler in Hpost.
  destruct (refresh_try B e (start s)) as [[r|x] m] eqn:Hr; cbn in Hpost;
    inversion Hpost; subst; clear Hpost; [| discriminate Hst].
  destruct (refresh_200_steps _ _ _ _ _ Hr Hst)
    as (countries & rates & rateMap & cs & ma & m1 & m2 & m3 &
        Hfetch & Hrates & Hp & Hmap & Hconn & Hbegin & Hit & Hloop &
        Hcommit & Htab & Hnext).
  assert (Hrun : refresh_try B (failing_mkdir msg e) (start s)
                 = (Throw (FsError msg), m3)).
  { unfold refresh_try.
    rewrite (bind_run _ _ (start s) (countries, rates) (start s));
      [| unfold fetchExternalData; cbn [fetch failing_mkdir];
         rewrite Hfetch; reflexivity].
    cbn [fst snd]. rewrite Hrates. cbn [negb].
    rewrite (bind_run _ _ (start s) rateMap (start s));
      [| rewrite Hp; reflexivity].
    rewrite Hmap. cbn [negb].
    change (getConnection (failing_mkdir msg e)) with (getConnection e).
    rewrite (bind_run _ _ _ _ _ Hconn).
    change (beginTransaction (failing_mkdir msg e)) with (beginTransaction e).
    rewrite (bind_run _ _ _ _ _ Hbegin).
    rewrite (bind_run _ _ m1 cs m1); [| rewrite Hit; reflexivity].
    change (refresh_country B (failing_mkdir msg e) rateMap
              (clock (failing_mkdir msg e)))
      with (refresh_country B e rateMap (clock e)).
    rewrite (bind_run _ _ _ _ _ Hloop).
    change (commit (failing_mkdir msg e)) with (commit e).
    rewrite (bind_run _ _ _ _ _ Hcommit).
    reflexivity. }
  unfold post_countries_refresh, handler. rewrite Hrun.
  apply commit_inv in Hcommit.
  destruct Hcommit as (Hd3 & _ & [[_ Ht3] | [[x Hx] _]]); [| discriminate Hx].
  assert (Himage : image (disk m2) = image s).
  { apply getConnection_inv in Hconn. destruct Hconn as (Hda & _ & Hca).
    destruct Hca as [[_ Hca] | [x Hx]]; [| discriminate Hx].
    apply beginTransaction_inv in Hbegin.
    destruct Hbegin as (Hd1 & Hc1 & [[_ Ht1] | [[x Hx] _]]); [| discriminate Hx].
    assert (Hin : in_transaction (table s) (image s) m1).
    { unfold in_transaction. rewrite Ht1, Hc1, Hd1, Hda. auto. }
    assert (Hin2 : in_transaction (table s) (image s) m2).
    { eapply (preserves_forEach (I := in_transaction (table s) (image s)));
        [| exact Hin | exact Hloop].
      intros c. apply in_transaction_refresh_country. }
    destruct Hin2 as (_ & _ & H). exact H. }
  unfold refresh_catch, rollback. rewrite Ht3.
  destruct (conn m3); cbn [fst snd];
    (f_equal; rewrite Htab, Hnext, <- Himage, <- Hd3;
     destruct (disk m3); reflexivity).
Qed.

Lemma cache_dir_failure_answers_503_witness :
  post_countries_refresh Sample.B
    (failing_mkdir "EACCES: permission denied, mkdir 'cache'"
       (Sample.quiet Sample.world Sample.rates))
    Sample.empty =
    ({| status := 503;
        payload := JsonError "External data source unavailable"
                     (Some "External data source unavailable") |},
     {| table := table Sample.refreshed;
        next_id := next_id Sample.refreshed;
        image := image Sample.empty |}).
Proof.
  unfold Sample.refreshed.
  apply (cache_dir_failure_answers_503 Sample.B
           (Sample.quiet Sample.world Sample.rates) Sample.empty
           "EACCES: permission denied, mkdir 'cache'" _ _
           (surjective_pairing _)).
  vm_compute. reflexivity.
Defined.

(** The sibling server file makes the directory inside the renderer
    only: on the same input it answers 200. *)
Example sibling_without_cache_dir :
  fst (Sibling.post_countries_refresh Sample.B
         (failing_mkdir "EACCES: permission denied, mkdir 'cache'"
            (Sample.quiet Sample.world Sample.rates))
         Sample.empty)
  = {| status := 200;
       payload := JsonRefresh "Refresh completed" 4
                    "2023-11-14T22:13:20.000Z" |}.
Proof. vm_compute. reflexivity. Qed.

(** X2. No refresh is applied in part.  After
    [POST /countries/refresh], whatever fails and wherever, either
    table and image file are what they were and the answer is 503,
    or the table is the one the complete loop over all countries
    has written. *)
Theorem refresh_all_or_nothing B e s :
  let resp := fst (post_countries_refresh B e s) in
  let s' := snd (post_countries_refresh B e s) in
  (table s' = table s /\ image s' = image s /\ status resp = 503%nat) \/
  (exists countries rates rateMap cs m1 m2,
     fetch e = Fetched countries rates /\
     prop B rates "rates" = Ok rateMap /\
     iterate countries = Ok cs /\
     disk m1 = s /\
     forEach (refresh_country B e rateMap (clock e)) cs m1 = (Ok tt, m2) /\
     table s' = table (disk m2)).
Proof. cbv zeta. apply refresh_outcomes. Qed.

(** X3. When a source fails, the refresh answers 503 and leaves the
    store alone; the details name the URL of the failing request
    when the error carries one, and are the general message
    otherwise. *)
Theorem refresh_fetch_failure B e s url msg :
  fetch e = FetchFailed url msg ->
  let details :=
    match url with
    | Some u => if (u =? "")%string then "External data source unavailable"
                else "Could not fetch data from " ++ u
    | None => "External data source unavailable"
    end in
  post_countries_refresh B e s =
    ({| status := 503;
        payload := JsonError "External data source unavailable" (Some details) |},
     s).
Proof.
  intros Hfetch.
  unfold post_countries_refresh, handler, refresh_try, bind, fetchExternalData.
  rewrite Hfetch. cbn.
  destruct url as [u|]; [| reflexivity].
  destruct (u =? "")%string; reflexivity.
Qed.

Lemma refresh_fetch_failure_witness :
  post_countries_refresh Sample.B Sample.rate_source_down Sample.refreshed =
    ({| status := 503;
        payload := JsonError "External data source unavailable"
          (Some "Could not fetch data from https://open.er-api.com/v6/latest/USD") |},
     Sample.refreshed).
Proof.
  exact (refresh_fetch_failure Sample.B Sample.rate_source_down Sample.refreshed
           (Some "https://open.er-api.com/v6/latest/USD")
           "Request failed with status code 500" eq_refl).
Defined.

(** ** One bad country *)

Lemma forEach_ok_each {A} (f : A -> M unit) (l : list A) m m' c :
  forEach f l m = (Ok tt, m') -> In c l ->
  exists ma mb, f c ma = (Ok tt, mb).
Proof.
  revert m. induction l as [|x l IH]; intros m H Hin; [contradiction|].
  cbn [forEach] in H. apply bind_ok in H. destruct H as ([] & m1 & Hx & H).
  destruct Hin as [-> | Hin]; [eauto | eapply IH; eassumption].
Qed.

(** X4. A country that is [null], or whose name is neither a string
    nor falsy, aborts the whole refresh: the answer is 503 and table
    and image file are what they were, also for the countries that
    came before it. *)
Theorem refresh_bad_country B e s countries rates cs c x :
  fetch e = Fetched countries rates ->
  iterate countries = Ok cs ->
  In c cs ->
  key_of B c = Throw x ->
  status (fst (post_countries_refresh B e s)) = 503%nat /\
  table (snd (post_countries_refresh B e s)) = table s /\
  image (snd (post_countries_refresh B e s)) = image s.
Proof.
  intros Hfetch Hit Hin Hkey.
  destruct (refresh_outcomes B e s) as [(Ht & Hi & Hst) | Hall]; [auto|].
  exfalso.
  destruct Hall as (countries0 & rates0 & rateMap & cs0 & m1 & m2 &
                    Hfetch0 & _ & Hit0 & _ & Hloop & _).
  rewrite Hfetch in Hfetch0. inversion Hfetch0; subst countries0 rates0.
  rewrite Hit in Hit0. inversion Hit0; subst cs0.
  destruct (forEach_ok_each _ _ _ _ _ Hloop Hin) as (ma & mb & Hc).
  apply refresh_country_ok in Hc. destruct Hc as (en & m0 & Hen & _).
  apply entry_of_key in Hen. congruence.
Qed.

Lemma refresh_bad_country_witness :
  let e := Sample.quiet (VArr [Sample.nigeria; Sample.numbered]) Sample.rates in
  status (fst (post_countries_refresh Sample.B e Sample.empty)) = 503%nat /\
  table (snd (post_countries_refresh Sample.B e Sample.empty)) = [] /\
  image (snd (post_countries_refresh Sample.B e Sample.empty)) = None.
Proof.
  cbv zeta.
  apply (refresh_bad_country Sample.B
           (Sample.quiet (VArr [Sample.nigeria; Sample.numbered]) Sample.rates)
           Sample.empty (VArr [Sample.nigeria; Sample.numbered]) Sample.rates
           [Sample.nigeria; Sample.numbered] Sample.numbered
           (TypeError "toLowerCase is not a function")).
  - reflexivity.
  - reflexivity.
  - right. left. reflexivity.
  - reflexivity.
Defined.

(** ** What a refresh does to the rows it finds *)

Lemma identity_update en i t :
  map identity
    (map (fun r => if Nat.eqb (id r) i
                   then {| id := id r; cols := assign en (cols r) |}
                   else r) t) = map identity t.
Proof.
  rewrite map_map. apply map_ext. intros r.
  destruct (Nat.eqb (id r) i); reflexivity.
Qed.

(** X5. A refresh only appends rows: whatever its outcome, the rows
    it found are still there, in their order, each with the id, the
    name and the [name_lower] it had. *)
Theorem refresh_only_appends B e s :
  exists added,
    map identity (table (snd (post_countries_refresh B e s)))
    = (map identity (table s) ++ added)%list.
Proof.
  apply (refresh_keeps B e
           (fun s0 => exists added,
              map identity (table s0) = (map identity (table s) ++ added)%list)
           (fun _ => True)); auto.
  - intros s0 en i _ (added & H). exists added. cbn.
    rewrite identity_update. exact H.
  - intros s0 en _ _ (added & H).
    exists (added ++ [identity {| id := next_id s0; cols := en |}])%list.
    cbn. rewrite map_app, H, <- app_assoc. reflexivity.
  - exists []. rewrite app_nil_r. reflexivity.
Qed.

Lemma lookup_in_keys key t :
  In key (map (fun r => name_lower (cols r)) t) ->
  exists r, lookup key t = Some r.
Proof.
  intros Hin. apply in_map_iff in Hin. destruct Hin as (r & Hk & Hr).
  destruct (lookup key t) as [r'|] eqn:Hl; [eauto|].
  exfalso. exact (lookup_none _ _ _ Hl Hr Hk).
Qed.

Lemma keys_of_identity t t' :
  map identity t = map identity t' ->
  map (fun r => name_lower (cols r)) t = map (fun r => name_lower (cols r)) t'.
Proof.
  intros H.
  assert (Hk : forall l, map (fun r => name_lower (cols r)) l
                         = map snd (map identity l)).
  { intros l. rewrite map_map. reflexivity. }
  rewrite !Hk, H. reflexivity.
Qed.

Lemma upsert_known e en m m' r0 :
  lookup (name_lower en) (table (disk m)) = Some r0 ->
  upsert e en m = (Ok tt, m') ->
  map identity (table (disk m')) = map identity (table (disk m)).
Proof.
  intros Hl H. unfold upsert in H.
  apply bind_ok in H. destruct H as (found & m1 & Hsel & H).
  apply select_id_ok in Hsel. destruct Hsel as (-> & Hd & _).
  rewrite Hl in H. cbn in H.
  apply update_row_ok in H. destruct H as (Ht & _).
  rewrite Ht, Hd. apply identity_update.
Qed.

Lemma forEach_known B e rateMap now cs : forall m m' t,
  map identity (table (disk m)) = map identity t ->
  (forall c, In c cs ->
     exists key, key_of B c = Ok key /\
                 In key (map (fun r => name_lower (cols r)) t)) ->
  forEach (refresh_country B e rateMap now) cs m = (Ok tt, m') ->
  map identity (table (disk m')) = map identity t.
Proof.
  induction cs as [|c cs IH]; intros m m' t Hm Hcs H.
  - inversion H; subst. exact Hm.
  - cbn [forEach] in H. apply bind_ok in H. destruct H as ([] & m1 & Hc & H).
    apply (IH m1 m' t); [| intros c' Hc'; apply Hcs; right; exact Hc' | exact H].
    apply refresh_country_ok in Hc. destruct Hc as (en & m0 & Hen & Hd & Hup).
    apply entry_of_key in Hen.
    destruct (Hcs c (or_introl eq_refl)) as (key & Hkey & Hin).
    rewrite Hen in Hkey. inversion Hkey; subst key.
    rewrite <- (keys_of_identity _ _ Hm), <- Hd in Hin.
    destruct (lookup_in_keys _ _ Hin) as (r0 & Hr0).
    rewrite (upsert_known _ _ _ _ _ Hr0 Hup), Hd. exact Hm.
Qed.

Lemma refresh_200_covers B e s resp s' countries rates cs c :
  post_countries_refresh B e s = (resp, s') ->
  status resp = 200%nat ->
  fetch e = Fetched countries rates ->
  iterate countries = Ok cs ->
  In c cs ->
  exists key r,
    key_of B c = Ok key /\
    In r (table s') /\
    name_lower (cols r) = key /\
    last_refreshed_at (cols r) = clock e.
Proof.
  intros Hpost Hst Hfetch Hit Hin.
  destruct (refresh_200 _ _ _ _ _ Hpost Hst)
    as (countries0 & rates0 & rateMap & cs0 & m1 & m2 &
        Hfetch0 & _ & _ & Hit0 & _ & _ & Hloop & Htab & _).
  rewrite Hfetch in Hfetch0. inversion Hfetch0; subst countries0 rates0.
  rewrite Hit in Hit0. inversion Hit0; subst cs0.
  apply in_split in Hin. destruct Hin as (pre & suf & ->).
  apply forEach_app in Hloop. destruct Hloop as (ma & _ & Hloop).
  cbn [forEach] in Hloop. apply bind_ok in Hloop.
  destruct Hloop as ([] & mb & Hc & Hsuf).
  apply refresh_country_ok in Hc. destruct Hc as (en & m0 & Hen & _ & Hup).
  pose proof (entry_of_key _ _ _ _ _ _ _ _ Hen) as Hkey.
  pose proof (entry_of_stamp _ _ _ _ _ _ _ _ Hen) as Hstamp.
  apply upsert_written in Hup. destruct Hup as (r & Hr & Hcols).
  destruct (forEach_stamp B e rateMap (clock e) suf mb m2 (name_lower en))
    as (r' & Hr' & Hts'); [| exact Hsuf |].
  - exists r. split; [exact Hr|]. rewrite <- Hcols. exact Hstamp.
  - apply lookup_some in Hr'. destruct Hr' as [Hin' Hk'].
    exists (name_lower en), r'. rewrite Htab. auto.
Qed.

(** X6. Refreshing again with the same countries adds no row: after
    a refresh that answered 200, a second refresh of the same list
    of countries, whatever the rates, the clock and its outcome,
    leaves the rows with their ids, names and keys, and inserts
    none. *)
Theorem refresh_again_adds_no_row B e1 e2 s resp1 s1 countries rates1 rates2 :
  post_countries_refresh B e1 s = (resp1, s1) ->
  status resp1 = 200%nat ->
  fetch e1 = Fetched countries rates1 ->
  fetch e2 = Fetched countries rates2 ->
  map identity (table (snd (post_countries_refresh B e2 s1)))
  = map identity (table s1).
Proof.
  intros Hpost Hst Hf1 Hf2.
  destruct (refresh_outcomes B e2 s1) as [(Ht & _) | Hall];
    [rewrite Ht; reflexivity|].
  destruct Hall as (countries0 & rates0 & rateMap & cs & m1 & m2 &
                    Hfetch0 & _ & Hit & Hd & Hloop & Htab).
  rewrite Hf2 in Hfetch0. inversion Hfetch0; subst countries0 rates0.
  rewrite Htab.
  apply (forEach_known B e2 rateMap (clock e2) cs m1 m2 (table s1));
    [rewrite Hd; reflexivity | | exact Hloop].
  intros c Hc.
  destruct (refresh_200_covers _ _ _ _ _ _ _ _ _ Hpost Hst Hf1 Hit Hc)
    as (key & r & Hkey & Hr & Hk & _).
  exists key. split; [exact Hkey|]. apply in_map_iff. exists r. auto.
Qed.

Lemma refresh_again_adds_no_row_witness :
  let again := post_countries_refresh Sample.B
                 (Sample.quiet_later Sample.world Sample.rates_later)
                 Sample.refreshed in
  map identity (table (snd again)) = map identity (table Sample.refreshed) /\
  status (fst again) = 200%nat /\
  List.length (table Sample.refreshed) = 4%nat /\
  Forall (fun r => last_refreshed_at (cols r) = Sample.later)
    (table (snd again)).
Proof.
  cbv zeta. split; [| vm_compute; repeat constructor].
  unfold Sample.refreshed.
  apply (refresh_again_adds_no_row Sample.B
           (Sample.quiet Sample.world Sample.rates)
           (Sample.quiet_later Sample.world Sample.rates_later)
           Sample.empty _ _ Sample.world Sample.rates Sample.rates_later
           (surjective_pairing _)).
  - vm_compute. reflexivity.
  - reflexivity.
  - reflexivity.
Defined.

(** X7. In every store the server reaches, no two rows share a
    [name_lower] and no two rows share an id: the
    lookup-then-insert of the refresh never makes a second row for
    a key. *)
Theorem store_keys_unique B s :
  reachable B s ->
  NoDup (map (fun r => name_lower (cols r)) (table s)) /\
  NoDup (map id (table s)).
Proof.
  intros Hs. split.
  - exact (reachable_keys_ok B s Hs).
  - exact (proj1 (reachable_ids_ok B s Hs)).
Qed.

Lemma store_keys_unique_witness :
  NoDup (map (fun r => name_lower (cols r)) (table Sample.refreshed)) /\
  NoDup (map id (table Sample.refreshed)).
Proof. exact (store_keys_unique Sample.B Sample.refreshed sample_reachable). Defined.

(** ** [GET /countries]: filters and order *)

Lemma insert_sorted_perm r l : Permutation (insert_sorted r l) (r :: l).
Proof.
  induction l as [|x l IH]; cbn; [reflexivity|].
  destruct (gdp_before x r); [| reflexivity].
  rewrite IH. apply perm_swap.
Qed.

Lemma order_by_gdp_desc_perm l : Permutation (order_by_gdp_desc l) l.
Proof.
  induction l as [|x l IH]; cbn; [reflexivity|].
  rewrite insert_sorted_perm. constructor. exact IH.
Qed.

Ltac compare_cases :=
  repeat match goal with
         | H : context [Z.compare ?x ?y] |- _ => destruct (Z.compare_spec x y)
         | |- context [Z.compare ?x ?y] => destruct (Z.compare_spec x y)
         | H : context [Pos.compare ?x ?y] |- _ => destruct (Pos.compare_spec x y)
         | |- context [Pos.compare ?x ?y] => destruct (Pos.compare_spec x y)
         end.

Lemma leb_total a b :
  a <> NaN -> b <> NaN -> Num.leb a b = false -> Num.leb b a = true.
Proof.
  unfold Num.leb, SFleb, SFcompare.
  destruct a as [sa|sa| |sa ma ea], b as [sb|sb| |sb mb eb]; try congruence;
    intros _ _; try destruct sa; try destruct sb; try congruence;
    change (Pos.compare_cont Eq ?x ?y) with (Pos.compare x y);
    intros H; compare_cases; cbn in *; subst; try congruence; try lia.
Qed.

Lemma gdp_before_total a b :
  estimated_gdp (cols a) <> Some NaN ->
  estimated_gdp (cols b) <> Some NaN ->
  gdp_before a b = false -> gdp_before b a = true.
Proof.
  unfold gdp_before.
  destruct (estimated_gdp (cols a)) as [x|], (estimated_gdp (cols b)) as [y|];
    try congruence; try reflexivity.
  intros Ha Hb. apply leb_total; congruence.
Qed.

Lemma insert_sorted_hd r l x :
  gdp_desc x r -> HdRel gdp_desc x l -> HdRel gdp_desc x (insert_sorted r l).
Proof.
  intros Hxr Hl. destruct l as [|y l]; cbn; [constructor; exact Hxr|].
  destruct (gdp_before y r); constructor; [| exact Hxr].
  inversion Hl; assumption.
Qed.

Lemma insert_sorted_sorted r l :
  estimated_gdp (cols r) <> Some NaN ->
  Forall (fun x => estimated_gdp (cols x) <> Some NaN) l ->
  Sorted gdp_desc l -> Sorted gdp_desc (insert_sorted r l).
Proof.
  intros Hr Hl Hs. induction l as [|x l IH]; cbn; [repeat constructor|].
  inversion Hl as [|? ? Hx Hl']; subst. inversion Hs as [|? ? Hs' Hhd]; subst.
  destruct (gdp_before x r) eqn:Hxr.
  - constructor; [apply IH; assumption|].
    apply insert_sorted_hd; assumption.
  - constructor; [exact Hs|]. constructor.
    apply gdp_before_total; assumption.
Qed.

Lemma order_by_gdp_desc_sorted l :
  Forall (fun x => estimated_gdp (cols x) <> Some NaN) l ->
  Sorted gdp_desc (order_by_gdp_desc l).
Proof.
  induction l as [|x l IH]; cbn; intros H; [constructor|].
  inversion H as [|? ? Hx Hl]; subst.
  apply insert_sorted_sorted; [exact Hx | | apply IH, Hl].
  rewrite Forall_forall in *. intros y Hy. apply Hl.
  eapply Permutation_in; [apply order_by_gdp_desc_perm | exact Hy].
Qed.

(** X8. [GET /countries] answers 200 with exactly the rows that
    pass both filters, each once; an absent or empty filter admits
    every row.  Without [sort=gdp_desc] they come in table order;
    with it, in descending order of [estimated_gdp] with the null
    estimates last (no estimate being [NaN]).  The store is not
    changed. *)
Theorem get_countries_rows e q_region q_currency q_sort s :
  db_fault e 0 = None ->
  exists rows,
    get_countries e q_region q_currency q_sort s
      = ({| status := 200; payload := JsonRows rows |}, s) /\
    Permutation rows (filter (selected q_region q_currency) (table s)) /\
    (q_sort <> Some "gdp_desc" ->
     rows = filter (selected q_region q_currency) (table s)) /\
    (q_sort = Some "gdp_desc" ->
     Forall (fun r => estimated_gdp (cols r) <> Some NaN) (table s) ->
     Sorted gdp_desc rows).
Proof.
  intros Hdb.
  unfold get_countries, handler, bind, db_call, read_table, start. cbn.
  rewrite Hdb. cbn. fold (selected q_region q_currency).
  destruct q_sort as [srt|].
  - destruct (srt =? "gdp_desc")%string eqn:Hsrt.
    + apply String.eqb_eq in Hsrt. subst srt.
      eexists. split; [destruct s; reflexivity|].
      split; [apply order_by_gdp_desc_perm|].
      split; [congruence|].
      intros _ Hnan. apply order_by_gdp_desc_sorted.
      rewrite Forall_forall in *. intros r Hr. apply filter_In in Hr.
      apply Hnan, Hr.
    + apply String.eqb_neq in Hsrt.
      eexists. split; [destruct s; reflexivity|].
      split; [reflexivity|]. split; [reflexivity|]. congruence.
  - eexists. split; [destruct s; reflexivity|].
    split; [reflexivity|]. split; [reflexivity|]. discriminate.
Qed.

Lemma get_countries_rows_witness :
  let e := Sample.quiet Sample.shuffled Sample.rates in
  exists sorted unsorted africa,
    get_countries e None None (Some "gdp_desc") Sample.reshuffled
      = ({| status := 200; payload := JsonRows sorted |}, Sample.reshuffled) /\
    map (fun r => name (cols r)) sorted
      = [ VStr "Nigeria"; VStr "ALAND"; VStr "Bouvet Island"; VStr "Cuba" ] /\
    Sorted gdp_desc sorted /\
    get_countries e None None None Sample.reshuffled
      = ({| status := 200; payload := JsonRows unsorted |}, Sample.reshuffled) /\
    unsorted = table Sample.reshuffled /\
    map (fun r => name (cols r)) unsorted
      = [ VStr "Bouvet Island"; VStr "Cuba"; VStr "Nigeria"; VStr "ALAND" ] /\
    get_countries e (Some "Africa") (Some "NGN") (Some "name") Sample.reshuffled
      = ({| status := 200; payload := JsonRows africa |}, Sample.reshuffled) /\
    map (fun r => name (cols r)) africa = [ VStr "Nigeria" ].
Proof.
  cbv zeta.
  destruct (get_countries_rows (Sample.quiet Sample.shuffled Sample.rates)
              None None (Some "gdp_desc") Sample.reshuffled eq_refl)
    as (sorted & H1 & _ & _ & S1).
  destruct (get_countries_rows (Sample.quiet Sample.shuffled Sample.rates)
              None None None Sample.reshuffled eq_refl)
    as (unsorted & H2 & _ & T2 & _).
  destruct (get_countries_rows (Sample.quiet Sample.shuffled Sample.rates)
              (Some "Africa") (Some "NGN") (Some "name") Sample.reshuffled
              eq_refl)
    as (africa & H3 & _ & T3 & _).
  exists sorted, unsorted, africa.
  split; [exact H1|].
  split; [vm_compute in H1; injection H1 as <-; reflexivity|].
  split.
  { apply S1; [reflexivity|].
    vm_compute. repeat constructor; discriminate. }
  split; [exact H2|].
  assert (E2 : unsorted = table Sample.reshuffled).
  { rewrite T2 by discriminate. vm_compute. reflexivity. }
  split; [exact E2|].
  split; [rewrite E2; vm_compute; reflexivity|].
  split; [exact H3|].
  rewrite T3 by discriminate. vm_compute. reflexivity.
Defined.

(** ** Names that are not there *)

Lemma filter_all {A} (f : A -> bool) (l : list A) :
  (forall x, In x l -> f x = true) -> filter f l = l.
Proof.
  induction l as [|a l IH]; cbn; intros H; [reflexivity|].
  rewrite (H a (or_introl eq_refl)). f_equal. apply IH. auto.
Qed.

Lemma unknown_name B e s param :
  db_fault e 0 = None ->
  (forall r, In r (table s) -> name_lower (cols r) <> toLowerCase B param) ->
  get_country B e param s
    = ({| status := 404; payload := JsonError "Country not found" None |}, s) /\
  delete_country B e param s
    = ({| status := 404; payload := JsonError "Country not found" None |}, s).
Proof.
  intros Hdb Hno. split.
  - unfold get_country, handler, bind, db_call, read_table, start. cbn.
    rewrite Hdb. cbn. fold (lookup (toLowerCase B param) (table s)).
    destruct (lookup (toLowerCase B param) (table s)) as [r|] eqn:Hl.
    + apply lookup_some in Hl. destruct Hl as [Hin Hk].
      exfalso. exact (Hno r Hin Hk).
    + destruct s; reflexivity.
  - unfold delete_country, handler, bind, db_call, read_table, with_disk, start.
    cbn -[Nat.ltb]. rewrite Hdb. cbn -[Nat.ltb].
    rewrite filter_all.
    + rewrite Nat.sub_diag. cbn. destruct s; reflexivity.
    + intros r Hr. apply negb_true_iff, String.eqb_neq. apply Hno, Hr.
Qed.

(** X9. For a name that no row carries, [GET /countries/:name] and
    [DELETE /countries/:name] both answer 404 "Country not found",
    not 500, and leave the store exactly as it was. *)
Theorem unknown_name_404 B e s param :
  db_fault e 0 = None ->
  (forall r, In r (table s) -> name_lower (cols r) <> toLowerCase B param) ->
  get_country B e param s
    = ({| status := 404; payload := JsonError "Country not found" None |}, s) /\
  delete_country B e param s
    = ({| status := 404; payload := JsonError "Country not found" None |}, s).
Proof. apply unknown_name. Qed.

Lemma unknown_name_404_witness :
  get_country Sample.B (Sample.quiet Sample.world Sample.rates)
    "Wakanda" Sample.refreshed
    = ({| status := 404; payload := JsonError "Country not found" None |},
       Sample.refreshed) /\
  delete_country Sample.B (Sample.quiet Sample.world Sample.rates)
    "Wakanda" Sample.refreshed
    = ({| status := 404; payload := JsonError "Country not found" None |},
       Sample.refreshed).
Proof.
  apply (unknown_name_404 Sample.B (Sample.quiet Sample.world Sample.rates)
           Sample.refreshed "Wakanda").
  - reflexivity.
  - intros r Hr Heq. vm_compute in Hr.
    repeat (destruct Hr as [<- | Hr]; [vm_compute in Heq; discriminate Heq|]).
    exact Hr.
Defined.

Lemma delete_country_ok B e param s :
  db_fault e 0 = None ->
  snd (delete_country B e param s) =
    set_table
      (filter (fun r => negb (name_lower (cols r) =? toLowerCase B param)%string)
              (table s)) s.
Proof.
  intros Hdb.
  unfold delete_country, handler, bind, db_call, read_table, with_disk, start.
  cbn -[Nat.ltb]. rewrite Hdb. cbn -[Nat.ltb].
  match goal with
  | |- context [Nat.ltb ?a ?b] => destruct (Nat.ltb a b)
  end; reflexivity.
Qed.

(** X10. After [DELETE /countries/:name], a [GET] and a second
    [DELETE] of that name, in any casing, answer 404: the deletion
    removes every row of the key, and repeating it changes
    nothing. *)
Theorem delete_then_404 B e1 e2 s param param' :
  db_fault e1 0 = None ->
  db_fault e2 0 = None ->
  toLowerCase B param' = toLowerCase B param ->
  let s' := snd (delete_country B e1 param s) in
  get_country B e2 param' s'
    = ({| status := 404; payload := JsonError "Country not found" None |}, s') /\
  delete_country B e2 param' s'
    = ({| status := 404; payload := JsonError "Country not found" None |}, s').
Proof.
  intros Hdb1 Hdb2 Hcase. cbv zeta.
  apply unknown_name; [exact Hdb2|].
  rewrite (delete_country_ok B e1 param s Hdb1). cbn.
  intros r Hr. apply filter_In in Hr. destruct Hr as [_ Hr].
  apply negb_true_iff, String.eqb_neq in Hr. congruence.
Qed.

Lemma delete_then_404_witness :
  let e := Sample.quiet Sample.world Sample.rates in
  let s' := snd (delete_country Sample.B e "Nigeria" Sample.refreshed) in
  get_country Sample.B e "nigeria" s'
    = ({| status := 404; payload := JsonError "Country not found" None |}, s') /\
  delete_country Sample.B e "nigeria" s'
    = ({| status := 404; payload := JsonError "Country not found" None |}, s').
Proof.
  cbv zeta.
  apply (delete_then_404 Sample.B (Sample.quiet Sample.world Sample.rates)
           (Sample.quiet Sample.world Sample.rates) Sample.refreshed
           "Nigeria" "nigeria"); reflexivity.
Defined.

(** ** [GET /status] *)

Lemma fold_left_max_spec (l : list Z) (x : Z) :
  (x <= fold_left Z.max l x) /\
  (forall y, In y l -> y <= fold_left Z.max l x) /\
  In (fold_left Z.max l x) (x :: l).
Proof.
  revert x. induction l as [|a l IH]; intros x; cbn.
  - split; [lia|]. split; [contradiction | auto].
  - destruct (IH (Z.max x a)) as (H1 & H2 & H3).
    split; [lia|]. split.
    + intros y [<- | Hy]; [lia | apply H2, Hy].
    + destruct H3 as [H3 | H3]; [| right; right; exact H3].
      destruct (Z.max_spec x a) as [[_ Hm] | [_ Hm]];
        [right; left | left]; congruence.
Qed.

Lemma get_status_ok B e s :
  db_fault e 0 = None ->
  db_fault e 1 = None ->
  get_status B e s =
    ({| status := 200;
        payload := JsonStatus (List.length (table s))
          (option_map (toISOString B)
             match map (fun r => last_refreshed_at (cols r)) (table s) with
             | [] => None
             | x :: rest => Some (fold_left Z.max rest x)
             end) |}, s).
Proof.
  intros H0 H1.
  unfold get_status, handler, count_rows, bind, db_call, read_table, start.
  cbn. rewrite H0. cbn. rewrite H1. cbn. destruct s; reflexivity.
Qed.

(** X11. [GET /status] answers 200 with the number of rows and the
    latest [last_refreshed_at] of the table, as an ISO string: none
    for an empty table, else a timestamp that some row carries and
    no row exceeds.  The store is not changed. *)
Theorem get_status_latest B e s :
  db_fault e 0 = None ->
  db_fault e 1 = None ->
  exists last,
    get_status B e s =
      ({| status := 200;
          payload := JsonStatus (List.length (table s))
                       (option_map (toISOString B) last) |}, s) /\
    (last = None <-> table s = []) /\
    (forall t, last = Some t ->
       (forall r, In r (table s) -> last_refreshed_at (cols r) <= t) /\
       (exists r, In r (table s) /\ last_refreshed_at (cols r) = t)).
Proof.
  intros H0 H1. eexists. split; [apply get_status_ok; assumption|].
  destruct (table s) as [|r0 l]; cbn.
  - split; [tauto | discriminate].
  - split; [split; discriminate|].
    intros t Ht. inversion Ht; subst t.
    destruct (fold_left_max_spec (map (fun r => last_refreshed_at (cols r)) l)
                (last_refreshed_at (cols r0))) as (H2 & H3 & H4).
    split.
    + intros r [<- | Hr]; [exact H2|]. apply H3.
      apply (in_map (fun r => last_refreshed_at (cols r))). exact Hr.
    + change (In (fold_left Z.max (map (fun r => last_refreshed_at (cols r)) l)
                    (last_refreshed_at (cols r0)))
                 (map (fun r => last_refreshed_at (cols r)) (r0 :: l))) in H4.
      apply in_map_iff in H4. destruct H4 as (r & Hr & Hin). eauto.
Qed.

Lemma get_status_latest_witness :
  let e := Sample.quiet Sample.world Sample.rates in
  exists last,
    get_status Sample.B e Sample.refreshed_twice =
      ({| status := 200;
          payload := JsonStatus (List.length (table Sample.refreshed_twice))
                       (option_map (toISOString Sample.B) last) |},
       Sample.refreshed_twice) /\
    (last = None <-> table Sample.refreshed_twice = []) /\
    (forall t, last = Some t ->
       (forall r, In r (table Sample.refreshed_twice) ->
                  last_refreshed_at (cols r) <= t) /\
       (exists r, In r (table Sample.refreshed_twice) /\
                  last_refreshed_at (cols r) = t)) /\
    option_map (toISOString Sample.B) last = Some "2023-11-14T23:13:20.000Z" /\
    map (fun r => last_refreshed_at (cols r)) (table Sample.refreshed_twice)
      = [ Sample.later; Sample.now; Sample.now; Sample.now ].
Proof.
  cbv zeta.
  destruct (get_status_latest Sample.B
              (Sample.quiet Sample.world Sample.rates)
              Sample.refreshed_twice eq_refl eq_refl)
    as (last & H1 & H2 & H3).
  exists last. split; [exact H1|]. split; [exact H2|]. split; [exact H3|].
  split; [| vm_compute; reflexivity].
  assert (H0 : fst (get_status Sample.B
                      (Sample.quiet Sample.world Sample.rates)
                      Sample.refreshed_twice)
               = {| status := 200;
                    payload := JsonStatus 4 (Some "2023-11-14T23:13:20.000Z") |})
    by (vm_compute; reflexivity).
  rewrite H1 in H0. cbv beta iota delta [fst] in H0.
  apply (f_equal (fun r => match payload r with
                           | JsonStatus _ stamp => stamp
                           | _ => None
                           end)) in H0.
  cbv beta iota delta [payload] in H0. exact H0.
Defined.

Lemma refresh_rows_old_or_now B e s r :
  In r (table (snd (post_countries_refresh B e s))) ->
  In r (table s) \/ last_refreshed_at (cols r) = clock e.
Proof.
  revert r.
  apply (refresh_keeps B e
           (fun s0 => forall r, In r (table s0) ->
              In r (table s) \/ last_refreshed_at (cols r) = clock e)
           (fun en => last_refreshed_at en = clock e)); auto.
  - intros rm c m en m'. apply entry_of_stamp.
  - intros s0 en i Hen H r Hr. cbn in Hr. apply in_map_iff in Hr.
    destruct Hr as (r0 & <- & Hr0).
    destruct (Nat.eqb (id r0) i); [right; exact Hen | apply H, Hr0].
  - intros s0 en Hen _ H r Hr. cbn in Hr. apply in_app_iff in Hr.
    destruct Hr as [Hr | [<- | []]]; [apply H, Hr | right; exact Hen].
Qed.

(** X12. When a refresh of at least one country has answered 200 and
    no row carried a later timestamp than the clock of that refresh,
    [GET /status] reports the [total_countries] and the
    [last_refreshed_at] that the refresh has answered. *)
Theorem status_after_refresh B e e' s resp s' countries rates c cs :
  post_countries_refresh B e s = (resp, s') ->
  status resp = 200%nat ->
  fetch e = Fetched countries rates ->
  iterate countries = Ok (c :: cs) ->
  (forall r, In r (table s) -> last_refreshed_at (cols r) <= clock e) ->
  db_fault e' 0 = None ->
  db_fault e' 1 = None ->
  exists total stamp,
    payload resp = JsonRefresh "Refresh completed" total stamp /\
    get_status B e' s' =
      ({| status := 200; payload := JsonStatus total (Some stamp) |}, s').
Proof.
  intros Hpost Hst Hfetch Hit Hold H0 H1.
  destruct (refresh_200 _ _ _ _ _ Hpost Hst)
    as (_ & _ & _ & _ & _ & _ & _ & _ & _ & _ & _ & _ & _ & _ & Hresp).
  exists (List.length (table s')), (toISOString B (clock e)).
  split; [rewrite Hresp; reflexivity|].
  rewrite (get_status_ok B e' s' H0 H1). do 3 f_equal.
  destruct (refresh_200_covers _ _ _ _ _ _ _ _ c Hpost Hst Hfetch Hit
              (or_introl eq_refl)) as (key & r & _ & Hr & _ & Hnow).
  assert (Hle : forall x, In x (table s') -> last_refreshed_at (cols x) <= clock e).
  { intros x Hx.
    replace s' with (snd (post_countries_refresh B e s)) in Hx
      by (rewrite Hpost; reflexivity).
    destruct (refresh_rows_old_or_now B e s x Hx) as [Hx' | Hx'];
      [apply Hold, Hx' | lia]. }
  destruct (table s') as [|r0 l] eqn:Ht; [contradiction|]. cbn.
  destruct (fold_left_max_spec (map (fun r => last_refreshed_at (cols r)) l)
              (last_refreshed_at (cols r0))) as (H2 & H3 & H4).
  do 2 f_equal. apply Z.le_antisymm.
  - change (In (fold_left Z.max (map (fun r => last_refreshed_at (cols r)) l)
                  (last_refreshed_at (cols r0)))
               (map (fun r => last_refreshed_at (cols r)) (r0 :: l))) in H4.
    apply in_map_iff in H4. destruct H4 as (x & <- & Hx). apply Hle, Hx.
  - rewrite <- Hnow. destruct Hr as [<- | Hr]; [exact H2|].
    apply H3. apply (in_map (fun r => last_refreshed_at (cols r))). exact Hr.
Qed.

Lemma status_after_refresh_witness :
  exists total stamp,
    payload (fst (post_countries_refresh Sample.B
                    (Sample.quiet Sample.world Sample.rates) Sample.empty))
      = JsonRefresh "Refresh completed" total stamp /\
    get_status Sample.B (Sample.quiet Sample.world Sample.rates)
      (snd (post_countries_refresh Sample.B
              (Sample.quiet Sample.world Sample.rates) Sample.empty)) =
      ({| status := 200; payload := JsonStatus total (Some stamp) |},
       snd (post_countries_refresh Sample.B
              (Sample.quiet Sample.world Sample.rates) Sample.empty)).
Proof.
  apply (status_after_refresh Sample.B
           (Sample.quiet Sample.world Sample.rates)
           (Sample.quiet Sample.world Sample.rates)
           Sample.empty _ _ Sample.world Sample.rates Sample.nigeria
           [Sample.bouvet; Sample.cuba; Sample.atlantis]
           (surjective_pairing _)).
  - vm_compute. reflexivity.
  - reflexivity.
  - reflexivity.
  - intros r [].
  - reflexivity.
  - reflexivity.
Defined.

(** ** The summary image *)

Lemma leb_trans a b c :
  Num.leb a b = true -> Num.leb b c = true -> Num.leb a c = true.
Proof.
  unfold Num.leb, SFleb, SFcompare.
  destruct a as [sa|sa| |sa ma ea], b as [sb|sb| |sb mb eb],
           c as [sc|sc| |sc mc ec]; try congruence;
    try destruct sa; try destruct sb; try destruct sc; try congruence;
    change (Pos.compare_cont Eq ?x ?y) with (Pos.compare x y);
    intros H1 H2; try reflexivity; try discriminate;
    compare_cases; cbn in *; subst; try congruence; try lia.
Qed.

Lemma gdp_desc_trans a b c : gdp_desc a b -> gdp_desc b c -> gdp_desc a c.
Proof.
  unfold gdp_desc, gdp_before.
  destruct (estimated_gdp (cols a)) as [x|], (estimated_gdp (cols b)) as [y|],
           (estimated_gdp (cols c)) as [z|]; try congruence; try reflexivity.
  intros H1 H2. eapply leb_trans; eassumption.
Qed.

Lemma StronglySorted_app_inv {A} (R : A -> A -> Prop) (l1 l2 : list A) :
  StronglySorted R (l1 ++ l2) ->
  StronglySorted R l1 /\ (forall a b, In a l1 -> In b l2 -> R a b).
Proof.
  induction l1 as [|x l1 IH]; cbn; intros H.
  - split; [constructor | contradiction].
  - inversion H as [|? ? Hs Hall]; subst. destruct (IH Hs) as [IH1 IH2].
    rewrite Forall_forall in Hall. split.
    + constructor; [exact IH1|]. apply Forall_forall.
      intros y Hy. apply Hall, in_or_app. left; exact Hy.
    + intros a b [<- | Ha] Hb; [| apply IH2; assumption].
      apply Hall, in_or_app. right; exact Hb.
Qed.

Lemma top_rows_ok e m top m' :
  top_rows e m = (Ok top, m') ->
  top = map (fun r => (name (cols r), estimated_gdp (cols r)))
          (firstn 5 (order_by_gdp_desc (filter has_gdp (table (disk m))))) /\
  disk m' = disk m.
Proof.
  unfold top_rows, bind, db_call, read_table, ret.
  destruct (db_fault e (db_calls m)); [discriminate|].
  cbn. intros H; inversion H; auto.
Qed.

Lemma refresh_200_image B e s resp s' :
  post_countries_refresh B e s = (resp, s') ->
  status resp = 200%nat ->
  jimp_fault e = None ->
  mkdir_fault e = None ->
  image s' =
    Some {| img_total := List.length (table s');
            img_top := map (fun r => (name (cols r), estimated_gdp (cols r)))
                         (firstn 5 (order_by_gdp_desc
                                      (filter has_gdp (table s'))));
            img_timestamp := clock e |}.
Proof.
  unfold post_countries_refresh, handler.
  destruct (refresh_try B e (start s)) as [[r|x] m] eqn:Hr; cbn;
    intros H Hst Hj Hd; inversion H; subst; clear H; [| discriminate Hst].
  unfold refresh_try in Hr.
  apply bind_ok in Hr. destruct Hr as (fetched & m0 & Hf & Hr).
  cbn [fst snd] in Hr.
  destruct (truthy (snd fetched)); cbn [negb] in Hr;
    [| apply ret_ok in Hr; destruct Hr as [-> _]; discriminate Hst].
  apply bind_ok in Hr. destruct Hr as (rateMap & m1 & Hp & Hr).
  destruct (truthy rateMap); cbn [negb] in Hr;
    [| apply ret_ok in Hr; destruct Hr as [-> _]; discriminate Hst].
  apply bind_ok in Hr. destruct Hr as ([] & m2 & _ & Hr).
  apply bind_ok in Hr. destruct Hr as ([] & m3 & _ & Hr).
  apply bind_ok in Hr. destruct Hr as (cs & m4 & _ & Hr).
  apply bind_ok in Hr. destruct Hr as ([] & m5 & _ & Hr).
  apply bind_ok in Hr. destruct Hr as ([] & m6 & _ & Hr).
  apply bind_ok in Hr. destruct Hr as ([] & m7 & Hdir & Hr).
  apply bind_ok in Hr. destruct Hr as (total & m8 & Hcount & Hr).
  apply bind_ok in Hr. destruct Hr as (top & m9 & Htop & Hr).
  apply bind_ok in Hr. destruct Hr as ([] & m10 & Himg & Hr).
  apply ret_ok in Hr. destruct Hr as [_ ->].
  apply read_only_ensureCacheDir in Hdir. destruct Hdir as (Hd7 & _).
  apply count_rows_ok in Hcount. destruct Hcount as (-> & Hd8).
  apply top_rows_ok in Htop. destruct Htop as (-> & Hd9).
  unfold generateSummaryImage, try_catch, bind, jimp_draw, ensureCacheDir,
    write_image, with_disk in Himg.
  rewrite Hj, Hd in Himg. cbn in Himg. inversion Himg; subst m10. cbn.
  rewrite Hd9, Hd8. reflexivity.
Qed.

(** X13. After a refresh that answered 200 with Jimp and the cache
    directory in order, the image file holds the number of rows of
    the table, the timestamp of the run, and at most five rows: rows
    with an estimate, as many as there are up to five, in descending
    order and none smaller than a row left out (no estimate being
    [NaN]). *)
Theorem summary_after_refresh B e s resp s' :
  post_countries_refresh B e s = (resp, s') ->
  status resp = 200%nat ->
  jimp_fault e = None ->
  mkdir_fault e = None ->
  exists top rest,
    Permutation (top ++ rest) (filter has_gdp (table s')) /\
    List.length top = Nat.min 5 (List.length (filter has_gdp (table s'))) /\
    (Forall (fun r => estimated_gdp (cols r) <> Some NaN) (table s') ->
     Sorted gdp_desc top /\
     forall a b, In a top -> In b rest -> gdp_desc a b) /\
    image s' =
      Some {| img_total := List.length (table s');
              img_top := map (fun r => (name (cols r), estimated_gdp (cols r))) top;
              img_timestamp := clock e |}.
Proof.
  intros Hpost Hst Hj Hd.
  pose proof (refresh_200_image B e s resp s' Hpost Hst Hj Hd) as Himg.
  set (sorted := order_by_gdp_desc (filter has_gdp (table s'))) in *.
  exists (firstn 5 sorted), (skipn 5 sorted).
  split; [rewrite firstn_skipn; apply order_by_gdp_desc_perm|].
  split.
  { rewrite length_firstn.
    unfold sorted.
    rewrite (Permutation_length
               (order_by_gdp_desc_perm (filter has_gdp (table s')))).
    reflexivity. }
  split; [| exact Himg].
  intros Hnan.
  assert (Hs : StronglySorted gdp_desc (firstn 5 sorted ++ skipn 5 sorted)).
  { rewrite firstn_skipn. apply Sorted_StronglySorted.
    - intros a b c. apply gdp_desc_trans.
    - apply order_by_gdp_desc_sorted.
      rewrite Forall_forall in *. intros r Hr. apply filter_In in Hr.
      apply Hnan, Hr. }
  apply StronglySorted_app_inv in Hs. destruct Hs as [Hs Hrel].
  split; [apply StronglySorted_Sorted, Hs | exact Hrel].
Qed.

Lemma summary_after_refresh_witness :
  exists top rest,
    Permutation (top ++ rest) (filter has_gdp (table Sample.refreshed)) /\
    List.length top
      = Nat.min 5 (List.length (filter has_gdp (table Sample.refreshed))) /\
    (Forall (fun r => estimated_gdp (cols r) <> Some NaN)
       (table Sample.refreshed) ->
     Sorted gdp_desc top /\
     forall a b, In a top -> In b rest -> gdp_desc a b) /\
    image Sample.refreshed =
      Some {| img_total := List.length (table Sample.refreshed);
              img_top := map (fun r => (name (cols r), estimated_gdp (cols r))) top;
              img_timestamp := clock (Sample.quiet Sample.world Sample.rates) |}.
Proof.
  unfold Sample.refreshed.
  apply (summary_after_refresh Sample.B
           (Sample.quiet Sample.world Sample.rates) Sample.empty _ _
           (surjective_pairing _)).
  - vm_compute. reflexivity.
  - reflexivity.
  - reflexivity.
Defined.

(** ** What the handlers never do *)

(** X14. The four [GET] handlers never change the store, whatever
    the database does. *)
Theorem reads_change_nothing B e rq s :
  match rq with
  | PostRefresh | DeleteCountry _ => True
  | _ => snd (serve B e rq s) = s
  end.
Proof.
  destruct rq; cbn [serve]; try exact I.
  - apply get_countries_store.
  - apply get_country_store.
  - apply get_status_store.
  - apply get_country_store.
Qed.

(** X15. Each request is answered with one of these status codes
    only: the refresh with 200 or 503 and never 500, the list and
    the status with 200 or 500, the lookup with 200, 404 or 500, the
    deletion with 204, 404 or 500, and [GET /countries/image], which
    the lookup handler answers, with 200, 404 or 500. *)
Theorem serve_status_codes B e rq s :
  In (status (fst (serve B e rq s))) (status_codes rq).
Proof.
  assert (Hget : forall p,
             In (status (fst (get_country B e p s))) [200; 404; 500]%nat).
  { intros p.
    unfold get_country, handler, bind, db_call, read_table, start. cbn.
    destruct (db_fault e 0); cbn; [auto|].
    destruct (find _ (table s)); cbn; auto. }
  destruct rq; cbn [serve status_codes].
  - destruct (refresh_status B e s) as [-> | ->]; cbn; auto.
  - unfold get_countries, handler, bind, db_call, read_table, start. cbn.
    destruct (db_fault e 0); cbn; auto.
  - apply Hget.
  - unfold delete_country, handler, bind, db_call, read_table, with_disk, start.
    cbn -[Nat.ltb]. destruct (db_fault e 0); cbn -[Nat.ltb]; [auto|].
    match goal with
    | |- context [Nat.ltb ?a ?b] => destruct (Nat.ltb a b)
    end; cbn; auto.
  - unfold get_status, handler, count_rows, bind, db_call, read_table, start.
    cbn. destruct (db_fault e 0); cbn; [auto|].
    destruct (db_fault e 1); cbn; auto.
  - apply Hget.
Qed.



(** ** The sibling server file *)

Lemma sibling_or_null n v :
  Sibling.or_null n = Some v ->
  v = n /\ Num.isNaN n = false /\ Num.is_zero n = false.
Proof.
  unfold Sibling.or_null, truthy.
  destruct (Num.isNaN n) eqn:E1, (Num.is_zero n) eqn:E2; cbn;
    intros H; inversion H; auto.
Qed.

Lemma sibling_gdp_ok e p x m g m' :
  Sibling.computeEstimatedGdp e p x m = (Ok g, m') ->
  (forall n, p = Some n -> truthy (VNum n) = true) ->
  (forall n, x = Some n -> truthy (VNum n) = true) ->
  (g = None <-> p = None \/ x = None) /\
  (forall pv xv, p = Some pv -> x = Some xv ->
     exists k : Z, 1000 <= k <= 2000 /\
       g = Some (Num.div (Num.mul pv (Num.ofZ k)) xv)).
Proof.
  unfold Sibling.computeEstimatedGdp. intros H Hp Hx.
  destruct p as [pv|], x as [xv|];
    try (apply ret_ok in H; destruct H as [-> _];
         split; [split; auto | intros ? ? ? ?; discriminate]).
  rewrite (Hp pv eq_refl), (Hx xv eq_refl) in H. cbn [negb orb] in H.
  unfold bind, random in H. cbn -[randInt Math_random Num.div Num.mul] in H.
  destruct (randInt_1000_2000 (entropy e (random_calls m))) as (k & Hk & Hr).
  rewrite Hr in H. inversion H; subst. split.
  - split; [discriminate | intros [H0 | H0]; discriminate].
  - intros ? ? H1 H2. inversion H1; inversion H2; subst. eauto.
Qed.

(** X16. In the sibling server file a country is stored with a
    population and an exchange rate that are [null] or a number other
    than 0 and [NaN], with a currency code that is [null] whenever it
    is falsy, and then without a rate; its [estimated_gdp] is [null]
    exactly when the population or the rate is, and
    [population * multiplier / exchange_rate], the product and the
    quotient of doubles, with an integer multiplier between 1000 and
    2000 otherwise. *)
Theorem sibling_gdp_null_rule B e rateMap now c m en m' :
  Sibling.entry_of B e rateMap now c m = (Ok en, m') ->
  (forall p, population en = Some p ->
     Num.isNaN p = false /\ Num.is_zero p = false) /\
  (forall x, exchange_rate en = Some x ->
     Num.isNaN x = false /\ Num.is_zero x = false) /\
  (truthy (currency_code en) = false ->
     currency_code en = VNull /\ exchange_rate en = None) /\
  (estimated_gdp en = None <->
     population en = None \/ exchange_rate en = None) /\
  (forall p x, population en = Some p -> exchange_rate en = Some x ->
     exists k : Z, 1000 <= k <= 2000 /\
       estimated_gdp en = Some (Num.div (Num.mul p (Num.ofZ k)) x)).
Proof.
  unfold Sibling.entry_of. intros H.
  apply bind_ok in H. destruct H as (currencies & m1 & _ & H).
  apply bind_ok in H. destruct H as (code & m2 & Hcode & H).
  apply bind_ok in H. destruct H as (p & m3 & _ & H).
  apply bind_ok in H. destruct H as (rate & m4 & Hrate & H).
  apply bind_ok in H. destruct H as (gdp & m5 & Hgdp & H).
  apply bind_ok in H. destruct H as (nm & m6 & _ & H).
  apply bind_ok in H. destruct H as (lower & m7 & _ & H).
  apply bind_ok in H. destruct H as (cap & m8 & _ & H).
  apply bind_ok in H. destruct H as (reg & m9 & _ & H).
  apply bind_ok in H. destruct H as (flag & m10 & _ & H).
  apply ret_ok in H. destruct H as [-> _]. cbn.
  assert (Hp : forall n, Sibling.or_null (ToNumber B p) = Some n ->
                         truthy (VNum n) = true).
  { intros n Hn. apply sibling_or_null in Hn.
    destruct Hn as (-> & E1 & E2). cbn. rewrite E1, E2. reflexivity. }
  assert (Hx : forall n, rate = Some n -> truthy (VNum n) = true).
  { intros n ->. destruct (truthy code).
    - apply bind_ok in Hrate. destruct Hrate as (v & m0 & _ & Hrate).
      apply ret_ok in Hrate. destruct Hrate as [Hrate _].
      symmetry in Hrate. apply sibling_or_null in Hrate.
      destruct Hrate as (-> & E1 & E2). cbn. rewrite E1, E2. reflexivity.
    - apply ret_ok in Hrate. destruct Hrate as [Hrate _]. discriminate. }
  assert (Hnz : forall n, truthy (VNum n) = true ->
                          Num.isNaN n = false /\ Num.is_zero n = false).
  { intros n. cbn. destruct (Num.isNaN n), (Num.is_zero n); cbn;
      intros; try discriminate; auto. }
  split; [intros n Hn; apply Hnz, Hp, Hn|].
  split; [intros n Hn; apply Hnz, Hx, Hn|].
  split.
  { intros Hfalsy. rewrite Hfalsy in Hrate.
    apply ret_ok in Hrate. destruct Hrate as [-> _]. split; [| reflexivity].
    destruct currencies as [| | | | |[|first rest]| |];
      try (apply ret_ok in Hcode; destruct Hcode as [-> _]; reflexivity).
    apply bind_ok in Hcode. destruct Hcode as (v & m0 & _ & Hcode).
    apply ret_ok in Hcode. destruct Hcode as [-> _].
    unfold or_else in *. destruct (truthy v) eqn:E; [congruence | reflexivity]. }
  exact (sibling_gdp_ok _ _ _ _ _ _ Hgdp Hp Hx).
Qed.

Lemma sibling_gdp_null_rule_witness :
  exists en,
    fst (Sibling.entry_of Sample.B (Sample.quiet Sample.world Sample.rates)
           Sample.rateMap Sample.now Sample.nigeria (start Sample.empty))
      = Ok en /\
    (forall p, population en = Some p ->
       Num.isNaN p = false /\ Num.is_zero p = false) /\
    (forall x, exchange_rate en = Some x ->
       Num.isNaN x = false /\ Num.is_zero x = false) /\
    (truthy (currency_code en) = false ->
       currency_code en = VNull /\ exchange_rate en = None) /\
    (estimated_gdp en = None <->
       population en = None \/ exchange_rate en = None) /\
    (forall p x, population en = Some p -> exchange_rate en = Some x ->
       exists k : Z, 1000 <= k <= 2000 /\
         estimated_gdp en = Some (Num.div (Num.mul p (Num.ofZ k)) x)).
Proof.
  destruct (Sibling.entry_of Sample.B (Sample.quiet Sample.world Sample.rates)
              Sample.rateMap Sample.now Sample.nigeria (start Sample.empty))
    as [[en|x] m'] eqn:E.
  - exists en. split; [reflexivity|].
    exact (sibling_gdp_null_rule _ _ _ _ _ _ en m' E).
  - vm_compute in E. discriminate E.
Defined.

Lemma sibling_gdp_runs e p x m :
  exists g m', Sibling.computeEstimatedGdp e p x m = (Ok g, m') /\
               disk m' = disk m.
Proof.
  unfold Sibling.computeEstimatedGdp.
  destruct p as [pv|], x as [xv|]; try (do 2 eexists; split; reflexivity).
  destruct (negb (truthy (VNum pv)) || negb (truthy (VNum xv)));
    do 2 eexists; split; reflexivity.
Qed.

Lemma prop_own B ms k x :
  assoc k ms = Some x -> prop B (VObj ms) k = Ok x.
Proof. intros H. cbn. rewrite H. reflexivity. Qed.

Lemma prop_object B ms k : exists v, prop B (VObj ms) k = Ok v.
Proof. cbn. eauto. Qed.

Lemma sibling_entry_of_runs B e rs now ms nm code m :
  assoc "name" ms = Some (VStr nm) ->
  assoc "currencies" ms = Some (VArr [ VObj [ ("code", VStr code) ] ]) ->
  exists en m',
    Sibling.entry_of B e (VObj rs) now (VObj ms) m = (Ok en, m') /\
    name_lower en = toLowerCase B nm /\
    disk m' = disk m.
Proof.
  intros Hname Hcur. unfold Sibling.entry_of.
  rewrite (bind_run _ _ m (VArr [ VObj [ ("code", VStr code) ] ]) m);
    [| rewrite (prop_own _ _ _ _ Hcur); reflexivity].
  rewrite (bind_run _ _ m (VStr code ||' VNull) m); [| reflexivity].
  destruct (prop_object B ms "population") as (p & Hp).
  rewrite (bind_run _ _ m p m); [| rewrite Hp; reflexivity].
  destruct (prop_object B rs (property_key B (VStr code ||' VNull)))
    as (found & Hfound).
  set (rate := if truthy (VStr code ||' VNull)
               then Sibling.or_null (ToNumber B found)
               else None).
  rewrite (bind_run _ _ m rate m);
    [| unfold rate; destruct (truthy (VStr code ||' VNull));
       [rewrite Hfound|]; reflexivity].
  destruct (sibling_gdp_runs e (Sibling.or_null (ToNumber B p)) rate m)
    as (g & m1 & Hg & Hd).
  rewrite (bind_run _ _ m g m1 Hg).
  rewrite (bind_run _ _ m1 (VStr nm) m1);
    [| rewrite (prop_own _ _ _ _ Hname); reflexivity].
  rewrite (bind_run _ _ m1 (toLowerCase B nm) m1); [| reflexivity].
  destruct (prop_object B ms "capital") as (cap & Hcap).
  destruct (prop_object B ms "region") as (reg & Hreg).
  destruct (prop_object B ms "flag") as (flag & Hflag).
  rewrite (bind_run _ _ m1 cap m1); [| rewrite Hcap; reflexivity].
  rewrite (bind_run _ _ m1 reg m1); [| rewrite Hreg; reflexivity].
  rewrite (bind_run _ _ m1 flag m1); [| rewrite Hflag; reflexivity].
  do 2 eexists. split; [reflexivity|]. split; [reflexivity | exact Hd].
Qed.

Lemma sibling_upsert_runs e en m :
  (forall n, db_fault e n = None) ->
  exists m',
    Sibling.upsert e en m = (Ok tt, m') /\
    conn m' = conn m /\
    forall k,
      (k = name_lower en \/
       exists r, In r (table (disk m)) /\ name_lower (cols r) = k) ->
      exists r, In r (table (disk m')) /\ name_lower (cols r) = k.
Proof.
  intros Hdb. unfold Sibling.upsert, bind, db_call, read_table, with_disk.
  rewrite Hdb. cbn.
  destruct (existsb _ (table (disk m))) eqn:E; cbn;
    eexists; (split; [reflexivity|]); (split; [reflexivity|]); intros k Hk.
  - assert (Hr : exists r, In r (table (disk m)) /\ name_lower (cols r) = k).
    { destruct Hk as [-> | Hk]; [| exact Hk].
      apply existsb_exists in E. destruct E as (r & Hin & Heq).
      apply String.eqb_eq in Heq. eauto. }
    destruct Hr as (r & Hin & Heq).
    eexists. split; [apply in_map; exact Hin|].
    destruct (name_lower (cols r) =? name_lower en)%string; exact Heq.
  - destruct Hk as [-> | (r & Hin & Heq)].
    + eexists. split; [apply in_or_app; right; left; reflexivity | reflexivity].
    + exists r. split; [apply in_or_app; left; exact Hin | exact Heq].
Qed.

Lemma sibling_country_runs B e rs now ms nm code m :
  (forall n, db_fault e n = None) ->
  assoc "name" ms = Some (VStr nm) ->
  assoc "currencies" ms = Some (VArr [ VObj [ ("code", VStr code) ] ]) ->
  exists m',
    (en <- Sibling.entry_of B e (VObj rs) now (VObj ms) ;; Sibling.upsert e en) m
      = (Ok tt, m') /\
    forall k,
      (k = toLowerCase B nm \/
       exists r, In r (table (disk m)) /\ name_lower (cols r) = k) ->
      exists r, In r (table (disk m')) /\ name_lower (cols r) = k.
Proof.
  intros Hdb Hname Hcur.
  destruct (sibling_entry_of_runs B e rs now ms nm code m Hname Hcur)
    as (en & m1 & Hen & Hkey & Hd).
  destruct (sibling_upsert_runs e en m1 Hdb) as (m2 & Hup & _ & Hkeys).
  exists m2. split; [rewrite (bind_run _ _ _ _ _ Hen); exact Hup|].
  intros k Hk. apply Hkeys. rewrite Hkey, Hd. exact Hk.
Qed.

Lemma getConnection_runs e m :
  (forall n, db_fault e n = None) ->
  exists m', getConnection e m = (Ok tt, m') /\ disk m' = disk m.
Proof.
  intros Hdb. unfold getConnection, bind, db_call. rewrite Hdb.
  eexists. split; reflexivity.
Qed.

Lemma beginTransaction_runs e m :
  (forall n, db_fault e n = None) ->
  exists m', beginTransaction e m = (Ok tt, m') /\ disk m' = disk m.
Proof.
  intros Hdb. unfold beginTransaction, bind, db_call. rewrite Hdb.
  eexists. split; reflexivity.
Qed.

Lemma commit_runs e m :
  (forall n, db_fault e n = None) ->
  exists m', commit e m = (Ok tt, m') /\ disk m' = disk m.
Proof.
  intros Hdb. unfold commit, bind, db_call. rewrite Hdb.
  eexists. split; reflexivity.
Qed.

Lemma count_rows_runs e m :
  (forall n, db_fault e n = None) ->
  exists n m', count_rows e m = (Ok n, m') /\ disk m' = disk m.
Proof.
  intros Hdb. unfold count_rows, bind, db_call, read_table, ret. rewrite Hdb.
  do 2 eexists. split; reflexivity.
Qed.

Lemma top_rows_runs e m :
  (forall n, db_fault e n = None) ->
  exists top m', top_rows e m = (Ok top, m') /\ disk m' = disk m.
Proof.
  intros Hdb. unfold top_rows, bind, db_call, read_table, ret. rewrite Hdb.
  do 2 eexists. split; reflexivity.
Qed.

Lemma sibling_refresh_try_fallback B e s url msg :
  fetch e = FetchFailed url msg ->
  (forall n, db_fault e n = None) ->
  exists r m,
    Sibling.refresh_try B e (start s) = (Ok r, m) /\
    status r = 200%nat /\
    forall k,
      (k = toLowerCase B "Nigeria" \/ k = toLowerCase B "United States") ->
      exists r, In r (table (disk m)) /\ name_lower (cols r) = k.
Proof.
  intros Hfetch Hdb. unfold Sibling.refresh_try.
  rewrite (bind_run _ _ (start s)
             (Sibling.fallback_countries, Sibling.fallback_rates) (start s));
    [| unfold Sibling.fetchExternalData; rewrite Hfetch; reflexivity].
  cbn [fst snd]. unfold Sibling.fallback_rates at 1. cbn [truthy negb].
  rewrite (bind_run _ _ (start s)
             (VObj [ ("NGN", VNum (Num.ofZ 1500)); ("USD", VNum (Num.ofZ 1)) ])
             (start s)); [| reflexivity].
  cbn [truthy negb].
  destruct (getConnection_runs e (start s) Hdb) as (m1 & H1 & D1).
  rewrite (bind_run _ _ _ _ _ H1).
  destruct (beginTransaction_runs e m1 Hdb) as (m2 & H2 & D2).
  rewrite (bind_run _ _ _ _ _ H2).
  unfold Sibling.fallback_countries. cbn [iterate lift].
  rewrite (bind_run (ret _) _ m2 _ m2 eq_refl).
  match goal with
  | |- context [forEach _ [VObj ?a; VObj ?b]] =>
      destruct (sibling_country_runs B e
                  [ ("NGN", VNum (Num.ofZ 1500)); ("USD", VNum (Num.ofZ 1)) ]
                  (clock e) a "Nigeria" "NGN" m2 Hdb eq_refl eq_refl)
        as (m3 & H3 & K3);
      destruct (sibling_country_runs B e
                  [ ("NGN", VNum (Num.ofZ 1500)); ("USD", VNum (Num.ofZ 1)) ]
                  (clock e) b "United States" "USD" m3 Hdb eq_refl eq_refl)
        as (m4 & H4 & K4)
  end.
  cbn [forEach].
  rewrite (bind_run _ _ m2 tt m4);
    [| rewrite (bind_run _ _ _ _ _ H3), (bind_run _ _ _ _ _ H4); reflexivity].
  destruct (commit_runs e m4 Hdb) as (m5 & H5 & D5).
  rewrite (bind_run _ _ _ _ _ H5).
  destruct (count_rows_runs e m5 Hdb) as (total & m6 & H6 & D6).
  rewrite (bind_run _ _ _ _ _ H6).
  destruct (top_rows_runs e m6 Hdb) as (top & m7 & H7 & D7).
  rewrite (bind_run _ _ _ _ _ H7).
  destruct (generateSummaryImage_returns e total top (clock e) m7)
    as (m8 & H8 & T8 & _).
  rewrite (bind_run _ _ _ _ _ H8).
  do 2 eexists. split; [reflexivity|]. split; [reflexivity|].
  intros k Hk. rewrite T8, D7, D6, D5. apply K4.
  destruct Hk as [-> | ->]; [right; apply K3; left; reflexivity | left; reflexivity].
Qed.

(** X17. In the sibling server file a refresh goes on when the
    country or rate source is down: while the database works it
    answers 200, having stored the two countries of the built-in
    fallback data. *)
Theorem sibling_refresh_fallback B e s url msg :
  fetch e = FetchFailed url msg ->
  (forall n, db_fault e n = None) ->
  status (fst (Sibling.post_countries_refresh B e s)) = 200%nat /\
  forall k,
    (k = toLowerCase B "Nigeria" \/ k = toLowerCase B "United States") ->
    exists r, In r (table (snd (Sibling.post_countries_refresh B e s))) /\
              name_lower (cols r) = k.
Proof.
  intros Hfetch Hdb.
  destruct (sibling_refresh_try_fallback B e s url msg Hfetch Hdb)
    as (r & m & Hr & Hst & Hk).
  unfold Sibling.post_countries_refresh, handler. rewrite Hr. cbn [fst snd].
  split; [exact Hst | exact Hk].
Qed.

Lemma sibling_refresh_fallback_witness :
  status (fst (Sibling.post_countries_refresh Sample.B Sample.rate_source_down
                 Sample.empty)) = 200%nat /\
  forall k,
    (k = toLowerCase Sample.B "Nigeria" \/
     k = toLowerCase Sample.B "United States") ->
    exists r,
      In r (table (snd (Sibling.post_countries_refresh Sample.B
                          Sample.rate_source_down Sample.empty))) /\
      name_lower (cols r) = k.
Proof.
  apply (sibling_refresh_fallback Sample.B Sample.rate_source_down Sample.empty
           (Some "https://open.er-api.com/v6/latest/USD")
           "Request failed with status code 500").
  - reflexivity.
  - intros n. reflexivity.
Defined.

(** ** What a deletion removes *)

Lemma filter_drops {A} (p : A -> bool) (l : list A) :
  (0 < List.length l - List.length (filter p l))%nat <->
  exists x, In x l /\ p x = false.
Proof.
  induction l as [|x l IH]; cbn [filter List.length].
  - split; [cbn; lia | intros (x & [] & _)].
  - pose proof (filter_length_le p l) as Hle.
    destruct (p x) eqn:E; cbn [List.length].
    + rewrite Nat.sub_succ, IH. split.
      * intros (y & Hy & Hp). exists y. split; [right; exact Hy | exact Hp].
      * intros (y & [<- | Hy] & Hp); [congruence | eauto].
    + split; [intros _; exists x; split; [left; reflexivity | exact E] | lia].
Qed.

Lemma find_filter_other (key other : string) (t : list row) :
  other <> key ->
  find (fun r => (name_lower (cols r) =? other)%string)
       (filter (fun r => negb (name_lower (cols r) =? key)%string) t)
  = find (fun r => (name_lower (cols r) =? other)%string) t.
Proof.
  intros Hne. induction t as [|r t IH]; [reflexivity|].
  cbn [filter find].
  destruct (name_lower (cols r) =? key)%string eqn:Ek; cbn [negb find].
  - apply String.eqb_eq in Ek.
    destruct (name_lower (cols r) =? other)%string eqn:Eo; [| exact IH].
    apply String.eqb_eq in Eo. congruence.
  - rewrite IH. reflexivity.
Qed.

Lemma delete_country_status B e param s :
  db_fault e 0 = None ->
  status (fst (delete_country B e param s)) =
    if Nat.ltb 0 (List.length (table s)
                  - List.length
                      (filter (fun r => negb (name_lower (cols r)
                                               =? toLowerCase B param)%string)
                              (table s)))
    then 204%nat else 404%nat.
Proof.
  intros Hdb.
  unfold delete_country, handler, bind, db_call, read_table, with_disk, start.
  cbn -[Nat.ltb]. rewrite Hdb. cbn -[Nat.ltb].
  match goal with
  | |- context [Nat.ltb ?a ?b] => destruct (Nat.ltb a b)
  end; reflexivity.
Qed.

Lemma get_country_answer B e param s :
  db_fault e 0 = None ->
  fst (get_country B e param s) =
    match find (fun r => (name_lower (cols r) =? toLowerCase B param)%string)
               (table s) with
    | None => not_found
    | Some r => {| status := 200; payload := JsonRow r |}
    end.
Proof.
  intros Hdb. unfold get_country, handler, bind, db_call, read_table, start.
  cbn. rewrite Hdb. cbn.
  destruct (find _ (table s)); reflexivity.
Qed.

(** X18. [DELETE /countries/:name] answers 204 exactly when some row
    carries the name, in any casing, and 404 otherwise; the rows of
    every other key stay, so that [GET /countries/:name] answers for
    them what it answered before. *)
Theorem delete_removes_key_only B e e' s param other :
  db_fault e 0 = None ->
  db_fault e' 0 = None ->
  let out := delete_country B e param s in
  (status (fst out) = 204%nat <->
   exists r, In r (table s) /\ name_lower (cols r) = toLowerCase B param) /\
  (status (fst out) = 404%nat <->
   forall r, In r (table s) -> name_lower (cols r) <> toLowerCase B param) /\
  (toLowerCase B other <> toLowerCase B param ->
   fst (get_country B e' other (snd out)) = fst (get_country B e' other s)).
Proof.
  intros Hdb Hdb' out. unfold out.
  rewrite (delete_country_status B e param s Hdb).
  pose proof (filter_drops
                (fun r => negb (name_lower (cols r) =? toLowerCase B param)%string)
                (table s)) as Hdrop.
  assert (Hex : (exists x, In x (table s) /\
                   negb (name_lower (cols x) =? toLowerCase B param)%string = false)
                <-> exists r, In r (table s) /\
                      name_lower (cols r) = toLowerCase B param).
  { split; intros (r & Hin & Hr); exists r; (split; [exact Hin|]).
    - apply negb_false_iff, String.eqb_eq in Hr. exact Hr.
    - apply negb_false_iff, String.eqb_eq. exact Hr. }
  destruct (Nat.ltb 0 _) eqn:E.
  - apply Nat.ltb_lt in E. apply Hdrop, Hex in E.
    split; [split; [intros _; exact E | reflexivity]|].
    split.
    + split; [discriminate|]. intros Hno. destruct E as (r & Hin & Hr).
      exfalso. exact (Hno r Hin Hr).
    + intros Hne. rewrite !get_country_answer by exact Hdb'.
      rewrite (delete_country_ok B e param s Hdb). cbn [table set_table].
      rewrite find_filter_other by exact Hne. reflexivity.
  - apply Nat.ltb_ge in E.
    assert (Hno : forall r, In r (table s) ->
                            name_lower (cols r) <> toLowerCase B param).
    { intros r Hin Hr.
      assert (0 < List.length (table s)
                  - List.length
                      (filter (fun r => negb (name_lower (cols r)
                                               =? toLowerCase B param)%string)
                              (table s)))%nat by (apply Hdrop, Hex; eauto).
      lia. }
    split; [split; [discriminate | intros (r & Hin & Hr);
                                   exfalso; exact (Hno r Hin Hr)]|].
    split; [split; [intros _; exact Hno | reflexivity]|].
    intros Hne. rewrite !get_country_answer by exact Hdb'.
    rewrite (delete_country_ok B e param s Hdb). cbn [table set_table].
    rewrite find_filter_other by exact Hne. reflexivity.
Qed.

Lemma delete_removes_key_only_witness :
  let e := Sample.quiet Sample.world Sample.rates in
  let out := delete_country Sample.B e "NIGERIA" Sample.refreshed in
  (status (fst out) = 204%nat <->
   exists r, In r (table Sample.refreshed) /\
             name_lower (cols r) = toLowerCase Sample.B "NIGERIA") /\
  (status (fst out) = 404%nat <->
   forall r, In r (table Sample.refreshed) ->
             name_lower (cols r) <> toLowerCase Sample.B "NIGERIA") /\
  (toLowerCase Sample.B "Cuba" <> toLowerCase Sample.B "NIGERIA" ->
   fst (get_country Sample.B e "Cuba" (snd out))
   = fst (get_country Sample.B e "Cuba" Sample.refreshed)).
Proof.
  cbv zeta.
  apply (delete_removes_key_only Sample.B
           (Sample.quiet Sample.world Sample.rates)
           (Sample.quiet Sample.world Sample.rates)
           Sample.refreshed "NIGERIA" "Cuba").
  - reflexivity.
  - reflexivity.
Defined.

(** ** Refresh, then look up *)

Lemma refresh_200_lookup B e s resp s' countries rates cs c :
  post_countries_refresh B e s = (resp, s') ->
  status resp = 200%nat ->
  fetch e = Fetched countries rates ->
  iterate countries = Ok cs ->
  In c cs ->
  exists key r,
    key_of B c = Ok key /\
    lookup key (table s') = Some r /\
    last_refreshed_at (cols r) = clock e.
Proof.
  intros Hpost Hst Hfetch Hit Hin.
  destruct (refresh_200 _ _ _ _ _ Hpost Hst)
    as (countries0 & rates0 & rateMap & cs0 & m1 & m2 &
        Hfetch0 & _ & _ & Hit0 & _ & _ & Hloop & Htab & _).
  rewrite Hfetch in Hfetch0. inversion Hfetch0; subst countries0 rates0.
  rewrite Hit in Hit0. inversion Hit0; subst cs0.
  apply in_split in Hin. destruct Hin as (pre & suf & ->).
  apply forEach_app in Hloop. destruct Hloop as (ma & _ & Hloop).
  cbn [forEach] in Hloop. apply bind_ok in Hloop.
  destruct Hloop as ([] & mb & Hc & Hsuf).
  apply refresh_country_ok in Hc. destruct Hc as (en & m0 & Hen & _ & Hup).
  pose proof (entry_of_key _ _ _ _ _ _ _ _ Hen) as Hkey.
  pose proof (entry_of_stamp _ _ _ _ _ _ _ _ Hen) as Hstamp.
  apply upsert_written in Hup. destruct Hup as (r & Hr & Hcols).
  destruct (forEach_stamp B e rateMap (clock e) suf mb m2 (name_lower en))
    as (r' & Hr' & Hts'); [| exact Hsuf |].
  - exists r. split; [exact Hr|]. rewrite <- Hcols. exact Hstamp.
  - exists (name_lower en), r'. rewrite Htab. auto.
Qed.

(** X19. Every country of a refresh that answered 200 can be looked
    up afterwards: [GET /countries/:name] with its name in any casing
    answers 200 with a row of its key that carries the timestamp of
    that refresh. *)
Theorem refresh_then_get B e e' s resp s' countries rates cs c param :
  post_countries_refresh B e s = (resp, s') ->
  status resp = 200%nat ->
  fetch e = Fetched countries rates ->
  iterate countries = Ok cs ->
  In c cs ->
  key_of B c = Ok (toLowerCase B param) ->
  db_fault e' 0 = None ->
  exists r,
    get_country B e' param s' = ({| status := 200; payload := JsonRow r |}, s') /\
    In r (table s') /\
    name_lower (cols r) = toLowerCase B param /\
    last_refreshed_at (cols r) = clock e.
Proof.
  intros Hpost Hst Hfetch Hit Hin Hkey Hdb.
  destruct (refresh_200_lookup _ _ _ _ _ _ _ _ _ Hpost Hst Hfetch Hit Hin)
    as (key & r & Hkey' & Hl & Hstamp).
  rewrite Hkey in Hkey'. inversion Hkey'; subst key.
  exists r. destruct (lookup_some _ _ _ Hl) as [Hr Hk].
  split; [| auto].
  rewrite (surjective_pairing (get_country B e' param s')).
  rewrite get_country_store, (get_country_answer B e' param s' Hdb).
  unfold lookup in Hl. rewrite Hl. reflexivity.
Qed.

Lemma refresh_then_get_witness :
  exists r,
    get_country Sample.B (Sample.quiet Sample.world Sample.rates) "CUBA"
      Sample.refreshed
      = ({| status := 200; payload := JsonRow r |}, Sample.refreshed) /\
    In r (table Sample.refreshed) /\
    name_lower (cols r) = toLowerCase Sample.B "CUBA" /\
    last_refreshed_at (cols r) = clock (Sample.quiet Sample.world Sample.rates).
Proof.
  unfold Sample.refreshed.
  apply (refresh_then_get Sample.B (Sample.quiet Sample.world Sample.rates)
           (Sample.quiet Sample.world Sample.rates) Sample.empty _ _
           Sample.world Sample.rates
           [Sample.nigeria; Sample.bouvet; Sample.cuba; Sample.atlantis]
           Sample.cuba "CUBA" (surjective_pairing _)).
  - vm_compute. reflexivity.
  - reflexivity.
  - reflexivity.
  - right. right. left. reflexivity.
  - vm_compute. reflexivity.
  - reflexivity.
Defined.
